(** * day6: the proof-of-work mining client and the confirmation auditor

    A shallow embedding of [day6/mine_fast.py] and [day6/check_tx_depth.py].

    - [Py]: the slice of the Python runtime both scripts rely on: JSON
      values, insertion-ordered dicts, [json.dumps(sort_keys=True,
      separators=(",", ":"))], [str.startswith], [str * int].
    - [Net]: the ledger service as an oracle over an abstract world, and the
      monad the scripts run in (world passing, raised exceptions, the list of
      interactions performed, fuel for [while] loops).
    - [MineFast], [CheckTxDepth]: the two source files.
    - [Ledgers]: concrete ledgers on which the scripts are evaluated.
    - [PyFacts], [NetFacts], [ChainReader], [Auditor], [Miner]: lemmas.
    - [Hashing], [Reading], [Mining]: the properties of the specification;
      [ReadingRuns], [MiningRuns]: the same on concrete ledgers.
    - [ReaderMore], [MinerMore], [HashingMore]: further properties of the
      code; [MoreRuns]: the same on concrete ledgers. *)

From Stdlib Require Import ZArith List String Ascii Bool Lia.
From Stdlib Require Import Permutation Sorted DecimalString OrdersEx.
From Stdlib Require Import RelationClasses DecimalZ.
Import ListNotations.

Set Warnings "-register-all".
Open Scope string_scope.
Open Scope Z_scope.

(* ===================================================================== *)
(** ** Python runtime slice *)
(* ===================================================================== *)

Module Py.

(** A JSON-shaped Python value.  A [dict] keeps insertion order, so it is an
    association list; its keys are pairwise distinct (see [wf]).  A [str] is
    a sequence of code points below 256. *)
Inductive json : Type :=
| JNull
| JBool (b : bool)
| JInt (n : Z)
| JStr (s : string)
| JList (items : list json)
| JDict (items : list (string * json)).

(** [d.get(k)] *)
Fixpoint dict_get (k : string) (d : list (string * json)) : option json :=
  match d with
  | [] => None
  | (k', v) :: rest => if String.eqb k k' then Some v else dict_get k rest
  end.

(** [d[k] = v]: an existing key keeps its position, a new key goes last. *)
Fixpoint dict_set (k : string) (v : json) (d : list (string * json))
  : list (string * json) :=
  match d with
  | [] => [(k, v)]
  | (k', v') :: rest =>
      if String.eqb k k' then (k', v) :: rest else (k', v') :: dict_set k v rest
  end.

(** [block[k] = v] on a value that is a dict. *)
Definition set_item (k : string) (v : json) (j : json) : json :=
  match j with
  | JDict d => JDict (dict_set k v d)
  | other => other
  end.

(** [block.get(k)] on a value that is a dict. *)
Definition get_item (k : string) (j : json) : option json :=
  match j with
  | JDict d => dict_get k d
  | _ => None
  end.

(** Keys are pairwise distinct in every dict, at every depth. *)
Fixpoint distinct_keys (ks : list string) : bool :=
  match ks with
  | [] => true
  | k :: rest => negb (existsb (String.eqb k) rest) && distinct_keys rest
  end.

Fixpoint wf (j : json) : bool :=
  match j with
  | JList l => forallb wf l
  | JDict d =>
      distinct_keys (map fst d) && forallb (fun kv => wf (snd kv)) d
  | _ => true
  end.

(** Two values with the same content: equal leaves, lists equal position by
    position, dicts with the same keys bound to values of the same content,
    whatever the order the keys were inserted in. *)
Fixpoint same_content (a b : json) {struct a} : bool :=
  match a, b with
  | JNull, JNull => true
  | JBool x, JBool y => Bool.eqb x y
  | JInt x, JInt y => Z.eqb x y
  | JStr x, JStr y => String.eqb x y
  | JList l1, JList l2 =>
      (fix go (l1 l2 : list json) {struct l1} : bool :=
         match l1, l2 with
         | [], [] => true
         | x :: l1', y :: l2' => same_content x y && go l1' l2'
         | _, _ => false
         end) l1 l2
  | JDict d1, JDict d2 =>
      Nat.eqb (List.length d1) (List.length d2)
      && forallb (fun kv => match dict_get (fst kv) d2 with
                            | Some v' => same_content (snd kv) v'
                            | None => false
                            end) d1
  | _, _ => false
  end.

(** *** [json.dumps] *)

Definition dquote : ascii := ascii_of_N 34.

Definition hex_digit (n : N) : ascii :=
  if (n <? 10)%N then ascii_of_N (48 + n) else ascii_of_N (87 + n).

(** ['\\u{0:04x}'.format(n)] for a code point below 256. *)
Definition u_escape (n : N) : string :=
  "\u00" ++ String (hex_digit (n / 16)) (String (hex_digit (n mod 16)) "").

(** [ESCAPE_DCT] and the fallback of [py_encode_basestring_ascii]: only the
    characters from space to tilde other than the quote and the backslash are
    copied as they are. *)
Definition escape_char (c : ascii) : string :=
  let n := N_of_ascii c in
  if (n =? 34)%N then String "\" (String dquote "")
  else if (n =? 92)%N then "\\"
  else if (n =? 8)%N then "\b"
  else if (n =? 12)%N then "\f"
  else if (n =? 10)%N then "\n"
  else if (n =? 13)%N then "\r"
  else if (n =? 9)%N then "\t"
  else if (32 <=? n)%N && (n <=? 126)%N then String c ""
  else u_escape n.

Fixpoint escape (s : string) : string :=
  match s with
  | EmptyString => ""
  | String c rest => escape_char c ++ escape rest
  end.

Definition encode_str (s : string) : string :=
  String dquote (escape s ++ String dquote "").

(** [int.__repr__] *)
Definition repr_int (n : Z) : string := NilZero.string_of_int (Z.to_int n).

(** [sep.join(parts)] *)
Fixpoint join (sep : string) (parts : list string) : string :=
  match parts with
  | [] => ""
  | [p] => p
  | p :: rest => p ++ sep ++ join sep rest
  end.

(** [sorted(dct.items())]: the keys of a dict are distinct, so the order of
    the result is decided by the keys alone; [str] compares code point by
    code point. *)
Definition key_le (k1 k2 : string) : bool :=
  match String_as_OT.compare k1 k2 with
  | Gt => false
  | _ => true
  end.

Fixpoint insert_item {V : Type} (x : string * V) (l : list (string * V))
  : list (string * V) :=
  match l with
  | [] => [x]
  | y :: rest =>
      if key_le (fst x) (fst y) then x :: y :: rest
      else y :: insert_item x rest
  end.

Fixpoint sort_items {V : Type} (l : list (string * V)) : list (string * V) :=
  match l with
  | [] => []
  | x :: rest => insert_item x (sort_items rest)
  end.

(** One [key:value] member, with the compact [":"] separator. *)
Definition member (kv : string * string) : string :=
  encode_str (fst kv) ++ ":" ++ snd kv.

(** [json.dumps(j, sort_keys=True, separators=(",", ":"))].  The members of
    a dict are rendered and then ordered by key, which gives the text the
    encoder produces by ordering the items first. *)
Fixpoint dumps (j : json) : string :=
  match j with
  | JNull => "null"
  | JBool true => "true"
  | JBool false => "false"
  | JInt n => repr_int n
  | JStr s => encode_str s
  | JList l => "[" ++ join "," (map dumps l) ++ "]"
  | JDict d =>
      "{" ++ join "," (map member
                         (sort_items
                            (map (fun kv => (fst kv, dumps (snd kv))) d)))
          ++ "}"
  end.

(** [s * n] *)
Fixpoint str_repeat (s : string) (n : nat) : string :=
  match n with
  | O => ""
  | S n' => s ++ str_repeat s n'
  end.

Definition str_mul (s : string) (n : Z) : string := str_repeat s (Z.to_nat n).

(** [s.startswith(p)] *)
Definition startswith (s p : string) : bool := String.prefix p s.

(** Truth value of an optional string: [None] and [""] are false. *)
Definition truthy (s : option string) : bool :=
  match s with
  | None => false
  | Some "" => false
  | Some _ => true
  end.

(** [a == b] on optional strings. *)
Definition opt_str_eqb (a b : option string) : bool :=
  match a, b with
  | None, None => true
  | Some x, Some y => String.eqb x y
  | _, _ => false
  end.

(** A value that is [None] or a [str], as a JSON value. *)
Definition of_opt_str (s : option string) : json :=
  match s with
  | None => JNull
  | Some x => JStr x
  end.

End Py.

Import Py.

(* ===================================================================== *)
(** ** The ledger service and the monad of the scripts *)
(* ===================================================================== *)

Module Net.

(** Records of the ledger, as the service sends them. *)
Record Tx := mkTx {
  tx_src : option string;      (* tx.get("src") *)
  tx_dst : option string;      (* tx.get("dst") *)
  tx_nonce : option string     (* tx.get("nonce") *)
}.

(** A block record with its keys, as the ledger stores it: every record
    carries an integer under [index]; [prev_hash] and [nice] are strings
    when they are there and not null, [txs] is a list when it is there. *)
Record Block := mkBlock {
  blk_index : Z;                   (* blk["index"] *)
  blk_prev_hash : option string;   (* blk.get("prev_hash") *)
  blk_nonce : Z;
  blk_txs : list Tx;               (* blk.get("txs", []) *)
  blk_nice : option string         (* blk.get("nice") *)
}.

(** A JSON object found where a block is expected: the empty object [{}],
    which Python takes for false and which has no key at all, or a block
    record. *)
Inductive Dict : Type :=
| Empty
| Rec (b : Block).

(** [d.get("prev_hash")] *)
Definition get_prev_hash (d : Dict) : option string :=
  match d with
  | Empty => None
  | Rec b => blk_prev_hash b
  end.

(** [d.get("txs", [])] *)
Definition get_txs (d : Dict) : list Tx :=
  match d with
  | Empty => []
  | Rec b => blk_txs b
  end.

(** [d.get("nice")] *)
Definition get_nice (d : Dict) : option string :=
  match d with
  | Empty => None
  | Rec b => blk_nice b
  end.

(** What a JSON object holds under a key: nothing, null, or a value. *)
Inductive Field (A : Type) : Type :=
| Missing
| Null
| Value (a : A).
Arguments Missing {A}.
Arguments Null {A}.
Arguments Value {A} _.

(** [j.get(key)]: [None] for a missing key and for null. *)
Definition field_get {A} (x : Field A) : option A :=
  match x with
  | Value a => Some a
  | _ => None
  end.

(** [not blk] for [blk = j.get("block")]: true of [None] and of [{}]. *)
Definition falsy (blk : option Dict) : bool :=
  match blk with
  | Some (Rec _) => false
  | _ => true
  end.

(** JSON body of [GET /block] and [GET /block?hash=...]. *)
Record BlockBody := mkBlockBody {
  bb_hash : Field string;     (* under "hash" *)
  bb_block : Field Dict       (* under "block" *)
}.

(** JSON body of [GET /txpool]: [j.get("hash")] and [j.get("txs", [])],
    where the ledger sends a list under [txs] when the key is there. *)
Record PoolBody := mkPoolBody {
  pb_hash : option string;
  pb_txs : list Tx
}.

(** A [requests.Response]: [body] is [None] when [r.json()] raises. *)
Record Response (A : Type) := mkResponse {
  status_code : Z;
  body : option A
}.
Arguments mkResponse {A} _ _.
Arguments status_code {A} _.
Arguments body {A} _.

(** The ledger service: an arbitrary, possibly adversarial, state machine.
    Every call may change the world; a reply of [None] is a raised
    [requests] exception (timeout, connection failure).  [srv_sleep] is the
    world going on while the client sleeps (milliseconds). *)
Class Server := {
  World : Type;
  srv_block : option string -> World -> World * option (Response BlockBody);
  srv_txpool : World -> World * option (Response PoolBody);
  srv_post : json -> World -> World * option Z;
  srv_sleep : Z -> World -> World
}.

(** What the client did, in order. *)
Inductive Event : Type :=
| GetBlock (hash : option string) (reply : option (Response BlockBody))
| GetTxpool (reply : option (Response PoolBody))
| PostBlock (block : json) (reply : option Z)
| Sleep (ms : Z)
| Print (line : string).

Inductive Exn : Type :=
| RequestException   (* raised by requests.get / requests.post *)
| HTTPError          (* raised by raise_for_status *)
| JSONDecodeError    (* raised by r.json() *)
| KeyError           (* a subscript with a key the object does not have *)
| TypeError          (* a subscript on None *)
| AttributeError.    (* a method call on None *)

Inductive Outcome (A : Type) : Type :=
| Return (a : A)
| Raise (e : Exn)
| OutOfFuel.
Arguments Return {A} _.
Arguments Raise {A} _.
Arguments OutOfFuel {A}.

(** The paths the scripts request, with the type of the body they expect.
    [requests] leaves out a parameter whose value is [None], so
    [BlockAt None] is the plain [GET /block]. *)
Inductive Endpoint : Type -> Type :=
| BlockAt (hash : option string) : Endpoint BlockBody
| Txpool : Endpoint PoolBody.

(** Control flow of a [while] body. *)
Inductive Flow (S A : Type) : Type :=
| Continue (s : S)
| Break (a : A).
Arguments Continue {S A} _.
Arguments Break {S A} _.

Section Monad.
Context `{Server}.

(** A computation: from a world to an outcome, the world after it and the
    events it performed. *)
Definition M (A : Type) : Type := World -> Outcome A * World * list Event.

Definition ret {A} (a : A) : M A := fun w => (Return a, w, []).

Definition raise {A} (e : Exn) : M A := fun w => (Raise e, w, []).

Definition bind {A B} (m : M A) (k : A -> M B) : M B :=
  fun w =>
    match m w with
    | (Return a, w1, t1) =>
        match k a w1 with
        | (r, w2, t2) => (r, w2, (t1 ++ t2)%list)
        end
    | (Raise e, w1, t1) => (Raise e, w1, t1)
    | (OutOfFuel, w1, t1) => (OutOfFuel, w1, t1)
    end.

(** [try: m  except Exception: h] *)
Definition try_except {A} (m : M A) (h : M A) : M A :=
  fun w =>
    match m w with
    | (Raise _, w1, t1) =>
        match h w1 with
        | (r, w2, t2) => (r, w2, (t1 ++ t2)%list)
        end
    | other => other
    end.

Definition emit (e : Event) : M unit := fun w => (Return tt, w, [e]).

(** [while ...: body], cut after [fuel] iterations. *)
Fixpoint while {S A} (fuel : nat) (body : S -> M (Flow S A)) (s : S) : M A :=
  match fuel with
  | O => fun w => (OutOfFuel, w, [])
  | Datatypes.S fuel' =>
      bind (body s) (fun f =>
        match f with
        | Continue s' => while fuel' body s'
        | Break a => ret a
        end)
  end.

Definition of_reply {A} (r : option A) : Outcome A :=
  match r with
  | Some a => Return a
  | None => Raise RequestException
  end.

(** [requests.get(url, timeout=5, params=...)] *)
Definition requests_get {A} (e : Endpoint A) : M (Response A) :=
  match e in Endpoint T return M (Response T) with
  | BlockAt hash => fun w =>
      let '(w', r) := srv_block hash w in (of_reply r, w', [GetBlock hash r])
  | Txpool => fun w =>
      let '(w', r) := srv_txpool w in (of_reply r, w', [GetTxpool r])
  end.

(** [requests.post(url, json=json_body, timeout=5)]; only the status code
    of the response is ever read. *)
Definition requests_post (json_body : json) : M Z :=
  fun w =>
    let '(w', r) := srv_post json_body w in
    (of_reply r, w', [PostBlock json_body r]).

(** [r.raise_for_status()] *)
Definition raise_for_status {A} (r : Response A) : M unit :=
  if (400 <=? status_code r) && (status_code r <? 600)
  then raise HTTPError else ret tt.

(** [r.json()] *)
Definition json_of {A} (r : Response A) : M A :=
  match body r with
  | Some j => ret j
  | None => raise JSONDecodeError
  end.

(** [j[key]] on the body of a reply: [KeyError] when the key is missing;
    null is read as [None]. *)
Definition subscript {A} (x : Field A) : M (option A) :=
  match x with
  | Missing => raise KeyError
  | Null => ret None
  | Value a => ret (Some a)
  end.

(** [blk["index"]], where [blk] may be [None] or [{}]. *)
Definition index (blk : option Dict) : M Z :=
  match blk with
  | None => raise TypeError
  | Some Empty => raise KeyError
  | Some (Rec b) => ret (blk_index b)
  end.

(** [time.sleep(ms / 1000)] *)
Definition sleep (ms : Z) : M unit :=
  fun w => (Return tt, srv_sleep ms w, [Sleep ms]).

(** [print(line)] *)
Definition print (line : string) : M unit := emit (Print line).

End Monad.

Module Notations.
  Notation "x <- m ;; k" := (bind m (fun x => k))
    (at level 61, m at next level, right associativity).
  Notation "' pat <- m ;; k" := (bind m (fun x => match x with pat => k end))
    (at level 61, pat pattern, m at next level, right associativity).
  Notation "m ;;; k" := (bind m (fun _ => k))
    (at level 61, right associativity).
End Notations.

End Net.

Import Net.
Import Net.Notations.

(* ===================================================================== *)
(** ** day6/mine_fast.py *)
(* ===================================================================== *)

Module MineFast.

Definition DIFFICULTY : Z := 16.
Definition DIFFICULTY_PREFIX : string := str_mul "0" (DIFFICULTY / 4).
Definition RECHECK_INTERVAL : Z := 512.

Section Script.
Context `{Server}.
(** [hashlib.sha256(data).hexdigest()] *)
Variable sha256_hexdigest : string -> string.

Definition http_get {A} (e : Endpoint A) : M (Response A) :=
  r <- requests_get e ;;
  raise_for_status r ;;;
  ret r.

Definition http_post (json_body : json) : M Z :=
  requests_post json_body.

Definition hash_block (block : json) : string :=
  sha256_hexdigest (dumps block).

(** [return j["hash"], j["block"]]: both keys must be there; what they hold
    is handed back as it is, [None] and [{}] included. *)
Definition get_head : M (option string * option Dict) :=
  r <- http_get (BlockAt None) ;;
  j <- json_of r ;;
  hash <- subscript (bb_hash j) ;;
  block <- subscript (bb_block j) ;;
  ret (hash, block).

(** [head_block.get("prev_hash")] of line 49 raises when [head_block] is
    [None]; on [{}] it is [None], the loop is not entered and [[{}]] is
    returned.  In the loop, [if not blk: break] leaves on [None] and on
    [{}]. *)
Definition get_chain_from_head (fuel : nat) : M (list Dict) :=
  '(head_hash, head_block) <- get_head ;;
  match head_block with
  | None => raise AttributeError
  | Some head_block =>
      chain <- while fuel (fun '(chain, current_hash) =>
                 if truthy current_hash then
                   fetched <- try_except
                                (r <- http_get (BlockAt current_hash) ;;
                                 ret (Some r))
                                (ret None) ;;
                   match fetched with
                   | None => ret (Break chain)
                   | Some r =>
                       j <- json_of r ;;
                       match field_get (bb_block j) with
                       | None | Some Empty => ret (Break chain)
                       | Some blk =>
                           ret (Continue ((chain ++ [blk])%list,
                                          get_prev_hash blk))
                       end
                   end
                 else ret (Break chain))
               ([head_block], get_prev_hash head_block) ;;
      ret (rev chain)
  end.

Definition get_txpool : M (option string * list Tx) :=
  r <- http_get Txpool ;;
  j <- json_of r ;;
  ret (pb_hash j, pb_txs j).

Definition count_nice (fuel : nat) (chain : option (list Dict)) (who : string)
  : M Z :=
  chain <- match chain with
           | None => get_chain_from_head fuel
           | Some c => ret c
           end ;;
  ret (Z.of_nat (List.length
         (filter (fun blk => opt_str_eqb (get_nice blk) (Some who)) chain))).

(** [any((tx.get("src") == who) or (tx.get("dst") == who) for tx in txs)] *)
Definition touches_who (who : string) (txs : list Tx) : bool :=
  existsb (fun tx => opt_str_eqb (tx_src tx) (Some who)
                     || opt_str_eqb (tx_dst tx) (Some who)) txs.

(** The block literal of lines 88-94. *)
Definition new_block (parent_index : Z) (head_hash : option string)
    (who : string) : json :=
  JDict [("index", JInt (parent_index + 1));
         ("prev_hash", of_opt_str head_hash);
         ("nonce", JInt 0);
         ("txs", JList []);
         ("nice", JStr who)].

(** The inner [while True] of lines 97-107.  It leaves [block] and [h] as
    the last evaluation set them. *)
Definition pow_loop (fuel : nat) (base_head : option string) (block : json)
  : M (json * string) :=
  while fuel (fun '(block, nonce) =>
    let block := set_item "nonce" (JInt nonce) block in
    let h := hash_block block in
    if startswith h DIFFICULTY_PREFIX then ret (Break (block, h))
    else
      let nonce := nonce + 1 in
      if nonce mod RECHECK_INTERVAL =? 0 then
        '(latest_head, _) <- get_txpool ;;
        if negb (opt_str_eqb latest_head base_head)
        then ret (Break (block, h))
        else ret (Continue (block, nonce))
      else ret (Continue (block, nonce)))
    (block, 0).

(** One pass through the body of the outer [while True] of lines 77-114:
    [Continue] is the next pass, [Break v] is [return v]. *)
Definition mine_attempt (fuel : nat) (who : string) : M (Flow unit bool) :=
  '(head_hash, txs) <- get_txpool ;;
  if touches_who who txs then
    sleep 100 ;;;
    ret (Continue tt)
  else
    r <- http_get (BlockAt head_hash) ;;
    j <- json_of r ;;
    parent <- subscript (bb_block j) ;;
    parent_index <- index parent ;;
    let block := new_block parent_index head_hash who in
    let base_head := head_hash in
    '(block, h) <- pow_loop fuel base_head block ;;
    '(latest_head, _) <- get_txpool ;;
    if negb (opt_str_eqb latest_head base_head)
       || negb (startswith h DIFFICULTY_PREFIX)
    then ret (Continue tt)
    else
      status <- http_post block ;;
      if status =? 200 then ret (Break true)
      else
        sleep 50 ;;;
        ret (Continue tt).

Definition mine_empty_with_nice (fuel : nat) (who : string) : M bool :=
  while fuel (fun _ => mine_attempt fuel who) tt.

Definition line_current (who : string) (cur target : Z) : string :=
  "[nice-fast] current nice(" ++ who ++ ")=" ++ repr_int cur
    ++ "; target=" ++ repr_int target.
Definition line_accepted (who : string) (cur : Z) : string :=
  "[nice-fast] accepted empty block; nice(" ++ who ++ ") count now "
    ++ repr_int cur.
Definition line_rejected : string := "[nice-fast] rejected; retrying...".
Definition line_reached (who : string) (cur : Z) : string :=
  "[nice-fast] target reached: nice(" ++ who ++ ")=" ++ repr_int cur.

Definition mine_nice_fast (fuel : nat) (target : Z) (who : string) : M unit :=
  chain <- get_chain_from_head fuel ;;
  cur <- count_nice fuel (Some chain) who ;;
  print (line_current who cur target) ;;;
  cur <- while fuel (fun cur =>
           if cur <? target then
             ok <- mine_empty_with_nice fuel who ;;
             if ok : bool then
               chain <- get_chain_from_head fuel ;;
               cur <- count_nice fuel (Some chain) who ;;
               print (line_accepted who cur) ;;;
               ret (Continue cur)
             else
               print line_rejected ;;;
               ret (Continue cur)
           else ret (Break cur))
         cur ;;
  print (line_reached who cur).

End Script.
End MineFast.

(* ===================================================================== *)
(** ** day6/check_tx_depth.py *)
(* ===================================================================== *)

Module CheckTxDepth.

Section Script.
Context `{Server}.

Definition http_get {A} (e : Endpoint A) : M (Response A) :=
  r <- requests_get e ;;
  raise_for_status r ;;;
  ret r.

Definition get_head : M (option string * option Dict) :=
  r <- http_get (BlockAt None) ;;
  j <- json_of r ;;
  hash <- subscript (bb_hash j) ;;
  block <- subscript (bb_block j) ;;
  ret (hash, block).

Definition get_chain_from_head (fuel : nat) : M (list Dict) :=
  '(head_hash, head_block) <- get_head ;;
  match head_block with
  | None => raise AttributeError
  | Some head_block =>
      chain <- while fuel (fun '(chain, current_hash) =>
                 if truthy current_hash then
                   fetched <- try_except
                                (r <- http_get (BlockAt current_hash) ;;
                                 ret (Some r))
                                (ret None) ;;
                   match fetched with
                   | None => ret (Break chain)
                   | Some r =>
                       j <- json_of r ;;
                       match field_get (bb_block j) with
                       | None | Some Empty => ret (Break chain)
                       | Some blk =>
                           ret (Continue ((chain ++ [blk])%list,
                                          get_prev_hash blk))
                       end
                   end
                 else ret (Break chain))
               ([head_block], get_prev_hash head_block) ;;
      ret (rev chain)
  end.

(** The inner [for tx in blk.get("txs", [])] of lines 61-64: the index of
    [blk] at the first transaction carrying the nonce. *)
Fixpoint scan_txs (nonce : string) (blk : Dict) (txs : list Tx)
  : M (option Z) :=
  match txs with
  | [] => ret None
  | tx :: rest =>
      if opt_str_eqb (tx_nonce tx) (Some nonce) then
        tx_block_index <- index (Some blk) ;;
        ret (Some tx_block_index)
      else scan_txs nonce blk rest
  end.

(** The outer [for blk in chain] of lines 60-66. *)
Fixpoint scan_chain (nonce : string) (chain : list Dict) : M (option Z) :=
  match chain with
  | [] => ret None
  | blk :: rest =>
      found <- scan_txs nonce blk (get_txs blk) ;;
      match found with
      | Some tx_block_index => ret (Some tx_block_index)
      | None => scan_chain nonce rest
      end
  end.

(** What [main] reports. *)
Record Depth := mkDepth {
  mined_in_block_index : Z;
  head_index : Z;
  confirmations : Z
}.

(** Lines 55-72 of [main]: [None] is the not-found exit of line 70. *)
Definition check_depth (fuel : nat) (nonce : string) : M (option Depth) :=
  '(_, head) <- get_head ;;
  head_index <- index head ;;
  chain <- get_chain_from_head fuel ;;
  tx_block_index <- scan_chain nonce chain ;;
  match tx_block_index with
  | None => ret None
  | Some tx_block_index =>
      let depth := head_index - tx_block_index in
      ret (Some (mkDepth tx_block_index head_index depth))
  end.

Definition newline : string := String (ascii_of_N 10) "".

Definition line_not_found (nonce : string) : string :=
  "nonce=" ++ nonce
    ++ " not found in mined blocks (may still be queued/expired)".

Definition line_depth (nonce : string) (d : Depth) : string :=
  "nonce=" ++ nonce ++ newline
    ++ "  mined_in_block_index=" ++ repr_int (mined_in_block_index d) ++ newline
    ++ "  head_index=" ++ repr_int (head_index d) ++ newline
    ++ "  confirmations=" ++ repr_int (confirmations d).

Definition main (fuel : nat) (nonce : string) : M unit :=
  found <- check_depth fuel nonce ;;
  match found with
  | None => print (line_not_found nonce)
  | Some d => print (line_depth nonce d)
  end.

End Script.
End CheckTxDepth.

(* ===================================================================== *)
(** ** Concrete ledgers *)
(* ===================================================================== *)

Module Ledgers.

Definition ok {A} (j : A) : option (Response A) :=
  Some (mkResponse 200 (Some j)).
Definition not_found {A} : option (Response A) := Some (mkResponse 404 None).

Fixpoint lookup {V} (k : string) (l : list (string * V)) : option V :=
  match l with
  | [] => None
  | (k', v) :: rest => if String.eqb k k' then Some v else lookup k rest
  end.

(** The body that carries the digest [h] and the block record [b]. *)
Definition block_body (h : string) (b : Block) : BlockBody :=
  mkBlockBody (Value h) (Value (Rec b)).

(** [GET /block] and [GET /block?hash=] over a table of blocks; the hashes
    listed in [down] time out. *)
Definition serve_block (head : string) (store : list (string * Block))
    (down : list string) (hash : option string)
  : option (Response BlockBody) :=
  let h := match hash with
           | None => head
           | Some x => x
           end in
  if existsb (String.eqb h) down then None
  else match lookup h store with
       | Some b => ok (block_body h b)
       | None => not_found
       end.

(** A ledger nobody else writes to: the same chain at every read; no pool,
    no submissions. *)
Definition frozen (head : string) (store : list (string * Block))
    (down : list string) : Server := {|
  World := unit;
  srv_block := fun hash w => (w, serve_block head store down hash);
  srv_txpool := fun w => (w, None);
  srv_post := fun _ w => (w, None);
  srv_sleep := fun _ w => w
|}.

(** A ledger whose head moves: the world is the number of requests served,
    and [head_at] gives the head digest as a function of it. *)
Definition moving (head_at : nat -> string) (store : list (string * Block))
  : Server := {|
  World := nat;
  srv_block := fun hash w => (S w, serve_block (head_at w) store [] hash);
  srv_txpool := fun w => (S w, None);
  srv_post := fun _ w => (S w, None);
  srv_sleep := fun _ w => w
|}.

(** A ledger that plays a script: the pool replies and the submission
    replies are handed out in order, and a request past the end of its
    script times out.  The world is what is left of the two scripts. *)
Definition scripted (head : string) (store : list (string * Block))
  : Server := {|
  World := list (option (Response PoolBody)) * list (option Z);
  srv_block := fun hash w => (w, serve_block head store [] hash);
  srv_txpool := fun w =>
    match fst w with
    | [] => (w, None)
    | r :: rest => ((rest, snd w), r)
    end;
  srv_post := fun _ w =>
    match snd w with
    | [] => (w, None)
    | r :: rest => ((fst w, rest), r)
    end;
  srv_sleep := fun _ w => w
|}.

(** A ledger that accepts blocks.  The world is the chain, newest first;
    the digest of the block of index [i] is written ["h" ++ str(i)]; the pool
    is empty; a submitted block is accepted, with status 200, when its
    [prev_hash] is the digest of the head, and refused with status 400
    otherwise. *)
Definition digest_of (b : Block) : string := "h" ++ repr_int (blk_index b).

Definition accept (block : json) (w : list Block) : list Block * option Z :=
  match w, get_item "prev_hash" block, get_item "nice" block with
  | b :: _, Some (JStr prev), Some (JStr who) =>
      if String.eqb prev (digest_of b)
      then (mkBlock (blk_index b + 1) (Some prev) 0 [] (Some who) :: w,
            Some 200)
      else (w, Some 400)
  | _, _, _ => (w, Some 400)
  end.

Definition accepting : Server := {|
  World := list Block;
  srv_block := fun hash w =>
    (w, match hash with
        | None =>
            match w with
            | b :: _ => ok (block_body (digest_of b) b)
            | [] => not_found
            end
        | Some h =>
            match find (fun b => String.eqb (digest_of b) h) w with
            | Some b => ok (block_body h b)
            | None => not_found
            end
        end);
  srv_txpool := fun w =>
    (w, match w with
        | b :: _ => ok (mkPoolBody (Some (digest_of b)) [])
        | [] => None
        end);
  srv_post := accept;
  srv_sleep := fun _ w => w
|}.

Definition tx (src dst nonce : string) : Tx :=
  mkTx (Some src) (Some dst) (Some nonce).

Definition blk (i : Z) (prev : option string) (txs : list Tx) : Block :=
  mkBlock i prev 0 txs None.

Definition B0 := blk 0 None [].
Definition B1 := blk 1 (Some "h0") [].
Definition B2 :=
  blk 2 (Some "h1") [tx "alice" "bob" "n0"; tx "bob" "carol" "n1"].
Definition B3 := blk 3 (Some "h2") [].
Definition B4 := blk 4 (Some "h3") [tx "carol" "alice" "n2"].
Definition B5 := blk 5 (Some "h4") [].
Definition B6 := blk 6 (Some "h5") [tx "dave" "erin" "n9"].

Definition store6 : list (string * Block) :=
  [("h0", B0); ("h1", B1); ("h2", B2); ("h3", B3); ("h4", B4); ("h5", B5);
   ("h6", B6)].

(** Stand-ins for SHA-256 on which a search can be followed by hand: the
    first accepts exactly the block whose nonce is 3, the second none. *)
Definition digest_at_3 (s : string) : string :=
  match String.index 0 (String dquote "nonce" ++ String dquote ":3,") s with
  | Some _ => "0000a3"
  | None => "000fa3"
  end.

Definition digest_never (s : string) : string := "000fa3".

Definition pool (h : string) (txs : list Tx) : option (Response PoolBody) :=
  ok (mkPoolBody (Some h) txs).

End Ledgers.

(* ===================================================================== *)
(** ** Facts about the runtime slice *)
(* ===================================================================== *)

Module PyFacts.

(** Induction over JSON values that reaches inside lists and dicts. *)
Section JsonInd.
Variable P : json -> Prop.
Hypothesis Hnull : P JNull.
Hypothesis Hbool : forall b, P (JBool b).
Hypothesis Hint : forall n, P (JInt n).
Hypothesis Hstr : forall s, P (JStr s).
Hypothesis Hlist : forall l, Forall P l -> P (JList l).
Hypothesis Hdict : forall d, Forall (fun kv => P (snd kv)) d -> P (JDict d).

Fixpoint json_nested_ind (j : json) : P j :=
  match j with
  | JNull => Hnull
  | JBool b => Hbool b
  | JInt n => Hint n
  | JStr s => Hstr s
  | JList l =>
      Hlist l ((fix go (l : list json) : Forall P l :=
                  match l with
                  | [] => Forall_nil _
                  | x :: r => Forall_cons x (json_nested_ind x) (go r)
                  end) l)
  | JDict d =>
      Hdict d ((fix go (d : list (string * json))
                  : Forall (fun kv => P (snd kv)) d :=
                  match d with
                  | [] => Forall_nil _
                  | kv :: r =>
                      Forall_cons kv (json_nested_ind (snd kv)) (go r)
                  end) d)
  end.
End JsonInd.

(** *** [startswith] *)

Lemma prefix_get (p s : string) :
  String.prefix p s = true <->
  (forall i, (i < String.length p)%nat -> String.get i s = String.get i p).
Proof.
  revert s. induction p as [|a p IH]; intros s; simpl.
  - split; [intros _ i Hi; lia | intros _; destruct s; reflexivity].
  - destruct s as [|b s].
    + split; [discriminate|]. intros Hg.
      specialize (Hg 0%nat ltac:(lia)). discriminate.
    + simpl. destruct (ascii_dec a b) as [->|Hab].
      * rewrite IH. split; intros Hg i Hi.
        -- destruct i as [|i]; [reflexivity|]. simpl. apply Hg. lia.
        -- apply (Hg (S i)). lia.
      * split; [discriminate|]. intros Hg.
        specialize (Hg 0%nat ltac:(lia)). simpl in Hg. congruence.
Qed.

Lemma get_repeat_zero (n i : nat) :
  (i < n)%nat -> String.get i (str_repeat "0" n) = Some "0"%char.
Proof.
  revert i. induction n as [|n IH]; intros i Hi; [lia|].
  destruct i as [|i]; simpl; [reflexivity|]. apply IH. lia.
Qed.

Lemma length_repeat_zero (n : nat) : String.length (str_repeat "0" n) = n.
Proof. induction n; simpl; congruence. Qed.

(** *** Sorting the items of a dict *)

Definition key_lt {V : Type} (x y : string * V) : Prop :=
  String_as_OT.lt (fst x) (fst y).

Lemma key_lt_trans {V} (x y z : string * V) :
  key_lt x y -> key_lt y z -> key_lt x z.
Proof. unfold key_lt. intros. etransitivity; eassumption. Qed.

Lemma key_lt_irrefl {V} (x : string * V) : ~ key_lt x x.
Proof. unfold key_lt. apply irreflexivity. Qed.

Lemma key_le_true {V} (x y : string * V) :
  key_le (fst x) (fst y) = true -> fst x <> fst y -> key_lt x y.
Proof.
  unfold key_le, key_lt. intros Hle Hne.
  destruct (String_as_OT.compare_spec (fst x) (fst y)) as [E|L|G];
    [contradiction | exact L | discriminate].
Qed.

Lemma key_le_false {V} (x y : string * V) :
  key_le (fst x) (fst y) = false -> key_lt y x.
Proof.
  unfold key_le, key_lt. intros Hle.
  destruct (String_as_OT.compare_spec (fst x) (fst y)) as [E|L|G];
    [discriminate | discriminate | exact G].
Qed.

Lemma insert_item_perm {V} (x : string * V) (l : list (string * V)) :
  Permutation (x :: l) (insert_item x l).
Proof.
  induction l as [|y l IH]; simpl; [reflexivity|].
  destruct (key_le (fst x) (fst y)); [reflexivity|].
  rewrite perm_swap. now apply perm_skip.
Qed.

Lemma sort_items_perm {V} (l : list (string * V)) :
  Permutation l (sort_items l).
Proof.
  induction l as [|x l IH]; simpl; [reflexivity|].
  rewrite <- insert_item_perm. now apply perm_skip.
Qed.

Lemma insert_item_sorted {V} (x : string * V) (l : list (string * V)) :
  StronglySorted key_lt l ->
  ~ In (fst x) (map fst l) ->
  StronglySorted key_lt (insert_item x l).
Proof.
  induction l as [|y l IH]; intros Hs Hx; simpl.
  - repeat constructor.
  - inversion Hs as [|? ? Hs' Hall]; subst.
    destruct (key_le (fst x) (fst y)) eqn:Hle.
    + assert (Hxy : key_lt x y).
      { apply key_le_true; [exact Hle|]. intros E. apply Hx. simpl. auto. }
      constructor; [exact Hs|]. constructor; [exact Hxy|].
      eapply Forall_impl; [|exact Hall]. intros z Hz.
      eapply key_lt_trans; eassumption.
    + constructor.
      * apply IH; [exact Hs'|]. intros Hin. apply Hx. simpl. auto.
      * eapply Permutation_Forall; [apply insert_item_perm|].
        constructor; [now apply key_le_false | exact Hall].
Qed.

Lemma sort_items_sorted {V} (l : list (string * V)) :
  NoDup (map fst l) -> StronglySorted key_lt (sort_items l).
Proof.
  induction l as [|x l IH]; intros Hnd; simpl; [constructor|].
  inversion Hnd as [|? ? Hx Hnd']; subst.
  apply insert_item_sorted; [now apply IH|].
  intros Hin. apply Hx.
  eapply Permutation_in; [|exact Hin].
  apply Permutation_map. symmetry. apply sort_items_perm.
Qed.

Lemma sorted_perm_eq {V} (l1 l2 : list (string * V)) :
  StronglySorted key_lt l1 -> StronglySorted key_lt l2 ->
  Permutation l1 l2 -> l1 = l2.
Proof.
  revert l2. induction l1 as [|a l1 IH]; intros l2 H1 H2 Hp.
  - apply Permutation_nil in Hp. now subst.
  - destruct l2 as [|b l2].
    + symmetry in Hp. apply Permutation_nil in Hp. discriminate.
    + inversion H1 as [|? ? H1' A1]; subst.
      inversion H2 as [|? ? H2' A2]; subst.
      assert (Hab : a = b).
      { assert (Ia : In a (b :: l2))
          by (eapply Permutation_in; [exact Hp | now left]).
        assert (Ib : In b (a :: l1))
          by (eapply Permutation_in; [symmetry; exact Hp | now left]).
        destruct Ia as [E|Ia]; [now subst|].
        destruct Ib as [E|Ib]; [now subst|].
        rewrite Forall_forall in A1, A2.
        exfalso. apply (key_lt_irrefl a).
        eapply key_lt_trans; [apply A1|apply A2]; assumption. }
      subst b. f_equal. apply IH; try assumption.
      eapply Permutation_cons_inv; exact Hp.
Qed.

Lemma sort_items_perm_eq {V} (l1 l2 : list (string * V)) :
  NoDup (map fst l1) -> Permutation l1 l2 -> sort_items l1 = sort_items l2.
Proof.
  intros Hnd Hp. apply sorted_perm_eq.
  - now apply sort_items_sorted.
  - apply sort_items_sorted.
    eapply Permutation_NoDup; [|exact Hnd]. now apply Permutation_map.
  - rewrite <- (sort_items_perm l1), <- (sort_items_perm l2). exact Hp.
Qed.

(** *** Dicts *)

Lemma distinct_keys_NoDup (ks : list string) :
  distinct_keys ks = true -> NoDup ks.
Proof.
  induction ks as [|k ks IH]; simpl; intros Hd; [constructor|].
  apply andb_prop in Hd. destruct Hd as [Hk Hd].
  constructor; [|now apply IH].
  intros Hin. apply negb_true_iff in Hk.
  assert (existsb (String.eqb k) ks = true); [|congruence].
  apply existsb_exists. exists k. split; [exact Hin | apply String.eqb_refl].
Qed.

Lemma dict_get_In (k : string) (d : list (string * json)) (v : json) :
  dict_get k d = Some v -> In (k, v) d.
Proof.
  induction d as [|[k' v'] d IH]; simpl; [discriminate|].
  destruct (String.eqb_spec k k') as [->|Hne].
  - intros [= ->]. now left.
  - intros Hg. right. now apply IH.
Qed.

Lemma NoDup_keys_items {V} (d : list (string * V)) :
  NoDup (map fst d) -> NoDup d.
Proof.
  induction d as [|x d IH]; simpl; intros Hnd; [constructor|].
  inversion Hnd as [|? ? Hx Hnd']; subst.
  constructor; [|now apply IH].
  intros Hin. apply Hx. now apply in_map.
Qed.

Definition rendered (d : list (string * json)) : list (string * string) :=
  map (fun kv => (fst kv, dumps (snd kv))) d.

Lemma rendered_keys (d : list (string * json)) :
  map fst (rendered d) = map fst d.
Proof. unfold rendered. rewrite map_map. reflexivity. Qed.

Lemma wf_dict_inv (d : list (string * json)) :
  wf (JDict d) = true ->
  NoDup (map fst d) /\ forall k v, In (k, v) d -> wf v = true.
Proof.
  simpl. intros Hw. apply andb_prop in Hw. destruct Hw as [Hk Hv].
  split; [now apply distinct_keys_NoDup|].
  intros k v Hin. rewrite forallb_forall in Hv. exact (Hv _ Hin).
Qed.

(** Values of the same content are rendered to the same text. *)
Lemma same_content_dumps (a : json) :
  forall b, wf a = true -> wf b = true -> same_content a b = true ->
            dumps a = dumps b.
Proof.
  induction a as [| x | x | x | l1 IH | d1 IH] using json_nested_ind;
    intros b Wa Wb Hs; destruct b as [| y | y | y | l2 | d2];
    simpl in Hs; try discriminate.
  - reflexivity.
  - apply Bool.eqb_prop in Hs. now subst.
  - apply Z.eqb_eq in Hs. now subst.
  - apply String.eqb_eq in Hs. now subst.
  - simpl. f_equal. f_equal. f_equal.
    simpl in Wa, Wb. revert l2 Wb Hs.
    induction IH as [|x l1 Hx _ IHl]; intros [|y l2] Wb Hs;
      try discriminate; [reflexivity|].
    simpl in Wa, Wb.
    apply andb_prop in Wa, Wb, Hs.
    destruct Wa as [Wx Wl], Wb as [Wy Wl2], Hs as [Hxy Hs].
    simpl. f_equal; [now apply Hx | now apply IHl].
  - apply andb_prop in Hs. destruct Hs as [Hlen Hall].
    apply Nat.eqb_eq in Hlen.
    destruct (wf_dict_inv _ Wa) as [N1 V1].
    destruct (wf_dict_inv _ Wb) as [N2 V2].
    assert (Hp : Permutation (rendered d1) (rendered d2)).
    { apply NoDup_Permutation_bis.
      - apply NoDup_keys_items. now rewrite rendered_keys.
      - unfold rendered. rewrite !length_map. lia.
      - intros [k s] Hin. unfold rendered in Hin.
        apply in_map_iff in Hin. destruct Hin as [[k1 v1] [E Hin]].
        simpl in E. injection E as <- <-.
        rewrite forallb_forall in Hall. specialize (Hall _ Hin).
        simpl in Hall.
        destruct (dict_get k1 d2) as [v2|] eqn:Hg; [|discriminate].
        apply dict_get_In in Hg.
        rewrite Forall_forall in IH.
        assert (E : dumps v1 = dumps v2).
        { apply (IH _ Hin v2);
            [now apply (V1 k1) | now apply (V2 k1) | exact Hall]. }
        rewrite E.
        unfold rendered. apply in_map_iff. exists (k1, v2). now split. }
    change (dumps (JDict d1))
      with ("{" ++ join "," (map member (sort_items (rendered d1))) ++ "}").
    change (dumps (JDict d2))
      with ("{" ++ join "," (map member (sort_items (rendered d2))) ++ "}").
    rewrite (sort_items_perm_eq (rendered d1) (rendered d2));
      [reflexivity | now rewrite rendered_keys | exact Hp].
Qed.

End PyFacts.

(* ===================================================================== *)
(** ** Facts about the monad *)
(* ===================================================================== *)

Module NetFacts.

Section Facts.
Context `{Server}.

Lemma bind_inv {A B} (m : M A) (k : A -> M B) w r w' tr :
  bind m k w = (r, w', tr) ->
  (exists a w1 t1 t2,
      m w = (Return a, w1, t1) /\ k a w1 = (r, w', t2) /\ tr = (t1 ++ t2)%list)
  \/ (exists e, m w = (Raise e, w', tr) /\ r = Raise e)
  \/ (m w = (OutOfFuel, w', tr) /\ r = OutOfFuel).
Proof.
  unfold bind. destruct (m w) as [[[a|e|] w1] t1].
  - destruct (k a w1) as [[r2 w2] t2] eqn:Hk. intros [= <- <- <-].
    left. exists a, w1, t1, t2. auto.
  - intros [= <- <- <-]. right. left. exists e. auto.
  - intros [= <- <- <-]. right. right. auto.
Qed.

Lemma while_S {S A} (fuel : nat) (body : S -> M (Flow S A)) (s : S) :
  while (Datatypes.S fuel) body s
  = bind (body s) (fun f => match f with
                            | Continue s' => while fuel body s'
                            | Break a => ret a
                            end).
Proof. reflexivity. Qed.

(** Every event a computation performs satisfies [P]. *)
Definition emits {A} (P : Event -> Prop) (m : M A) : Prop :=
  forall w r w' tr, m w = (r, w', tr) -> Forall P tr.

Lemma emits_ret {A} P (a : A) : emits P (ret a).
Proof. intros w r w' tr [= <- <- <-]. constructor. Qed.

Lemma emits_raise {A} P e : emits P (@raise _ A e).
Proof. intros w r w' tr [= <- <- <-]. constructor. Qed.

Lemma emits_bind {A B} P (m : M A) (k : A -> M B) :
  emits P m -> (forall a, emits P (k a)) -> emits P (bind m k).
Proof.
  intros Hm Hk w r w' tr Hb.
  apply bind_inv in Hb.
  destruct Hb as [(a & w1 & t1 & t2 & H1 & H2 & ->)
                 | [(e & H1 & _) | (H1 & _)]].
  - apply Forall_app. split; [exact (Hm _ _ _ _ H1) | exact (Hk _ _ _ _ _ H2)].
  - exact (Hm _ _ _ _ H1).
  - exact (Hm _ _ _ _ H1).
Qed.

Lemma emits_try {A} P (m h : M A) :
  emits P m -> emits P h -> emits P (try_except m h).
Proof.
  intros Hm Hh w r w' tr. unfold try_except.
  destruct (m w) as [[[a|e|] w1] t1] eqn:E.
  - intros [= <- <- <-]. exact (Hm _ _ _ _ E).
  - destruct (h w1) as [[r2 w2] t2] eqn:E2. intros [= <- <- <-].
    apply Forall_app. split; [exact (Hm _ _ _ _ E) | exact (Hh _ _ _ _ E2)].
  - intros [= <- <- <-]. exact (Hm _ _ _ _ E).
Qed.

Lemma emits_while {S A} P (body : S -> M (Flow S A)) :
  (forall s, emits P (body s)) -> forall fuel s, emits P (while fuel body s).
Proof.
  intros Hb fuel. induction fuel as [|fuel IH]; intros s; simpl.
  - intros w r w' tr [= <- <- <-]. constructor.
  - apply emits_bind; [apply Hb|]. intros [s'|a]; [apply IH | apply emits_ret].
Qed.

Lemma emits_raise_for_status {A} P (r : Response A) :
  emits P (raise_for_status r).
Proof.
  unfold raise_for_status.
  destruct ((400 <=? status_code r) && (status_code r <? 600));
    [apply emits_raise | apply emits_ret].
Qed.

Lemma emits_json_of {A} P (r : Response A) : emits P (json_of r).
Proof.
  unfold json_of. destruct (body r); [apply emits_ret | apply emits_raise].
Qed.

Lemma emits_subscript {A} P (x : Field A) : emits P (subscript x).
Proof. destruct x; [apply emits_raise | apply emits_ret | apply emits_ret]. Qed.

Lemma emits_index P (blk : option Dict) : emits P (index blk).
Proof.
  destruct blk as [[|b]|]; [apply emits_raise | apply emits_ret
                           | apply emits_raise].
Qed.

Lemma emits_print P line : P (Print line) -> emits P (print line).
Proof.
  intros HP w r w' tr [= <- <- <-]. constructor; [exact HP|constructor].
Qed.

(** What [http_get] makes of a reply, and what [r.json()] makes of that. *)
Definition bad_status (status : Z) : bool :=
  (400 <=? status) && (status <? 600).

Definition checked {A} (reply : option (Response A)) : Outcome (Response A) :=
  match reply with
  | None => Raise RequestException
  | Some r => if bad_status (status_code r) then Raise HTTPError else Return r
  end.

Definition parsed {A} (reply : option (Response A)) : Outcome A :=
  match checked reply with
  | Return r =>
      match body r with
      | Some j => Return j
      | None => Raise JSONDecodeError
      end
  | Raise e => Raise e
  | OutOfFuel => OutOfFuel
  end.

Lemma http_get_block_run (hash : option string) (w : World) :
  CheckTxDepth.http_get (BlockAt hash) w
  = (checked (snd (srv_block hash w)), fst (srv_block hash w),
     [GetBlock hash (snd (srv_block hash w))]).
Proof.
  unfold CheckTxDepth.http_get, bind, raise_for_status, checked, bad_status.
  simpl. destruct (srv_block hash w) as [w1 [r|]]; simpl; [|reflexivity].
  destruct ((400 <=? status_code r) && (status_code r <? 600));
    reflexivity.
Qed.

Lemma http_get_txpool_run (w : World) :
  CheckTxDepth.http_get Txpool w
  = (checked (snd (srv_txpool w)), fst (srv_txpool w),
     [GetTxpool (snd (srv_txpool w))]).
Proof.
  unfold CheckTxDepth.http_get, bind, raise_for_status, checked, bad_status.
  simpl. destruct (srv_txpool w) as [w1 [r|]]; simpl; [|reflexivity].
  destruct ((400 <=? status_code r) && (status_code r <? 600));
    reflexivity.
Qed.

End Facts.

(** The two scripts carry the same text for the shared helpers. *)
Lemma http_get_same `{Server} A :
  @MineFast.http_get _ A = @CheckTxDepth.http_get _ A.
Proof. reflexivity. Qed.

Lemma get_head_same `{Server} : MineFast.get_head = CheckTxDepth.get_head.
Proof. reflexivity. Qed.

Lemma get_chain_from_head_same `{Server} :
  MineFast.get_chain_from_head = CheckTxDepth.get_chain_from_head.
Proof. reflexivity. Qed.

End NetFacts.

(* ===================================================================== *)
(** ** The chain reader *)
(* ===================================================================== *)

Module ChainReader.
Import NetFacts.

Section Walk.
Context `{Server}.

(** How a backward traversal ends: at a block without [prev_hash], or at a
    fetch that fails. *)
Inductive Ending : Type := AtGenesis | AtFailedFetch.

(** A backward fetch that fails or comes back empty: [requests] raised,
    [raise_for_status] raised, or the body carries no block (the key is
    missing, or it holds null or [{}]). *)
Definition fetch_fails (reply : option (Response BlockBody)) : Prop :=
  match reply with
  | None => True
  | Some r =>
      bad_status (status_code r) = true
      \/ (bad_status (status_code r) = false
          /\ exists j,
              body r = Some j /\ falsy (field_get (bb_block j)) = true)
  end.

(** [walk w cur older e]: from world [w], following [cur] backwards, the
    service hands out the blocks [older] (newest first) one fetch after the
    other, and then the traversal ends as [e] says. *)
Inductive walk : World -> option string -> list Block -> Ending -> Prop :=
| walk_genesis w cur :
    truthy cur = false ->
    walk w cur [] AtGenesis
| walk_failed w cur :
    truthy cur = true ->
    fetch_fails (snd (srv_block cur w)) ->
    walk w cur [] AtFailedFetch
| walk_step w cur r j blk older e :
    truthy cur = true ->
    snd (srv_block cur w) = Some r ->
    bad_status (status_code r) = false ->
    body r = Some j ->
    bb_block j = Value (Rec blk) ->
    walk (fst (srv_block cur w)) (blk_prev_hash blk) older e ->
    walk w cur (blk :: older) e.

(** [serves w chain e]: read from world [w], the head is the last element
    of [chain] (oldest first) and the blocks before it are what the backward
    traversal meets until it ends as [e] says. *)
Definition serves (w : World) (chain : list Dict) (e : Ending) : Prop :=
  exists r hash head older,
    chain = (map Rec (rev older) ++ [head])%list
    /\ snd (srv_block None w) = Some r
    /\ bad_status (status_code r) = false
    /\ body r = Some (mkBlockBody hash (Value head))
    /\ hash <> Missing
    /\ walk (fst (srv_block None w)) (get_prev_hash head) older e.

(** The blocks [B0 .. Bn] carry the indices [0 .. n]. *)
Definition indexed_from_genesis (chain : list Block) : Prop :=
  map blk_index chain = map Z.of_nat (seq 0 (List.length chain)).

(** The body of the [while current_hash:] loop. *)
Definition walk_body (st : list Dict * option string)
  : M (Flow (list Dict * option string) (list Dict)) :=
  let '(chain, current_hash) := st in
  if truthy current_hash then
    fetched <- try_except (r <- CheckTxDepth.http_get (BlockAt current_hash) ;;
                           ret (Some r))
                          (ret None) ;;
    match fetched with
    | None => ret (Break chain)
    | Some r =>
        j <- json_of r ;;
        match field_get (bb_block j) with
        | None | Some Empty => ret (Break chain)
        | Some blk =>
            ret (Continue ((chain ++ [blk])%list, get_prev_hash blk))
        end
    end
  else ret (Break chain).

Lemma get_chain_from_head_unfold (fuel : nat) :
  CheckTxDepth.get_chain_from_head fuel
  = ('(head_hash, head_block) <- CheckTxDepth.get_head ;;
     match head_block with
     | None => raise AttributeError
     | Some head_block =>
         chain <- while fuel walk_body
                    ([head_block], get_prev_hash head_block) ;;
         ret (rev chain)
     end).
Proof. reflexivity. Qed.

Lemma walk_body_genesis chain cur w :
  truthy cur = false ->
  walk_body (chain, cur) w = (Return (Break chain), w, []).
Proof. intros Ht. unfold walk_body. rewrite Ht. reflexivity. Qed.

Lemma walk_body_failed chain cur w :
  truthy cur = true ->
  fetch_fails (snd (srv_block cur w)) ->
  walk_body (chain, cur) w
  = (Return (Break chain), fst (srv_block cur w),
     [GetBlock cur (snd (srv_block cur w))]).
Proof.
  intros Ht Hf. unfold walk_body. rewrite Ht.
  unfold bind at 1. unfold try_except. unfold bind at 1.
  rewrite http_get_block_run. unfold checked, fetch_fails in *.
  destruct (srv_block cur w) as [w1 [r|]]; simpl in *; [|reflexivity].
  destruct Hf as [Hb | (Hb & j & Hj & Hn)]; rewrite Hb; simpl; [reflexivity|].
  unfold bind, json_of. rewrite Hj. simpl.
  destruct (field_get (bb_block j)) as [[|b]|]; [reflexivity | | reflexivity].
  discriminate.
Qed.

Lemma walk_body_step chain cur w r j blk :
  truthy cur = true ->
  snd (srv_block cur w) = Some r ->
  bad_status (status_code r) = false ->
  body r = Some j ->
  bb_block j = Value (Rec blk) ->
  walk_body (chain, cur) w
  = (Return (Continue ((chain ++ [Rec blk])%list, blk_prev_hash blk)),
     fst (srv_block cur w), [GetBlock cur (Some r)]).
Proof.
  intros Ht Hr Hb Hj Hk. unfold walk_body. rewrite Ht.
  unfold bind at 1. unfold try_except. unfold bind at 1.
  rewrite http_get_block_run. unfold checked. rewrite Hr, Hb. simpl.
  unfold bind, json_of. rewrite Hj. simpl. rewrite Hk. reflexivity.
Qed.

(** With enough fuel the loop returns the blocks the walk hands out. *)
Lemma while_walk w cur older e :
  walk w cur older e ->
  forall fuel chain, (List.length older < fuel)%nat ->
  exists w' tr,
    while fuel walk_body (chain, cur) w
      = (Return (chain ++ map Rec older)%list, w', tr)
    /\ Forall (fun ev => exists h reply, ev = GetBlock h reply) tr.
Proof.
  induction 1 as [w cur Ht | w cur Ht Hf
                 | w cur r j blk older e Ht Hr Hb Hj Hk Hw IH];
    intros fuel chain Hfuel; (destruct fuel as [|fuel]; [simpl in Hfuel; lia|]).
  - exists w, []. rewrite while_S. unfold bind.
    rewrite walk_body_genesis by exact Ht.
    simpl. rewrite app_nil_r. split; [reflexivity | constructor].
  - eexists _, _. rewrite while_S. unfold bind.
    rewrite walk_body_failed by assumption. simpl. rewrite app_nil_r.
    split; [reflexivity|]. repeat constructor. eauto.
  - simpl in Hfuel.
    destruct (IH fuel (chain ++ [Rec blk])%list ltac:(lia))
      as (w' & tr & Hrun & Hev).
    eexists _, _. rewrite while_S. unfold bind.
    rewrite (walk_body_step chain cur w r j blk) by assumption.
    rewrite Hrun. rewrite <- app_assoc. simpl.
    split; [reflexivity|]. constructor; [eauto | exact Hev].
Qed.

Lemma get_head_run (w : World) r hash head :
  snd (srv_block None w) = Some r ->
  bad_status (status_code r) = false ->
  body r = Some (mkBlockBody hash (Value head)) ->
  hash <> Missing ->
  CheckTxDepth.get_head w
  = (Return (field_get hash, Some head), fst (srv_block None w),
     [GetBlock None (Some r)]).
Proof.
  intros Hr Hb Hj Hh. unfold CheckTxDepth.get_head.
  unfold bind at 1. rewrite http_get_block_run. unfold checked.
  rewrite Hr, Hb. unfold bind, json_of. rewrite Hj.
  destruct hash; [contradiction | reflexivity | reflexivity].
Qed.

Lemma served_chain_returned (w : World) (chain : list Dict) (e : Ending) :
  serves w chain e ->
  forall fuel, (List.length chain <= fuel)%nat ->
  exists w' tr,
    CheckTxDepth.get_chain_from_head fuel w = (Return chain, w', tr).
Proof.
  intros (r & hash & head & older & -> & Hr & Hb & Hj & Hh & Hw) fuel Hfuel.
  rewrite length_app, length_map, length_rev in Hfuel. simpl in Hfuel.
  destruct (while_walk _ _ _ _ Hw fuel [head] ltac:(lia))
    as (w' & tr & Hrun & _).
  rewrite get_chain_from_head_unfold. unfold bind at 1.
  rewrite (get_head_run w r hash head) by assumption.
  unfold bind. rewrite Hrun. simpl. rewrite map_rev. eauto.
Qed.

Lemma seq_sorted (n k : nat) : StronglySorted Z.lt (map Z.of_nat (seq k n)).
Proof.
  revert k. induction n as [|n IH]; intros k; simpl; constructor.
  - apply IH.
  - apply Forall_forall. intros z Hz. apply in_map_iff in Hz.
    destruct Hz as (i & <- & Hin). apply in_seq in Hin. lia.
Qed.

Lemma indexed_ascending (chain : list Block) :
  indexed_from_genesis chain ->
  StronglySorted Z.lt (map blk_index chain) /\ NoDup chain.
Proof.
  unfold indexed_from_genesis. intros Hi.
  assert (Hs : StronglySorted Z.lt (map blk_index chain)).
  { rewrite Hi. apply seq_sorted. }
  split; [exact Hs|].
  clear Hi. induction chain as [|b chain IH]; [constructor|].
  simpl in Hs. inversion Hs as [|? ? Hs' Hall]; subst.
  constructor; [|now apply IH].
  intros Hin. rewrite Forall_forall in Hall.
  specialize (Hall (blk_index b) (in_map _ _ _ Hin)). lia.
Qed.

Lemma NoDup_records (chain : list Block) : NoDup chain -> NoDup (map Rec chain).
Proof.
  induction 1 as [|b chain Hnin Hnd IH]; simpl; constructor; [|exact IH].
  intros Hin. apply in_map_iff in Hin. destruct Hin as (b' & [= ->] & Hin).
  contradiction.
Qed.

End Walk.
End ChainReader.

(* ===================================================================== *)
(** ** The confirmation auditor *)
(* ===================================================================== *)

Module Auditor.
Import NetFacts ChainReader.

(** [blk] holds a transaction carrying [nonce]. *)
Definition mentions (nonce : string) (blk : Dict) : bool :=
  existsb (fun tx => opt_str_eqb (tx_nonce tx) (Some nonce)) (get_txs blk).

(** The index of the first block of [chain] that holds [nonce]. *)
Fixpoint located (nonce : string) (chain : list Dict) : option Z :=
  match chain with
  | [] => None
  | Empty :: rest => located nonce rest
  | Rec b :: rest =>
      if mentions nonce (Rec b) then Some (blk_index b)
      else located nonce rest
  end.

Section Scan.
Context `{Server}.

Lemma scan_txs_run (nonce : string) (b : Block) (txs : list Tx) (w : World) :
  CheckTxDepth.scan_txs nonce (Rec b) txs w
  = (Return (if existsb (fun tx => opt_str_eqb (tx_nonce tx) (Some nonce)) txs
             then Some (blk_index b) else None), w, []).
Proof.
  induction txs as [|tx txs IH]; simpl; [reflexivity|].
  destruct (opt_str_eqb (tx_nonce tx) (Some nonce)); [reflexivity | exact IH].
Qed.

(** The two loops of [main] raise nothing: [blk["index"]] is only evaluated
    on a block that has a transaction, and [{}] has none. *)
Lemma scan_chain_run (nonce : string) (chain : list Dict) (w : World) :
  CheckTxDepth.scan_chain nonce chain w = (Return (located nonce chain), w, []).
Proof.
  induction chain as [|[|b] chain IH]; simpl; [reflexivity | |].
  - unfold bind. simpl. rewrite IH. reflexivity.
  - unfold bind. rewrite scan_txs_run. unfold mentions. simpl.
    destruct (existsb (fun tx => opt_str_eqb (tx_nonce tx) (Some nonce))
                (blk_txs b)); [reflexivity|].
    rewrite IH. reflexivity.
Qed.

End Scan.

Lemma located_first (nonce : string) (pre : list Dict) (blk : Block)
    (post : list Dict) :
  forallb (fun b => negb (mentions nonce b)) pre = true ->
  mentions nonce (Rec blk) = true ->
  located nonce (pre ++ Rec blk :: post) = Some (blk_index blk).
Proof.
  intros Hpre Hblk. induction pre as [|b pre IH]; simpl.
  - now rewrite Hblk.
  - simpl in Hpre. apply andb_prop in Hpre. destruct Hpre as [Hb Hpre].
    apply negb_true_iff in Hb. destruct b as [|b]; [now apply IH|].
    rewrite Hb. now apply IH.
Qed.

Lemma located_none (nonce : string) (chain : list Dict) :
  existsb (mentions nonce) chain = false ->
  located nonce chain = None.
Proof.
  induction chain as [|b chain IH]; simpl; [reflexivity|].
  intros Hex. apply orb_false_elim in Hex. destruct Hex as [Hb Hex].
  destruct b as [|b]; [now apply IH|]. rewrite Hb. now apply IH.
Qed.

Lemma located_some (nonce : string) (chain : list Dict) (i : Z) :
  located nonce chain = Some i ->
  exists pre blk post,
    chain = (pre ++ Rec blk :: post)%list
    /\ existsb (mentions nonce) pre = false
    /\ mentions nonce (Rec blk) = true
    /\ i = blk_index blk.
Proof.
  induction chain as [|b chain IH]; simpl; [discriminate|].
  destruct b as [|b].
  - intros Hs. destruct (IH Hs) as (pre & blk & post & -> & Hpre & Hblk & ->).
    exists (Empty :: pre), blk, post. auto.
  - destruct (mentions nonce (Rec b)) eqn:Hb.
    + intros [= <-]. exists [], b, chain. auto.
    + intros Hs.
      destruct (IH Hs) as (pre & blk & post & -> & Hpre & Hblk & ->).
      exists (Rec b :: pre), blk, post. simpl. rewrite Hb. auto.
Qed.

Lemma sorted_suffix (l1 l2 : list Z) :
  StronglySorted Z.lt (l1 ++ l2) -> StronglySorted Z.lt l2.
Proof.
  induction l1 as [|a l1 IH]; simpl; intros Hs; [exact Hs|].
  inversion Hs; subst. now apply IH.
Qed.

Lemma sorted_before_last (pre post init : list Block) (blk head : Block) :
  (pre ++ blk :: post = init ++ [head])%list ->
  StronglySorted Z.lt (map blk_index (pre ++ blk :: post)) ->
  blk_index blk <= blk_index head.
Proof.
  intros E Hs.
  assert (Hin : In head (blk :: post)).
  { assert (Hh : In head (pre ++ blk :: post))
      by (rewrite E; apply in_or_app; right; now left).
    destruct post as [|p post'] using rev_ind.
    - apply app_inj_tail in E. destruct E as [_ <-]. now left.
    - clear IHpost'.
      change (pre ++ blk :: post' ++ [p])%list
        with (pre ++ (blk :: post') ++ [p])%list in E.
      rewrite app_assoc in E. apply app_inj_tail in E.
      destruct E as [_ <-]. right. apply in_or_app. right. now left. }
  rewrite map_app in Hs. apply sorted_suffix in Hs. simpl in Hs.
  inversion Hs as [|? ? _ Hall]; subst.
  destruct Hin as [<-|Hin]; [lia|].
  rewrite Forall_forall in Hall.
  specialize (Hall (blk_index head) (in_map _ _ _ Hin)). lia.
Qed.

(** Records are told apart by [Rec]. *)
Lemma map_Rec_split (blocks : list Block) (pre post : list Dict) (blk : Block) :
  map Rec blocks = (pre ++ Rec blk :: post)%list ->
  exists pre' post',
    blocks = (pre' ++ blk :: post')%list
    /\ pre = map Rec pre' /\ post = map Rec post'.
Proof.
  revert pre. induction blocks as [|b blocks IH]; intros pre E.
  - destruct pre; discriminate.
  - destruct pre as [|p pre]; simpl in E.
    + injection E as -> <-. exists [], blocks. auto.
    + injection E as <- E. destruct (IH _ E) as (pre' & post' & -> & -> & ->).
      exists (b :: pre'), post'. auto.
Qed.

End Auditor.

(* ===================================================================== *)
(** ** The miner *)
(* ===================================================================== *)

Module Miner.
Import NetFacts.

(** A request that met a network fault: [requests] raised. *)
Definition faulted (e : Event) : bool :=
  match e with
  | GetBlock _ None => true
  | GetTxpool None => true
  | PostBlock _ None => true
  | _ => false
  end.

Definition is_txpool (e : Event) : bool :=
  match e with
  | GetTxpool _ => true
  | _ => false
  end.

Definition is_post (e : Event) : bool :=
  match e with
  | PostBlock _ _ => true
  | _ => false
  end.

(** What [get_txpool] returns on a reply. *)
Definition pool_view (reply : option (Response PoolBody))
  : Outcome (option string * list Tx) :=
  match parsed reply with
  | Return j => Return (pb_hash j, pb_txs j)
  | Raise e => Raise e
  | OutOfFuel => OutOfFuel
  end.

(** What lines 86-87 make of the reply to the parent fetch: the block
    record whose index is read, or the exception of the request, of
    [r.json()], of [["block"]] or of [["index"]]. *)
Definition parent_view (reply : option (Response BlockBody)) : Outcome Block :=
  match parsed reply with
  | Return j =>
      match bb_block j with
      | Missing => Raise KeyError
      | Null => Raise TypeError
      | Value Empty => Raise KeyError
      | Value (Rec b) => Return b
      end
  | Raise e => Raise e
  | OutOfFuel => OutOfFuel
  end.

(** The head digest a pool read reports, when it reports one. *)
Definition reported_head (e : Event) : option (option string) :=
  match e with
  | GetTxpool reply =>
      match pool_view reply with
      | Return (h, _) => Some h
      | _ => None
      end
  | _ => None
  end.

(** The transactions a pool read reports, when it reports them. *)
Definition reported_txs (e : Event) : option (list Tx) :=
  match e with
  | GetTxpool reply =>
      match pool_view reply with
      | Return (_, txs) => Some txs
      | _ => None
      end
  | _ => None
  end.

(** A pool read that reports a head digest other than [base]. *)
Definition stale (base : option string) (e : Event) : bool :=
  match reported_head e with
  | Some h => negb (opt_str_eqb h base)
  | None => false
  end.

(** The transaction names [who] as its source or as its destination. *)
Definition references (who : string) (tx : Tx) : Prop :=
  tx_src tx = Some who \/ tx_dst tx = Some who.

Lemma opt_str_eqb_eq (a : option string) (s : string) :
  opt_str_eqb a (Some s) = true <-> a = Some s.
Proof.
  destruct a as [x|]; simpl.
  - rewrite String.eqb_eq. split; [now intros -> | now intros [= ->]].
  - split; discriminate.
Qed.

(** The check of line 80 is the policy: it is true of a snapshot exactly
    when one of its transactions references [who]. *)
Lemma touches_who_references (who : string) (txs : list Tx) :
  MineFast.touches_who who txs = true
  <-> exists tx, In tx txs /\ references who tx.
Proof.
  unfold MineFast.touches_who, references. rewrite existsb_exists.
  split; intros (tx & Hin & Htx); exists tx; (split; [exact Hin|]).
  - apply orb_prop in Htx. now rewrite !opt_str_eqb_eq in Htx.
  - apply orb_true_intro. now rewrite !opt_str_eqb_eq.
Qed.

Lemma clean_snapshot (who : string) (txs : list Tx) :
  MineFast.touches_who who txs = false
  <-> forall tx, In tx txs -> ~ references who tx.
Proof.
  split.
  - intros Hclean tx Hin Htx.
    assert (Ht : MineFast.touches_who who txs = true)
      by (apply touches_who_references; eauto).
    congruence.
  - intros Hnone.
    destruct (MineFast.touches_who who txs) eqn:Ht; [|reflexivity].
    apply touches_who_references in Ht. destruct Ht as (tx & Hin & Htx).
    now destruct (Hnone tx Hin).
Qed.

(** The block carries the marker [who] and an empty transaction list. *)
Definition marked_empty (who : string) (block : json) : Prop :=
  get_item "txs" block = Some (JList [])
  /\ get_item "nice" block = Some (JStr who).

Lemma dict_set_twice k v v' d :
  dict_set k v (dict_set k v' d) = dict_set k v d.
Proof.
  induction d as [|[k' x] d IH]; simpl.
  - now rewrite String.eqb_refl.
  - destruct (String.eqb k k') eqn:E; simpl; rewrite E; [reflexivity|].
    now rewrite IH.
Qed.

Lemma set_item_twice k v v' j :
  set_item k v (set_item k v' j) = set_item k v j.
Proof. destruct j; simpl; try reflexivity. now rewrite dict_set_twice. Qed.

Lemma parsed_fuel {A} (reply : option (Response A)) : parsed reply <> OutOfFuel.
Proof.
  unfold parsed, checked. destruct reply as [r|]; [|discriminate].
  destruct (bad_status (status_code r)); [discriminate|].
  destruct (body r); discriminate.
Qed.

Lemma pool_view_fuel reply : pool_view reply <> OutOfFuel.
Proof.
  unfold pool_view. pose proof (parsed_fuel reply).
  destruct (parsed reply); congruence.
Qed.

Lemma parent_view_fuel reply : parent_view reply <> OutOfFuel.
Proof.
  unfold parent_view. pose proof (parsed_fuel reply).
  destruct (parsed reply) as [j| |]; try congruence.
  destruct (bb_block j) as [| |[|b]]; discriminate.
Qed.

Lemma pool_view_fault reply e :
  pool_view reply = Raise e -> faulted (GetTxpool reply) = true ->
  e = RequestException.
Proof.
  destruct reply as [r|]; simpl; [discriminate|].
  unfold pool_view, parsed, checked. now intros [= <-].
Qed.

Lemma pool_view_return reply v :
  pool_view reply = Return v -> faulted (GetTxpool reply) = false.
Proof. destruct reply as [r|]; [reflexivity | discriminate]. Qed.

Lemma parent_view_fault hash reply e :
  parent_view reply = Raise e -> faulted (GetBlock hash reply) = true ->
  e = RequestException.
Proof.
  destruct reply as [r|]; simpl; [discriminate|].
  unfold parent_view, parsed, checked. now intros [= <-].
Qed.

Lemma parent_view_return hash reply v :
  parent_view reply = Return v -> faulted (GetBlock hash reply) = false.
Proof. destruct reply as [r|]; [reflexivity | discriminate]. Qed.

Section Search.
Context `{Server}.
Variable sha256_hexdigest : string -> string.

Lemma get_txpool_run (w : World) :
  MineFast.get_txpool w
  = (pool_view (snd (srv_txpool w)), fst (srv_txpool w),
     [GetTxpool (snd (srv_txpool w))]).
Proof.
  unfold MineFast.get_txpool. unfold bind at 1.
  rewrite http_get_same, http_get_txpool_run.
  unfold pool_view, parsed.
  destruct (checked (snd (srv_txpool w))) as [r|e|]; try reflexivity.
  unfold bind, json_of. destruct (body r); reflexivity.
Qed.

(** The body of the search loop. *)
Definition pow_body (base_head : option string) (st : json * Z)
  : M (Flow (json * Z) (json * string)) :=
  let '(block, nonce) := st in
  let block := set_item "nonce" (JInt nonce) block in
  let h := MineFast.hash_block sha256_hexdigest block in
  if startswith h MineFast.DIFFICULTY_PREFIX then ret (Break (block, h))
  else
    let nonce := nonce + 1 in
    if nonce mod MineFast.RECHECK_INTERVAL =? 0 then
      '(latest_head, _) <- MineFast.get_txpool ;;
      if negb (opt_str_eqb latest_head base_head)
      then ret (Break (block, h))
      else ret (Continue (block, nonce))
    else ret (Continue (block, nonce)).

Lemma pow_loop_unfold fuel base block :
  MineFast.pow_loop sha256_hexdigest fuel base block
  = while fuel (pow_body base) (block, 0).
Proof. reflexivity. Qed.

(** What one search leaves behind: only pool reads; a fault ends it with
    the exception; the block returned is the template with some nonce, [h] is
    its digest, and [h] misses the target if a pool read was stale. *)
Lemma pow_while_spec (base : option string) (fuel : nat) :
  forall block nonce w r w' tr,
    while fuel (pow_body base) (block, nonce) w = (r, w', tr) ->
    forallb is_txpool tr = true
    /\ (existsb faulted tr = true -> r = Raise RequestException)
    /\ (existsb (stale base) tr = true -> exists b h, r = Return (b, h))
    /\ (forall b h, r = Return (b, h) ->
          (exists n, b = set_item "nonce" (JInt n) block)
          /\ h = MineFast.hash_block sha256_hexdigest b
          /\ (existsb (stale base) tr = true ->
              startswith h MineFast.DIFFICULTY_PREFIX = false)).
Proof.
  induction fuel as [|fuel IH]; intros block nonce w r w' tr Hrun.
  - simpl in Hrun. injection Hrun as <- <- <-.
    split; [reflexivity|]. split; [discriminate|].
    split; [discriminate|]. intros b h [=].
  - rewrite while_S in Hrun. unfold bind at 1 in Hrun.
    unfold pow_body at 1 in Hrun.
    set (block1 := set_item "nonce" (JInt nonce) block) in *.
    set (h1 := MineFast.hash_block sha256_hexdigest block1) in *.
    destruct (startswith h1 MineFast.DIFFICULTY_PREFIX) eqn:Hok.
    + simpl in Hrun. injection Hrun as <- <- <-.
      split; [reflexivity|]. split; [discriminate|].
      split; [discriminate|].
      intros b h [= <- <-].
      split; [now exists nonce|]. split; [reflexivity | discriminate].
    + destruct ((nonce + 1) mod MineFast.RECHECK_INTERVAL =? 0).
      * unfold bind at 1 in Hrun. rewrite get_txpool_run in Hrun.
        destruct (pool_view (snd (srv_txpool w))) as [[latest txs]|e|] eqn:Hv.
        -- destruct (negb (opt_str_eqb latest base)) eqn:Hstale.
           ++ simpl in Hrun. injection Hrun as <- <- <-.
              cbn [forallb existsb is_txpool andb].
              rewrite (pool_view_return _ _ Hv).
              split; [reflexivity|]. split; [discriminate|].
              split; [intros _; eauto|].
              intros b h [= <- <-].
              split; [now exists nonce|]. split; [reflexivity|].
              intros _. exact Hok.
           ++ simpl in Hrun.
              destruct (while fuel (pow_body base) (block1, nonce + 1)
                          (fst (srv_txpool w))) as [[r2 w2] t2] eqn:Hrest.
              injection Hrun as <- <- <-.
              destruct (IH _ _ _ _ _ _ Hrest) as (Hp & Hf & Hst & Hr).
              cbn [app forallb existsb is_txpool andb].
              rewrite (pool_view_return _ _ Hv).
              unfold stale at 1 3. cbn [reported_head]. rewrite Hv, Hstale.
              cbn [orb].
              split; [exact Hp|]. split; [exact Hf|]. split; [exact Hst|].
              intros b h Hret.
              destruct (Hr _ _ Hret) as ((n & Hn) & Hh & Hs).
              split; [|split; assumption].
              exists n. subst block1. now rewrite set_item_twice in Hn.
        -- injection Hrun as <- <- <-.
           cbn [forallb existsb is_txpool andb].
           split; [reflexivity|].
           split; [|split; [|intros b h [=]]].
           ++ rewrite orb_false_r. intros Hf. f_equal.
              eapply pool_view_fault; eassumption.
           ++ unfold stale. cbn [reported_head]. rewrite Hv. discriminate.
        -- now apply pool_view_fuel in Hv.
      * simpl in Hrun.
        destruct (while fuel (pow_body base) (block1, nonce + 1) w)
          as [[r2 w2] t2] eqn:Hrest.
        injection Hrun as <- <- <-.
        destruct (IH _ _ _ _ _ _ Hrest) as (Hp & Hf & Hst & Hr).
        split; [exact Hp|]. split; [exact Hf|]. split; [exact Hst|].
        intros b h Hret.
        destruct (Hr _ _ Hret) as ((n & Hn) & Hh & Hs).
        split; [|split; assumption].
        exists n. subst block1. now rewrite set_item_twice in Hn.
Qed.

Lemma next_boundary (nonce : Z) :
  0 <= nonce ->
  (nonce + 1) / MineFast.RECHECK_INTERVAL
  = nonce / MineFast.RECHECK_INTERVAL
    + (if (nonce + 1) mod MineFast.RECHECK_INTERVAL =? 0 then 1 else 0).
Proof.
  unfold MineFast.RECHECK_INTERVAL. intros Hn.
  destruct (Z.eqb_spec ((nonce + 1) mod 512) 0) as [E|E];
    Z.div_mod_to_equations; lia.
Qed.

(** The search reads the pool at every multiple of [RECHECK_INTERVAL] the
    nonce reaches, and only there: a search that starts at [nonce] and
    returns the block with nonce [n] has made one read per multiple in
    [nonce + 1 .. n] when [n] meets the target, and one per multiple in
    [nonce + 1 .. n + 1] when it stopped on a stale read. *)
Lemma pow_checks_at_boundaries (base : option string) (fuel : nat) :
  forall block nonce w b h w' tr,
    0 <= nonce ->
    while fuel (pow_body base) (block, nonce) w = (Return (b, h), w', tr) ->
    exists n,
      nonce <= n
      /\ b = set_item "nonce" (JInt n) block
      /\ Z.of_nat (List.length tr)
         = (if startswith h MineFast.DIFFICULTY_PREFIX
            then n / MineFast.RECHECK_INTERVAL
            else (n + 1) / MineFast.RECHECK_INTERVAL)
           - nonce / MineFast.RECHECK_INTERVAL.
Proof.
  induction fuel as [|fuel IH]; intros block nonce w b h w' tr Hn Hrun;
    [discriminate|].
  rewrite while_S in Hrun. unfold bind at 1 in Hrun.
  unfold pow_body at 1 in Hrun.
  set (block1 := set_item "nonce" (JInt nonce) block) in *.
  set (h1 := MineFast.hash_block sha256_hexdigest block1) in *.
  pose proof (next_boundary nonce Hn) as Hnext.
  assert (Hn1 : 0 <= nonce + 1) by lia.
  destruct (startswith h1 MineFast.DIFFICULTY_PREFIX) eqn:Hok.
  - simpl in Hrun. injection Hrun as <- <- <- <-.
    exists nonce. rewrite Hok. simpl. split; [lia|]. split; [reflexivity|lia].
  - destruct ((nonce + 1) mod MineFast.RECHECK_INTERVAL =? 0).
    + unfold bind at 1 in Hrun. rewrite get_txpool_run in Hrun.
      destruct (pool_view (snd (srv_txpool w))) as [[latest txs]|e|] eqn:Hv;
        [|discriminate|discriminate].
      destruct (negb (opt_str_eqb latest base)) eqn:Hstale.
      * simpl in Hrun. injection Hrun as <- <- <- <-.
        exists nonce. rewrite Hok. simpl.
        split; [lia|]. split; [reflexivity|lia].
      * simpl in Hrun.
        destruct (while fuel (pow_body base) (block1, nonce + 1)
                    (fst (srv_txpool w))) as [[r2 w2] t2] eqn:Hrest.
        injection Hrun as -> <- <-.
        destruct (IH _ _ _ _ _ _ _ Hn1 Hrest) as (n & Hle & Hb & Hlen).
        exists n. split; [lia|]. split.
        -- subst block1. now rewrite set_item_twice in Hb.
        -- simpl List.length. lia.
    + simpl in Hrun.
      destruct (while fuel (pow_body base) (block1, nonce + 1) w)
        as [[r2 w2] t2] eqn:Hrest.
      injection Hrun as -> <- <-.
      destruct (IH _ _ _ _ _ _ _ Hn1 Hrest) as (n & Hle & Hb & Hlen).
      exists n. split; [lia|]. split.
      * subst block1. now rewrite set_item_twice in Hb.
      * simpl List.length. lia.
Qed.

(** What a search leaves behind, as [pow_while_spec] states it. *)
Definition searched (base : option string) (block : json)
    (r : Outcome (json * string)) (tp : list Event) : Prop :=
  forallb is_txpool tp = true
  /\ (existsb faulted tp = true -> r = Raise RequestException)
  /\ (existsb (stale base) tp = true -> exists b h, r = Return (b, h))
  /\ (forall b h, r = Return (b, h) ->
        (exists n, b = set_item "nonce" (JInt n) block)
        /\ h = MineFast.hash_block sha256_hexdigest b
        /\ (existsb (stale base) tp = true ->
            startswith h MineFast.DIFFICULTY_PREFIX = false)).

(** A candidate is submitted only if the last pool read still reports
    [base] and the digest meets the target. *)
Definition discard (base latest : option string) (h : string) : bool :=
  negb (opt_str_eqb latest base)
  || negb (startswith h MineFast.DIFFICULTY_PREFIX).

(** The part of one pass that follows the search: the outcome of the
    search, the outcome of the pass, the events performed. *)
Inductive finish (base : option string)
  : Outcome (json * string) -> Outcome (Flow unit bool) -> list Event -> Prop :=
| fin_search_raised e :
    finish base (Raise e) (Raise e) []
| fin_search_fuel :
    finish base OutOfFuel OutOfFuel []
| fin_check_raised b h final e :
    pool_view final = Raise e ->
    finish base (Return (b, h)) (Raise e) [GetTxpool final]
| fin_discarded b h final latest txs :
    pool_view final = Return (latest, txs) ->
    discard base latest h = true ->
    finish base (Return (b, h)) (Return (Continue tt)) [GetTxpool final]
| fin_post_raised b h final latest txs :
    pool_view final = Return (latest, txs) ->
    discard base latest h = false ->
    finish base (Return (b, h)) (Raise RequestException)
           [GetTxpool final; PostBlock b None]
| fin_accepted b h final latest txs :
    pool_view final = Return (latest, txs) ->
    discard base latest h = false ->
    finish base (Return (b, h)) (Return (Break true))
           [GetTxpool final; PostBlock b (Some 200)]
| fin_rejected b h final latest txs status :
    pool_view final = Return (latest, txs) ->
    discard base latest h = false ->
    status <> 200 ->
    finish base (Return (b, h)) (Return (Continue tt))
           [GetTxpool final; PostBlock b (Some status); Sleep 50].

(** One pass of [mine_empty_with_nice]: its outcome and its events. *)
Inductive shape (who : string)
  : Outcome (Flow unit bool) -> list Event -> Prop :=
| shape_pool_raised snap e :
    pool_view snap = Raise e ->
    shape who (Raise e) [GetTxpool snap]
| shape_tainted snap h txs :
    pool_view snap = Return (h, txs) ->
    MineFast.touches_who who txs = true ->
    shape who (Return (Continue tt)) [GetTxpool snap; Sleep 100]
| shape_parent_raised snap h txs preply e :
    pool_view snap = Return (h, txs) ->
    MineFast.touches_who who txs = false ->
    parent_view preply = Raise e ->
    shape who (Raise e) [GetTxpool snap; GetBlock h preply]
| shape_search snap h txs preply parent rp tp r rest :
    pool_view snap = Return (h, txs) ->
    MineFast.touches_who who txs = false ->
    parent_view preply = Return parent ->
    searched h (MineFast.new_block (blk_index parent) h who) rp tp ->
    finish h rp r rest ->
    shape who r (GetTxpool snap :: GetBlock h preply :: tp ++ rest)%list.

Lemma bind_get_txpool {B} (k : option string * list Tx -> M B) (w : World) :
  bind MineFast.get_txpool k w
  = match pool_view (snd (srv_txpool w)) with
    | Return v =>
        let '(r, w2, t2) := k v (fst (srv_txpool w)) in
        (r, w2, GetTxpool (snd (srv_txpool w)) :: t2)
    | Raise e => (Raise e, fst (srv_txpool w), [GetTxpool (snd (srv_txpool w))])
    | OutOfFuel =>
        (OutOfFuel, fst (srv_txpool w), [GetTxpool (snd (srv_txpool w))])
    end.
Proof.
  unfold bind. rewrite get_txpool_run.
  destruct (pool_view (snd (srv_txpool w))) as [v|e|]; reflexivity.
Qed.

Lemma bind_parent {B} (hash : option string) (k : Z -> M B) (w : World) :
  bind (MineFast.http_get (BlockAt hash))
       (fun r => bind (json_of r)
                      (fun j => bind (subscript (bb_block j))
                                     (fun parent => bind (index parent) k))) w
  = match parent_view (snd (srv_block hash w)) with
    | Return parent =>
        let '(r, w2, t2) := k (blk_index parent) (fst (srv_block hash w)) in
        (r, w2, GetBlock hash (snd (srv_block hash w)) :: t2)
    | Raise e =>
        (Raise e, fst (srv_block hash w),
         [GetBlock hash (snd (srv_block hash w))])
    | OutOfFuel =>
        (OutOfFuel, fst (srv_block hash w),
         [GetBlock hash (snd (srv_block hash w))])
    end.
Proof.
  unfold bind at 1. rewrite http_get_same, http_get_block_run.
  unfold parent_view, parsed.
  destruct (checked (snd (srv_block hash w))) as [r|e|]; try reflexivity.
  unfold bind at 1, json_of. destruct (body r) as [j|]; [|reflexivity].
  cbn [ret]. unfold bind at 1, subscript.
  destruct (bb_block j) as [| |[|b]]; try reflexivity.
  cbn [ret]. unfold bind at 1, index. cbn [ret].
  destruct (k (blk_index b) (fst (srv_block hash w))) as [[r2 w2] t2].
  reflexivity.
Qed.

(** The part of a pass after the search, as a computation. *)
Definition finish_pass (base_head : option string) (found : json * string)
  : M (Flow unit bool) :=
  let '(block, h) := found in
  '(latest_head, _) <- MineFast.get_txpool ;;
  if negb (opt_str_eqb latest_head base_head)
     || negb (startswith h MineFast.DIFFICULTY_PREFIX)
  then ret (Continue tt)
  else
    status <- MineFast.http_post block ;;
    if status =? 200 then ret (Break true)
    else
      sleep 50 ;;;
      ret (Continue tt).

Lemma finish_pass_shape base b h w r w' tr :
  finish_pass base (b, h) w = (r, w', tr) ->
  finish base (Return (b, h)) r tr.
Proof.
  unfold finish_pass. rewrite bind_get_txpool.
  destruct (pool_view (snd (srv_txpool w))) as [[latest txs]|e|] eqn:Hv.
  - fold (discard base latest h).
    destruct (discard base latest h) eqn:Hd.
    + intros [= <- <- <-]. eapply fin_discarded; eassumption.
    + unfold bind at 1, MineFast.http_post, requests_post.
      destruct (srv_post b (fst (srv_txpool w))) as [w2 [status|]].
      * cbn [of_reply]. destruct (Z.eqb_spec status 200) as [->|Hne].
        -- intros [= <- <- <-]. eapply fin_accepted; eassumption.
        -- intros [= <- <- <-]. eapply fin_rejected; eassumption.
      * intros [= <- <- <-]. eapply fin_post_raised; eassumption.
  - intros [= <- <- <-]. now apply fin_check_raised.
  - now apply pool_view_fuel in Hv.
Qed.

Lemma mine_attempt_unfold fuel who :
  MineFast.mine_attempt sha256_hexdigest fuel who
  = ('(head_hash, txs) <- MineFast.get_txpool ;;
     if MineFast.touches_who who txs then
       sleep 100 ;;;
       ret (Continue tt)
     else
       r <- MineFast.http_get (BlockAt head_hash) ;;
       j <- json_of r ;;
       parent <- subscript (bb_block j) ;;
       parent_index <- index parent ;;
       found <- MineFast.pow_loop sha256_hexdigest fuel head_hash
                  (MineFast.new_block parent_index head_hash who) ;;
       finish_pass head_hash found).
Proof. reflexivity. Qed.

Lemma mine_attempt_shape fuel who w r w' tr :
  MineFast.mine_attempt sha256_hexdigest fuel who w = (r, w', tr) ->
  shape who r tr.
Proof.
  rewrite mine_attempt_unfold, bind_get_txpool.
  destruct (pool_view (snd (srv_txpool w))) as [[h txs]|e|] eqn:Hv.
  - destruct (MineFast.touches_who who txs) eqn:Ht.
    + intros [= <- <- <-]. eapply shape_tainted; eassumption.
    + rewrite bind_parent.
      destruct (parent_view (snd (srv_block h (fst (srv_txpool w)))))
        as [parent|e|] eqn:Hp.
      * unfold bind. rewrite pow_loop_unfold.
        destruct (while fuel (pow_body h)
                    (MineFast.new_block (blk_index parent) h who, 0)
                    (fst (srv_block h (fst (srv_txpool w)))))
          as [[rp w3] tp] eqn:Hs.
        pose proof (pow_while_spec _ _ _ _ _ _ _ _ Hs) as Hspec.
        destruct rp as [[b hs]|e|].
        -- destruct (finish_pass h (b, hs) w3) as [[r3 w4] t3] eqn:Hf.
           intros [= <- <- <-].
           eapply shape_search; try eassumption.
           eapply finish_pass_shape; eassumption.
        -- intros [= <- <- <-].
           rewrite <- (app_nil_r tp).
           eapply shape_search; try eassumption. constructor.
        -- intros [= <- <- <-].
           rewrite <- (app_nil_r tp).
           eapply shape_search; try eassumption. constructor.
      * intros [= <- <- <-]. eapply shape_parent_raised; eassumption.
      * now apply parent_view_fuel in Hp.
  - intros [= <- <- <-]. now apply shape_pool_raised.
  - now apply pool_view_fuel in Hv.
Qed.

(** *** Consequences for one pass *)

Definition is_get_block (e : Event) : bool :=
  match e with
  | GetBlock _ _ => true
  | _ => false
  end.

Lemma txpool_not_post (l : list Event) :
  forallb is_txpool l = true -> forallb (fun e => negb (is_post e)) l = true.
Proof.
  induction l as [|[] l IH]; simpl; try discriminate; auto.
Qed.

Lemma txpool_not_in_post (l : list Event) b reply :
  forallb is_txpool l = true -> ~ In (PostBlock b reply) l.
Proof.
  intros Hall Hin. rewrite forallb_forall in Hall.
  specialize (Hall _ Hin). discriminate.
Qed.

Lemma txpool_not_get_block (l : list Event) :
  forallb is_txpool l = true ->
  existsb (fun e => is_get_block e || is_post e) l = false.
Proof.
  induction l as [|[] l IH]; simpl; try discriminate; auto.
Qed.

Lemma marked_template (n parent_index : Z) (h : option string) (who : string) :
  marked_empty who
    (set_item "nonce" (JInt n) (MineFast.new_block parent_index h who)).
Proof. split; reflexivity. Qed.

Lemma reported_head_view snap h txs :
  pool_view snap = Return (h, txs) -> reported_head (GetTxpool snap) = Some h.
Proof. simpl. now intros ->. Qed.

Lemma stale_view base final latest txs :
  pool_view final = Return (latest, txs) ->
  stale base (GetTxpool final) = negb (opt_str_eqb latest base).
Proof. unfold stale. simpl. now intros ->. Qed.

Lemma stale_raised base final e :
  pool_view final = Raise e -> stale base (GetTxpool final) = false.
Proof. unfold stale. simpl. now intros ->. Qed.

(** After the search: nothing is posted once a pool read was stale. *)
Lemma finish_stale base block rp tp r rest :
  searched base block rp tp ->
  finish base rp r rest ->
  existsb (stale base) (tp ++ rest) = true ->
  forallb (fun e => negb (is_post e)) rest = true
  /\ (r = Return (Continue tt) \/ exists e, r = Raise e).
Proof.
  intros (Hp & Hf & Hst & Hr) Hfin Hex.
  rewrite existsb_app in Hex. apply orb_prop in Hex.
  destruct Hfin as [e | | b h final e Hv | b h final latest txs Hv Hd
                   | b h final latest txs Hv Hd | b h final latest txs Hv Hd
                   | b h final latest txs status Hv Hd Hne].
  - destruct Hex as [Hex|Hex]; [|discriminate].
    destruct (Hst Hex) as (b & h & [=]).
  - destruct Hex as [Hex|Hex]; [|discriminate].
    destruct (Hst Hex) as (b & h & [=]).
  - split; [reflexivity | right; eauto].
  - split; [reflexivity | left; reflexivity].
  - exfalso. unfold discard in Hd. apply orb_false_elim in Hd.
    destruct Hd as [Hfresh Hok]. apply negb_false_iff in Hok.
    destruct Hex as [Hex|Hex].
    + destruct (Hr _ _ eq_refl) as (_ & _ & Hs). rewrite (Hs Hex) in Hok.
      discriminate.
    + cbn [existsb] in Hex. rewrite (stale_view _ _ _ _ Hv), Hfresh in Hex.
      discriminate.
  - exfalso. unfold discard in Hd. apply orb_false_elim in Hd.
    destruct Hd as [Hfresh Hok]. apply negb_false_iff in Hok.
    destruct Hex as [Hex|Hex].
    + destruct (Hr _ _ eq_refl) as (_ & _ & Hs). rewrite (Hs Hex) in Hok.
      discriminate.
    + cbn [existsb] in Hex. rewrite (stale_view _ _ _ _ Hv), Hfresh in Hex.
      discriminate.
  - exfalso. unfold discard in Hd. apply orb_false_elim in Hd.
    destruct Hd as [Hfresh Hok]. apply negb_false_iff in Hok.
    destruct Hex as [Hex|Hex].
    + destruct (Hr _ _ eq_refl) as (_ & _ & Hs). rewrite (Hs Hex) in Hok.
      discriminate.
    + cbn [existsb] in Hex. rewrite (stale_view _ _ _ _ Hv), Hfresh in Hex.
      discriminate.
Qed.

Lemma shape_stale who r snap rest base :
  shape who r (snap :: rest) ->
  reported_head snap = Some base ->
  existsb (stale base) rest = true ->
  forallb (fun e => negb (is_post e)) (snap :: rest) = true
  /\ (r = Return (Continue tt) \/ exists e, r = Raise e).
Proof.
  intros Hshape Hhead Hex.
  inversion Hshape as [s e Hv | s h txs Hv Ht | s h txs preply e Hv Ht Hp
                      | s h txs preply parent rp tp r0 rest0 Hv Ht Hp Hs Hf];
    subst.
  - discriminate.
  - discriminate.
  - discriminate.
  - rewrite (reported_head_view _ _ _ Hv) in Hhead.
    injection Hhead as <-.
    cbn [existsb] in Hex.
    change (stale h (GetBlock h preply)) with false in Hex.
    cbn [orb] in Hex.
    destruct (finish_stale _ _ _ _ _ _ Hs Hf Hex) as [Hnp Hr].
    split; [|exact Hr].
    cbn [forallb is_post negb andb]. rewrite forallb_app, Hnp.
    destruct Hs as (Hp' & _). now rewrite (txpool_not_post _ Hp').
Qed.

Lemma finish_posts base who parent_index rp tp r rest :
  searched base (MineFast.new_block parent_index base who) rp tp ->
  finish base rp r rest ->
  forall b reply, In (PostBlock b reply) rest -> marked_empty who b.
Proof.
  intros (_ & _ & _ & Hr) Hfin b0 reply Hin.
  destruct Hfin; simpl in Hin;
    repeat match goal with
           | H : _ \/ _ |- _ => destruct H
           | H : False |- _ => contradiction
           | H : _ = PostBlock _ _ |- _ => inversion H; clear H; subst
           end.
  all: destruct (Hr _ _ eq_refl) as ((n & ->) & _); apply marked_template.
Qed.

Lemma shape_posts who r tr :
  shape who r tr ->
  forall b reply, In (PostBlock b reply) tr -> marked_empty who b.
Proof.
  intros Hshape b reply Hin.
  destruct Hshape as [s e Hv | s h txs Hv Ht | s h txs preply e Hv Ht Hp
                     | s h txs preply parent rp tp r0 rest0 Hv Ht Hp Hs Hf];
    simpl in Hin;
    repeat match goal with
           | H : _ \/ _ |- _ => destruct H
           | H : False |- _ => contradiction
           | H : _ = PostBlock _ _ |- _ => discriminate H
           end.
  apply in_app_or in H0. destruct H0 as [Hin|Hin].
  - exfalso. destruct Hs as (Hp' & _).
    exact (txpool_not_in_post _ _ _ Hp' Hin).
  - eapply finish_posts; eassumption.
Qed.

Lemma finish_fault base block rp tp r rest :
  searched base block rp tp ->
  finish base rp r rest ->
  existsb faulted (tp ++ rest) = true ->
  r = Raise RequestException.
Proof.
  intros (_ & Hf & _ & _) Hfin Hex.
  rewrite existsb_app in Hex. apply orb_prop in Hex.
  destruct Hfin as [e | | b h final e Hv | b h final latest txs Hv Hd
                   | b h final latest txs Hv Hd | b h final latest txs Hv Hd
                   | b h final latest txs status Hv Hd Hne];
    (destruct Hex as [Hex|Hex];
       [specialize (Hf Hex); inversion Hf; reflexivity|]);
    cbn [existsb] in Hex;
    try rewrite (pool_view_return _ _ Hv) in Hex;
    try discriminate; try reflexivity.
  rewrite orb_false_r in Hex. f_equal. eapply pool_view_fault; eassumption.
Qed.

Lemma shape_fault who r tr :
  shape who r tr -> existsb faulted tr = true -> r = Raise RequestException.
Proof.
  intros Hshape Hex.
  destruct Hshape as [s e Hv | s h txs Hv Ht | s h txs preply e Hv Ht Hp
                     | s h txs preply parent rp tp r0 rest0 Hv Ht Hp Hs Hf];
    cbn [existsb] in Hex.
  - rewrite orb_false_r in Hex. f_equal. eapply pool_view_fault; eassumption.
  - rewrite (pool_view_return _ _ Hv) in Hex. discriminate.
  - rewrite (pool_view_return _ _ Hv), orb_false_r in Hex. cbn [orb] in Hex.
    f_equal. eapply parent_view_fault; eassumption.
  - rewrite (pool_view_return _ _ Hv), (parent_view_return _ _ _ Hp) in Hex.
    cbn [orb] in Hex. eapply finish_fault; eassumption.
Qed.

Lemma shape_rejected who r tr b status :
  shape who r tr ->
  In (PostBlock b (Some status)) tr ->
  status <> 200 ->
  r = Return (Continue tt)
  /\ exists tr0, tr = (tr0 ++ [PostBlock b (Some status); Sleep 50])%list.
Proof.
  intros Hshape Hin Hne.
  destruct Hshape as [s e Hv | s h txs Hv Ht | s h txs preply e Hv Ht Hp
                     | s h txs preply parent rp tp r0 rest0 Hv Ht Hp Hs Hf];
    simpl in Hin;
    repeat match goal with
           | H : _ \/ _ |- _ => destruct H
           | H : False |- _ => contradiction
           | H : _ = PostBlock _ _ |- _ => discriminate H
           end.
  apply in_app_or in H0. destruct H0 as [Hin|Hin].
  - exfalso. destruct Hs as (Hp' & _).
    exact (txpool_not_in_post _ _ _ Hp' Hin).
  - destruct Hf; simpl in Hin;
      repeat match goal with
             | H : _ \/ _ |- _ => destruct H
             | H : False |- _ => contradiction
             | H : _ = PostBlock _ _ |- _ => inversion H; clear H; subst
             end; try congruence.
    split; [reflexivity|].
    exists (GetTxpool s :: GetBlock h preply :: tp ++ [GetTxpool final])%list.
    simpl. rewrite <- app_assoc. reflexivity.
Qed.

Lemma shape_break who v tr :
  shape who (Return (Break v)) tr ->
  v = true /\ exists tr0 b, tr = (tr0 ++ [PostBlock b (Some 200)])%list.
Proof.
  intros Hshape.
  inversion Hshape as [s e Hv | s h txs Hv Ht | s h txs preply e Hv Ht Hp
                      | s h txs preply parent rp tp r0 rest0 Hv Ht Hp Hs Hf];
    subst.
  inversion Hf; subst.
  split; [reflexivity|].
  exists (GetTxpool s :: GetBlock h preply :: tp ++ [GetTxpool final])%list, b.
  simpl. rewrite <- app_assoc. reflexivity.
Qed.

Lemma shape_proceeds who r tr :
  shape who r tr ->
  existsb (fun e => is_get_block e || is_post e) tr = true ->
  exists snap rest txs,
    tr = snap :: rest
    /\ reported_txs snap = Some txs
    /\ MineFast.touches_who who txs = false.
Proof.
  intros Hshape Hex.
  destruct Hshape as [s e Hv | s h txs Hv Ht | s h txs preply e Hv Ht Hp
                     | s h txs preply parent rp tp r0 rest0 Hv Ht Hp Hs Hf];
    try discriminate.
  - eexists _, _, txs. split; [reflexivity|]. simpl. now rewrite Hv.
  - eexists _, _, txs. split; [reflexivity|]. simpl. now rewrite Hv.
Qed.

Lemma shape_no_print who r tr :
  shape who r tr -> forall line, ~ In (Print line) tr.
Proof.
  intros Hshape line Hin.
  destruct Hshape as [s e Hv | s h txs Hv Ht | s h txs preply e Hv Ht Hp
                     | s h txs preply parent rp tp r0 rest0 Hv Ht Hp Hs Hf];
    simpl in Hin;
    repeat match goal with
           | H : _ \/ _ |- _ => destruct H
           | H : False |- _ => contradiction
           | H : _ = Print _ |- _ => discriminate H
           end.
  match goal with H : In _ (_ ++ _)%list |- _ => apply in_app_or in H;
    destruct H as [Hin|Hin] end.
  - destruct Hs as (Hp' & _). rewrite forallb_forall in Hp'.
    specialize (Hp' _ Hin). discriminate.
  - destruct Hf; simpl in Hin;
      repeat match goal with
             | H : _ \/ _ |- _ => destruct H
             | H : False |- _ => contradiction
             | H : _ = Print _ |- _ => discriminate H
             end.
Qed.

(** *** The whole of [mine_empty_with_nice] *)

(** The outer loop, with the fuel of the searches kept apart. *)
Definition mine_loop (n fuel : nat) (who : string) : M bool :=
  while n (fun _ => MineFast.mine_attempt sha256_hexdigest fuel who) tt.

Lemma mine_empty_with_nice_unfold fuel who :
  MineFast.mine_empty_with_nice sha256_hexdigest fuel who
  = mine_loop fuel fuel who.
Proof. reflexivity. Qed.

Lemma mine_loop_S n fuel who w :
  mine_loop (S n) fuel who w
  = bind (MineFast.mine_attempt sha256_hexdigest fuel who)
         (fun f => match f with
                   | Continue _ => mine_loop n fuel who
                   | Break v => ret v
                   end) w.
Proof.
  unfold mine_loop. rewrite while_S. unfold bind.
  destruct (MineFast.mine_attempt sha256_hexdigest fuel who w)
    as [[[[[]|v]|e|] w1] t1]; reflexivity.
Qed.

(** Every event of a run of the loop lies in one of its passes. *)
Lemma mine_loop_passes (P : Event -> Prop) fuel who :
  (forall r tr, shape who r tr -> Forall P tr) ->
  forall n, emits P (mine_loop n fuel who).
Proof.
  intros HP n. unfold mine_loop. apply emits_while.
  intros _ w r w' tr Hrun. eapply HP, mine_attempt_shape, Hrun.
Qed.

Lemma mine_loop_return fuel who n :
  forall w v w' tr,
    mine_loop n fuel who w = (Return v, w', tr) ->
    v = true /\ exists tr0 b, tr = (tr0 ++ [PostBlock b (Some 200)])%list.
Proof.
  induction n as [|n IH]; intros w v w' tr Hrun; [discriminate|].
  rewrite mine_loop_S in Hrun. apply bind_inv in Hrun.
  destruct Hrun as [(f & w1 & t1 & t2 & H1 & H2 & ->)
                   | [(e & _ & [=]) | (_ & [=])]].
  apply mine_attempt_shape in H1. destruct f as [[]|v0].
  - destruct (IH _ _ _ _ H2) as (-> & tr0 & b & ->).
    split; [reflexivity|]. exists (t1 ++ tr0)%list, b.
    now rewrite app_assoc.
  - injection H2 as <- <- <-. rewrite app_nil_r.
    now apply shape_break in H1.
Qed.

Lemma mine_loop_fault fuel who n :
  forall w r w' tr,
    mine_loop n fuel who w = (r, w', tr) ->
    existsb faulted tr = true ->
    r = Raise RequestException.
Proof.
  induction n as [|n IH]; intros w r w' tr Hrun Hex.
  - injection Hrun as <- <- <-. discriminate.
  - rewrite mine_loop_S in Hrun. apply bind_inv in Hrun.
    destruct Hrun as [(f & w1 & t1 & t2 & H1 & H2 & ->)
                     | [(e & H1 & ->) | (H1 & ->)]].
    + apply mine_attempt_shape in H1.
      rewrite existsb_app in Hex. apply orb_prop in Hex.
      destruct Hex as [Hex|Hex].
      * apply (shape_fault _ _ _ H1) in Hex. discriminate.
      * destruct f as [[]|v0]; [exact (IH _ _ _ _ H2 Hex)|].
        injection H2 as <- <- <-. discriminate.
    + apply mine_attempt_shape in H1.
      apply (shape_fault _ _ _ H1) in Hex. congruence.
    + apply mine_attempt_shape in H1.
      apply (shape_fault _ _ _ H1) in Hex. discriminate.
Qed.

(** *** [mine_nice_fast] *)

Lemma emits_bind_strong {A B} P (m : M A) (k : A -> M B) :
  emits P m ->
  (forall a, (exists w w1 t1, m w = (Return a, w1, t1)) -> emits P (k a)) ->
  emits P (bind m k).
Proof.
  intros Hm Hk w r w' tr Hb.
  apply bind_inv in Hb.
  destruct Hb as [(a & w1 & t1 & t2 & H1 & H2 & ->)
                 | [(e & H1 & _) | (H1 & _)]].
  - apply Forall_app. split; [exact (Hm _ _ _ _ H1)|].
    eapply Hk; [|exact H2]. eauto.
  - exact (Hm _ _ _ _ H1).
  - exact (Hm _ _ _ _ H1).
Qed.

Lemma emits_http_get_block P (hash : option string) :
  (forall h r, P (GetBlock h r)) ->
  emits P (CheckTxDepth.http_get (BlockAt hash)).
Proof.
  intros HP w r w' tr. rewrite http_get_block_run. intros [= <- <- <-].
  constructor; [apply HP | constructor].
Qed.

Lemma emits_get_head P :
  (forall h r, P (GetBlock h r)) -> emits P CheckTxDepth.get_head.
Proof.
  intros HP. unfold CheckTxDepth.get_head.
  apply emits_bind; [now apply emits_http_get_block|]. intros r.
  apply emits_bind; [apply emits_json_of|]. intros j.
  apply emits_bind; [apply emits_subscript|]. intros hash.
  apply emits_bind; [apply emits_subscript|]. intros b.
  apply emits_ret.
Qed.

Lemma emits_get_chain_from_head P (fuel : nat) :
  (forall h r, P (GetBlock h r)) ->
  emits P (CheckTxDepth.get_chain_from_head fuel).
Proof.
  intros HP. unfold CheckTxDepth.get_chain_from_head.
  apply emits_bind; [now apply emits_get_head|]. intros [hh [hb|]];
    [|apply emits_raise].
  apply emits_bind; [|intros; apply emits_ret].
  apply emits_while. intros [chain cur].
  destruct (truthy cur); [|apply emits_ret].
  apply emits_bind.
  - apply emits_try; [|apply emits_ret].
    apply emits_bind; [now apply emits_http_get_block|].
    intros; apply emits_ret.
  - intros [r|]; [|apply emits_ret].
    apply emits_bind; [apply emits_json_of|]. intros j.
    destruct (field_get (bb_block j)) as [[|b]|]; apply emits_ret.
Qed.

Lemma emits_count_nice P fuel chain who :
  emits P (MineFast.count_nice fuel (Some chain) who).
Proof.
  unfold MineFast.count_nice.
  apply emits_bind; [apply emits_ret|]. intros; apply emits_ret.
Qed.

Lemma line_current_not_rejected who cur target :
  MineFast.line_current who cur target <> MineFast.line_rejected.
Proof.
  unfold MineFast.line_current, MineFast.line_rejected.
  simpl. discriminate.
Qed.

Lemma line_accepted_not_rejected who cur :
  MineFast.line_accepted who cur <> MineFast.line_rejected.
Proof.
  unfold MineFast.line_accepted, MineFast.line_rejected.
  simpl. discriminate.
Qed.

Lemma line_reached_not_rejected who cur :
  MineFast.line_reached who cur <> MineFast.line_rejected.
Proof.
  unfold MineFast.line_reached, MineFast.line_rejected.
  simpl. discriminate.
Qed.

(** [mine_nice_fast] performs chain reads, runs of [mine_empty_with_nice]
    and prints, and the line of the [else] branch is never among them. *)
Lemma mine_nice_fast_emits (P : Event -> Prop) fuel target who :
  (forall h r, P (GetBlock h r)) ->
  (forall line, line <> MineFast.line_rejected -> P (Print line)) ->
  emits P (MineFast.mine_empty_with_nice sha256_hexdigest fuel who) ->
  emits P (MineFast.mine_nice_fast sha256_hexdigest fuel target who).
Proof.
  intros Hblock Hprint Hmine. unfold MineFast.mine_nice_fast.
  rewrite get_chain_from_head_same.
  apply emits_bind; [now apply emits_get_chain_from_head|]. intros chain.
  apply emits_bind; [apply emits_count_nice|]. intros cur.
  apply emits_bind.
  { apply emits_print, Hprint, line_current_not_rejected. }
  intros _. apply emits_bind.
  - apply emits_while. intros c.
    destruct (c <? target); [|apply emits_ret].
    apply emits_bind_strong; [exact Hmine|].
    intros ok (w & w1 & t1 & Hrun).
    rewrite mine_empty_with_nice_unfold in Hrun.
    apply mine_loop_return in Hrun. destruct Hrun as [-> _].
    apply emits_bind; [now apply emits_get_chain_from_head|]. intros chain'.
    apply emits_bind; [apply emits_count_nice|]. intros cur'.
    apply emits_bind; [|intros; apply emits_ret].
    apply emits_print, Hprint, line_accepted_not_rejected.
  - intros c. apply emits_print, Hprint, line_reached_not_rejected.
Qed.

(** *** Computations that a fault stops *)

(** Whenever an event of the kind [P] occurs, the computation ends by
    raising the exception of [requests]. *)
Definition stops {A} (P : Event -> bool) (m : M A) : Prop :=
  forall w r w' tr,
    m w = (r, w', tr) -> existsb P tr = true -> r = Raise RequestException.

Lemma stops_bind {A B} P (m : M A) (k : A -> M B) :
  stops P m -> (forall a, stops P (k a)) -> stops P (bind m k).
Proof.
  intros Hm Hk w r w' tr Hb Hex.
  apply bind_inv in Hb.
  destruct Hb as [(a & w1 & t1 & t2 & H1 & H2 & ->)
                 | [(e & H1 & ->) | (H1 & ->)]].
  - rewrite existsb_app in Hex. apply orb_prop in Hex.
    destruct Hex as [Hex|Hex].
    + specialize (Hm _ _ _ _ H1 Hex). discriminate.
    + exact (Hk _ _ _ _ _ H2 Hex).
  - specialize (Hm _ _ _ _ H1 Hex). congruence.
  - specialize (Hm _ _ _ _ H1 Hex). discriminate.
Qed.

Lemma stops_while {S A} P (body : S -> M (Flow S A)) :
  (forall s, stops P (body s)) -> forall fuel s, stops P (while fuel body s).
Proof.
  intros Hb fuel. induction fuel as [|fuel IH]; intros s.
  - intros w r w' tr [= <- <- <-]. discriminate.
  - rewrite while_S. apply stops_bind; [apply Hb|].
    intros [s'|a]; [apply IH|]. intros w r w' tr [= <- <- <-]. discriminate.
Qed.

Lemma stops_quiet {A} (P : Event -> bool) (m : M A) :
  emits (fun e => P e = false) m -> stops P m.
Proof.
  intros Hm w r w' tr Hrun Hex. exfalso.
  specialize (Hm _ _ _ _ Hrun). rewrite Forall_forall in Hm.
  apply existsb_exists in Hex. destruct Hex as (e & Hin & HP).
  rewrite (Hm _ Hin) in HP. discriminate.
Qed.

(** A pool read or a submission that met a network fault. *)
Definition pool_or_post_fault (e : Event) : bool :=
  match e with
  | GetTxpool None => true
  | PostBlock _ None => true
  | _ => false
  end.

Lemma pool_or_post_fault_faulted (tr : list Event) :
  existsb pool_or_post_fault tr = true -> existsb faulted tr = true.
Proof.
  intros Hex. apply existsb_exists in Hex. destruct Hex as (e & Hin & HP).
  apply existsb_exists. exists e. split; [exact Hin|].
  destruct e as [h [r|] | [r|] | b [r|] | ms | line]; try discriminate;
    reflexivity.
Qed.

Lemma mine_nice_fast_stops fuel target who :
  stops pool_or_post_fault
        (MineFast.mine_nice_fast sha256_hexdigest fuel target who).
Proof.
  assert (Hchain : forall n, stops pool_or_post_fault
                               (CheckTxDepth.get_chain_from_head n)).
  { intros n. apply stops_quiet, emits_get_chain_from_head. reflexivity. }
  assert (Hcount : forall n c, stops pool_or_post_fault
                                 (MineFast.count_nice n (Some c) who)).
  { intros n c. apply stops_quiet, emits_count_nice. }
  assert (Hprint : forall line, stops pool_or_post_fault (print line)).
  { intros line. apply stops_quiet, emits_print. reflexivity. }
  assert (Hret : forall A (a : A), stops pool_or_post_fault (ret a)).
  { intros A a. apply stops_quiet, emits_ret. }
  unfold MineFast.mine_nice_fast. rewrite get_chain_from_head_same.
  apply stops_bind; [apply Hchain|]. intros chain.
  apply stops_bind; [apply Hcount|]. intros cur.
  apply stops_bind; [apply Hprint|]. intros _.
  apply stops_bind; [|intros; apply Hprint].
  apply stops_while. intros c.
  destruct (c <? target); [|apply Hret].
  apply stops_bind.
  - intros w r w' tr Hrun Hex. rewrite mine_empty_with_nice_unfold in Hrun.
    eapply mine_loop_fault; [exact Hrun|].
    now apply pool_or_post_fault_faulted.
  - intros [|].
    + apply stops_bind; [apply Hchain|]. intros chain'.
      apply stops_bind; [apply Hcount|]. intros cur'.
      apply stops_bind; [apply Hprint | intros; apply Hret].
    + apply stops_bind; [apply Hprint | intros; apply Hret].
Qed.

(** *** The parent fetch *)

(** The request that follows a pool read at once is the parent fetch of
    line 86: [starts_fault] says that a trace begins with a block fetch on
    which [requests] raised, [parent_fault] that the trace holds a pool read
    followed at once by such a fetch. *)
Definition starts_fault (tr : list Event) : bool :=
  match tr with
  | GetBlock _ None :: _ => true
  | _ => false
  end.

Fixpoint parent_fault (tr : list Event) : bool :=
  match tr with
  | [] => false
  | e :: rest => (is_txpool e && starts_fault rest) || parent_fault rest
  end.

(** The last event of the trace is a pool read. *)
Definition pool_last (tr : list Event) : bool :=
  is_txpool (last tr (Sleep 0)).

Lemma starts_fault_app (t1 t2 : list Event) :
  starts_fault (t1 ++ t2)
  = match t1 with
    | [] => starts_fault t2
    | _ => starts_fault t1
    end.
Proof. destruct t1 as [|[h [r|]| | | |] t1]; reflexivity. Qed.

Lemma pool_last_app (t1 t2 : list Event) :
  pool_last (t1 ++ t2)
  = match t2 with
    | [] => pool_last t1
    | _ => pool_last t2
    end.
Proof.
  unfold pool_last. destruct t2 as [|e t2]; [now rewrite app_nil_r|].
  induction t1 as [|a t1 IH]; [reflexivity|].
  simpl app. rewrite <- IH. simpl.
  destruct (t1 ++ e :: t2)%list eqn:E; [|reflexivity].
  now destruct t1.
Qed.

Lemma parent_fault_app (t1 t2 : list Event) :
  parent_fault (t1 ++ t2) = true ->
  parent_fault t1 = true
  \/ parent_fault t2 = true
  \/ (pool_last t1 = true /\ starts_fault t2 = true).
Proof.
  induction t1 as [|e t1 IH]; [auto|].
  simpl. rewrite starts_fault_app. intros Hf.
  apply orb_prop in Hf. destruct Hf as [Hf|Hf].
  - destruct t1 as [|e' t1].
    + apply andb_prop in Hf. right. right. unfold pool_last. simpl. exact Hf.
    + left. now rewrite Hf.
  - destruct (IH Hf) as [H1 | [H2 | [H3 H4]]].
    + left. rewrite H1. apply orb_true_r.
    + auto.
    + right. right. split; [|exact H4].
      destruct t1 as [|e' t1]; [discriminate|exact H3].
Qed.

Lemma parent_fault_faulted (tr : list Event) :
  parent_fault tr = true -> existsb faulted tr = true.
Proof.
  induction tr as [|e tr IH]; [discriminate|].
  simpl. intros Hf. apply orb_prop in Hf. destruct Hf as [Hf|Hf].
  - apply andb_prop in Hf. destruct Hf as [_ Hs].
    destruct tr as [|[h [r|]| | | |] tr]; try discriminate.
    simpl. now rewrite orb_true_r.
  - rewrite (IH Hf). apply orb_true_r.
Qed.

Lemma no_pool_read (tr : list Event) :
  Forall (fun e => is_txpool e = false) tr ->
  parent_fault tr = false /\ pool_last tr = false.
Proof.
  induction 1 as [|e tr He Hall [IH1 IH2]]; [split; reflexivity|].
  split.
  - simpl. now rewrite He, IH1.
  - unfold pool_last in *. destruct tr as [|e' tr]; [exact He | exact IH2].
Qed.

(** A computation in which a parent fetch that meets a network fault ends
    the run with the exception of [requests], and which does not return
    right after a pool read. *)
Definition tidy {A} (m : M A) : Prop :=
  forall w r w' tr,
    m w = (r, w', tr) ->
    (parent_fault tr = true -> r = Raise RequestException)
    /\ (forall a, r = Return a -> pool_last tr = false).

Lemma tidy_bind {A B} (m : M A) (k : A -> M B) :
  tidy m -> (forall a, tidy (k a)) -> tidy (bind m k).
Proof.
  intros Hm Hk w r w' tr Hb.
  apply bind_inv in Hb.
  destruct Hb as [(a & w1 & t1 & t2 & H1 & H2 & ->)
                 | [(e & H1 & ->) | (H1 & ->)]].
  - destruct (Hm _ _ _ _ H1) as [Hm1 Hm2].
    destruct (Hk _ _ _ _ _ H2) as [Hk1 Hk2].
    specialize (Hm2 a eq_refl). split.
    + intros Hf. apply parent_fault_app in Hf.
      destruct Hf as [Hf | [Hf | [Hf _]]].
      * specialize (Hm1 Hf). discriminate.
      * exact (Hk1 Hf).
      * congruence.
    + intros b Hr. rewrite pool_last_app.
      destruct t2 as [|e t2]; [exact Hm2 | exact (Hk2 b Hr)].
  - destruct (Hm _ _ _ _ H1) as [Hm1 _]. split; [|discriminate].
    intros Hf. specialize (Hm1 Hf). congruence.
  - destruct (Hm _ _ _ _ H1) as [Hm1 _]. split; [|discriminate].
    intros Hf. specialize (Hm1 Hf). discriminate.
Qed.

Lemma tidy_quiet {A} (m : M A) :
  emits (fun e => is_txpool e = false) m -> tidy m.
Proof.
  intros Hm w r w' tr Hrun.
  destruct (no_pool_read tr (Hm _ _ _ _ Hrun)) as [Hf Hl].
  split; [rewrite Hf; discriminate | intros; exact Hl].
Qed.

Lemma tidy_while {S A} (body : S -> M (Flow S A)) :
  (forall s, tidy (body s)) -> forall fuel s, tidy (while fuel body s).
Proof.
  intros Hb fuel. induction fuel as [|fuel IH]; intros s.
  - apply tidy_quiet. intros w r w' tr [= <- <- <-]. constructor.
  - rewrite while_S. apply tidy_bind; [apply Hb|].
    intros [s'|a]; [apply IH | apply tidy_quiet, emits_ret].
Qed.

Lemma mine_empty_with_nice_tidy fuel who :
  tidy (MineFast.mine_empty_with_nice sha256_hexdigest fuel who).
Proof.
  intros w r w' tr Hrun. rewrite mine_empty_with_nice_unfold in Hrun. split.
  - intros Hf. eapply mine_loop_fault; [exact Hrun|].
    now apply parent_fault_faulted.
  - intros v ->. apply mine_loop_return in Hrun.
    destruct Hrun as (_ & tr0 & b & ->).
    rewrite pool_last_app. reflexivity.
Qed.

Lemma mine_nice_fast_tidy fuel target who :
  tidy (MineFast.mine_nice_fast sha256_hexdigest fuel target who).
Proof.
  assert (Hchain : forall n, tidy (CheckTxDepth.get_chain_from_head n)).
  { intros n. apply tidy_quiet, emits_get_chain_from_head. reflexivity. }
  assert (Hcount : forall n c, tidy (MineFast.count_nice n (Some c) who)).
  { intros n c. apply tidy_quiet, emits_count_nice. }
  assert (Hprint : forall line, tidy (print line)).
  { intros line. apply tidy_quiet, emits_print. reflexivity. }
  assert (Hret : forall A (a : A), tidy (ret a)).
  { intros A a. apply tidy_quiet, emits_ret. }
  unfold MineFast.mine_nice_fast. rewrite get_chain_from_head_same.
  apply tidy_bind; [apply Hchain|]. intros chain.
  apply tidy_bind; [apply Hcount|]. intros cur.
  apply tidy_bind; [apply Hprint|]. intros _.
  apply tidy_bind; [|intros; apply Hprint].
  apply tidy_while. intros c.
  destruct (c <? target); [|apply Hret].
  apply tidy_bind; [apply mine_empty_with_nice_tidy|].
  intros [|].
  - apply tidy_bind; [apply Hchain|]. intros chain'.
    apply tidy_bind; [apply Hcount|]. intros cur'.
    apply tidy_bind; [apply Hprint | intros; apply Hret].
  - apply tidy_bind; [apply Hprint | intros; apply Hret].
Qed.

End Search.
End Miner.

(* ===================================================================== *)
(** ** Properties of the hasher and of the difficulty check *)
(* ===================================================================== *)

Module Hashing.
Import Ledgers.

(** C4 (difficulty check).  With [DIFFICULTY = 16] the target prefix has
    [DIFFICULTY / 4 = 4] characters, and the check of lines 100 and 109,
    [h.startswith(DIFFICULTY_PREFIX)], accepts a digest exactly when its
    first four characters exist and are all ['0']; a digest whose first
    three characters are ['0'] and whose fourth is not (or is missing) is
    rejected. *)
Theorem difficulty_check_correct (h : string) :
  Z.to_nat (MineFast.DIFFICULTY / 4) = 4%nat
  /\ (startswith h MineFast.DIFFICULTY_PREFIX = true <->
      forall i, (i < Z.to_nat (MineFast.DIFFICULTY / 4))%nat ->
                String.get i h = Some "0"%char)
  /\ ((forall i, (i < Z.to_nat (MineFast.DIFFICULTY / 4) - 1)%nat ->
                 String.get i h = Some "0"%char) ->
      String.get (Z.to_nat (MineFast.DIFFICULTY / 4) - 1) h <> Some "0"%char ->
      startswith h MineFast.DIFFICULTY_PREFIX = false).
Proof.
  assert (Hiff : startswith h MineFast.DIFFICULTY_PREFIX = true <->
                 forall i, (i < Z.to_nat (MineFast.DIFFICULTY / 4))%nat ->
                           String.get i h = Some "0"%char).
  { unfold startswith, MineFast.DIFFICULTY_PREFIX, str_mul.
    rewrite PyFacts.prefix_get, PyFacts.length_repeat_zero.
    split; intros Hg i Hi.
    - rewrite (Hg i Hi). now apply PyFacts.get_repeat_zero.
    - rewrite (Hg i Hi). symmetry. now apply PyFacts.get_repeat_zero. }
  split; [reflexivity|]. split; [exact Hiff|].
  intros _ Hlast. apply not_true_is_false. intros Hacc.
  apply Hlast. apply (proj1 Hiff Hacc).
  change (Z.to_nat (MineFast.DIFFICULTY / 4)) with 4%nat. lia.
Qed.

Lemma difficulty_check_witness :
  startswith "0000a3" MineFast.DIFFICULTY_PREFIX = true
  /\ startswith "000fa3" MineFast.DIFFICULTY_PREFIX = false.
Proof.
  split.
  - apply (proj1 (proj2 (difficulty_check_correct "0000a3"))).
    intros i Hi. change (Z.to_nat (MineFast.DIFFICULTY / 4)) with 4%nat in Hi.
    do 4 (destruct i as [|i]; [reflexivity|]). lia.
  - apply (proj2 (proj2 (difficulty_check_correct "000fa3"))).
    + intros i Hi.
      change (Z.to_nat (MineFast.DIFFICULTY / 4) - 1)%nat with 3%nat in Hi.
      do 3 (destruct i as [|i]; [reflexivity|]). lia.
    + simpl. discriminate.
Defined.

(** C8 (hash determinism).  Two block records with the same field values,
    whatever the order in which their fields (and the fields of the records
    inside them) were inserted, get the same canonical text from
    [json.dumps(sort_keys=True, separators=(",", ":"))] and therefore the
    same digest from [hash_block]. *)
Theorem hash_determinism (sha256_hexdigest : string -> string) (b1 b2 : json) :
  wf b1 = true -> wf b2 = true -> same_content b1 b2 = true ->
  dumps b1 = dumps b2
  /\ MineFast.hash_block sha256_hexdigest b1
     = MineFast.hash_block sha256_hexdigest b2.
Proof.
  intros W1 W2 Hs.
  assert (E : dumps b1 = dumps b2) by now apply PyFacts.same_content_dumps.
  split; [exact E|]. unfold MineFast.hash_block. now rewrite E.
Qed.

(** The canonical text of a mined block: keys in order, no spaces. *)
Definition quoted (s : string) : string :=
  String dquote (s ++ String dquote "").

Example dumps_mined_block :
  dumps (set_item "nonce" (JInt 3)
           (MineFast.new_block 5 (Some "h5") "hacker"))
  = "{" ++ quoted "index" ++ ":6," ++ quoted "nice" ++ ":" ++ quoted "hacker"
        ++ "," ++ quoted "nonce" ++ ":3," ++ quoted "prev_hash" ++ ":"
        ++ quoted "h5" ++ "," ++ quoted "txs" ++ ":[]}".
Proof. reflexivity. Qed.

Example dumps_escapes :
  dumps (JList [JStr (String (ascii_of_N 10) "a\b"); JNull; JBool true;
                JInt (-7); JDict []])
  = "[" ++ quoted "\na\\b" ++ ",null,true,-7,{}]".
Proof. reflexivity. Qed.

Definition block_one_order : json :=
  JDict [("index", JInt 6); ("prev_hash", JStr "h5"); ("nonce", JInt 3);
         ("txs", JList [JDict [("src", JStr "alice"); ("dst", JStr "bob")]]);
         ("nice", JStr "hacker")].

Definition block_other_order : json :=
  JDict [("nice", JStr "hacker");
         ("txs", JList [JDict [("dst", JStr "bob"); ("src", JStr "alice")]]);
         ("nonce", JInt 3); ("index", JInt 6); ("prev_hash", JStr "h5")].

Lemma hash_determinism_witness :
  block_one_order <> block_other_order
  /\ dumps block_one_order = dumps block_other_order
  /\ MineFast.hash_block digest_at_3 block_one_order
     = MineFast.hash_block digest_at_3 block_other_order.
Proof.
  split; [discriminate|].
  apply (hash_determinism digest_at_3 block_one_order block_other_order);
    reflexivity.
Defined.

End Hashing.

(* ===================================================================== *)
(** ** Properties of the chain reader and of the auditor *)
(* ===================================================================== *)

Module Reading.
Import NetFacts ChainReader Auditor.

Section Chain.
Context `{Server}.

(** C6 (chain ordering).  When the service hands out the linear chain
    [B0 .. Bn] (the head is [Bn], every block but [B0] is reached through the
    [prev_hash] of its successor, every fetch succeeds and [B0] has no
    [prev_hash]), [get_chain_from_head], in either script and given fuel
    for [n + 1] iterations, returns exactly [B0 .. Bn], oldest first: in
    strictly ascending index order and without duplicates. *)
Theorem chain_ordering (w : World) (chain : list Block) (fuel : nat) :
  serves w (map Rec chain) AtGenesis ->
  indexed_from_genesis chain ->
  (List.length chain <= fuel)%nat ->
  exists out w' tr,
    CheckTxDepth.get_chain_from_head fuel w = (Return out, w', tr)
    /\ MineFast.get_chain_from_head fuel w = (Return out, w', tr)
    /\ out = map Rec chain
    /\ StronglySorted Z.lt (map blk_index chain)
    /\ NoDup out.
Proof.
  intros Hserves Hidx Hfuel.
  assert (Hlen : (List.length (map Rec chain) <= fuel)%nat)
    by now rewrite length_map.
  destruct (served_chain_returned w _ AtGenesis Hserves fuel Hlen)
    as (w' & tr & Hrun).
  destruct (indexed_ascending chain Hidx) as [Hsorted Hnodup].
  exists (map Rec chain), w', tr.
  split; [exact Hrun|]. split; [exact Hrun|].
  split; [reflexivity|]. split; [exact Hsorted|].
  now apply NoDup_records.
Qed.

(** C7 (truncation tolerance).  When the backward fetch of [Bk] fails
    ([requests] raises, the status is an error status, or the reply carries
    no block), [get_chain_from_head], in either script, returns exactly the
    blocks fetched so far, [Bk+1 .. Bn], oldest first, and raises nothing. *)
Theorem truncation_tolerance (w : World) (fetched : list Block) (fuel : nat) :
  serves w (map Rec fetched) AtFailedFetch ->
  (List.length fetched <= fuel)%nat ->
  exists w' tr,
    CheckTxDepth.get_chain_from_head fuel w = (Return (map Rec fetched), w', tr)
    /\ MineFast.get_chain_from_head fuel w
       = (Return (map Rec fetched), w', tr).
Proof.
  intros Hserves Hfuel.
  assert (Hlen : (List.length (map Rec fetched) <= fuel)%nat)
    by now rewrite length_map.
  destruct (served_chain_returned w _ AtFailedFetch Hserves fuel Hlen)
    as (w' & tr & Hrun).
  exists w', tr. split; exact Hrun.
Qed.

(** C5 (confirmation depth), as the code has it.  When the nonce is found
    in the reconstructed chain, [main] reports the index of the first block
    of the chain that holds it, the index of the head it read beforehand,
    and their difference [head_index - tx_block_index].  The difference is
    non-negative when that head is still the last block of the chain read
    afterwards and the indices ascend along the chain. *)
Theorem confirmation_depth (fuel : nat) (nonce : string) (w w2 : World)
    (r : Response BlockBody) (hash : string) (head : Block)
    (chain pre post : list Dict) (blk : Block) (tr : list Event) :
  snd (srv_block None w) = Some r ->
  bad_status (status_code r) = false ->
  body r = Some (mkBlockBody (Value hash) (Value (Rec head))) ->
  CheckTxDepth.get_chain_from_head fuel (fst (srv_block None w))
    = (Return chain, w2, tr) ->
  chain = (pre ++ Rec blk :: post)%list ->
  forallb (fun b => negb (mentions nonce b)) pre = true ->
  mentions nonce (Rec blk) = true ->
  let found := CheckTxDepth.mkDepth (blk_index blk) (blk_index head)
                 (blk_index head - blk_index blk) in
  CheckTxDepth.check_depth fuel nonce w
    = (Return (Some found), w2, GetBlock None (Some r) :: tr)
  /\ CheckTxDepth.main fuel nonce w
    = (Return tt, w2,
       GetBlock None (Some r)
         :: tr ++ [Print (CheckTxDepth.line_depth nonce found)])%list
  /\ (forall blocks,
        chain = map Rec blocks ->
        (exists init, blocks = (init ++ [head])%list) ->
        StronglySorted Z.lt (map blk_index blocks) ->
        0 <= CheckTxDepth.confirmations found).
Proof.
  intros Hr Hb Hj Hchain -> Hpre Hblk found.
  assert (Hrun : CheckTxDepth.check_depth fuel nonce w
                 = (Return (Some found), w2, GetBlock None (Some r) :: tr)).
  { unfold CheckTxDepth.check_depth. unfold bind at 1.
    rewrite (get_head_run w r (Value hash) (Rec head) Hr Hb Hj)
      by discriminate.
    unfold bind at 1. cbn [index ret]. unfold bind at 1. rewrite Hchain.
    unfold bind at 1. rewrite scan_chain_run.
    rewrite (located_first nonce pre blk post Hpre Hblk).
    cbn [ret app]. now rewrite !app_nil_r. }
  split; [exact Hrun|]. split.
  - unfold CheckTxDepth.main, bind. rewrite Hrun. reflexivity.
  - intros blocks Hblocks [init Hinit] Hsorted. simpl.
    symmetry in Hblocks.
    destruct (map_Rec_split _ _ _ _ Hblocks) as (pre' & post' & E & _ & _).
    rewrite E in Hinit, Hsorted.
    pose proof (sorted_before_last pre' post' init blk head Hinit Hsorted).
    lia.
Qed.

End Chain.
End Reading.

(* ===================================================================== *)
(** ** The reader and the auditor on concrete ledgers *)
(* ===================================================================== *)

Module ReadingRuns.
Import NetFacts ChainReader Auditor Ledgers Reading.

(** The chain [B0 .. B5] with head [h5], read while nobody writes. *)
Definition ledger5 : Server := frozen "h5" store6 [].

(** The same ledger with the fetch of [B2] timing out. *)
Definition ledger5_without_B2 : Server := frozen "h5" store6 ["h2"].

(** The head is [B5] at the first request and [B6] from then on. *)
Definition ledger_growing : Server :=
  moving (fun served => if Nat.eqb served 0 then "h5" else "h6") store6.

Definition chain5 : list Block := [B0; B1; B2; B3; B4; B5].
Definition chain6 : list Block := [B0; B1; B2; B3; B4; B5; B6].

Definition reply_h5 : Response BlockBody :=
  mkResponse 200 (Some (block_body "h5" B5)).

Definition trace5 : list Event :=
  Eval vm_compute in snd (@CheckTxDepth.get_chain_from_head ledger5 10 tt).

Lemma ledger5_serves : @serves ledger5 tt (map Rec chain5) AtGenesis.
Proof.
  exists reply_h5, (Value "h5"), (Rec B5), [B4; B3; B2; B1; B0].
  do 4 (split; [reflexivity|]). split; [discriminate|].
  do 5 (eapply walk_step; [reflexivity | reflexivity | reflexivity
                           | reflexivity | reflexivity | ]).
  now apply walk_genesis.
Qed.

Lemma ledger5_without_B2_serves :
  @serves ledger5_without_B2 tt (map Rec [B3; B4; B5]) AtFailedFetch.
Proof.
  exists reply_h5, (Value "h5"), (Rec B5), [B4; B3].
  do 4 (split; [reflexivity|]). split; [discriminate|].
  do 2 (eapply walk_step; [reflexivity | reflexivity | reflexivity
                           | reflexivity | reflexivity | ]).
  apply walk_failed; [reflexivity | exact I].
Qed.

Lemma chain_ordering_witness :
  exists w' tr,
    @CheckTxDepth.get_chain_from_head ledger5 6 tt
      = (Return (map Rec chain5), w', tr)
    /\ @MineFast.get_chain_from_head ledger5 6 tt
      = (Return (map Rec chain5), w', tr)
    /\ StronglySorted Z.lt (map blk_index chain5)
    /\ NoDup (map Rec chain5).
Proof.
  destruct (@chain_ordering ledger5 tt chain5 6 ledger5_serves eq_refl
              (le_n 6))
    as (out & w' & tr & H1 & H2 & -> & Hs & Hn).
  exists w', tr. auto.
Defined.

Lemma truncation_tolerance_witness :
  exists w' tr,
    @CheckTxDepth.get_chain_from_head ledger5_without_B2 3 tt
      = (Return (map Rec [B3; B4; B5]), w', tr)
    /\ @MineFast.get_chain_from_head ledger5_without_B2 3 tt
      = (Return (map Rec [B3; B4; B5]), w', tr).
Proof.
  exact (@truncation_tolerance ledger5_without_B2 tt [B3; B4; B5] 3
           ledger5_without_B2_serves (le_n 3)).
Defined.

Lemma chain5_sorted : StronglySorted Z.lt (map blk_index chain5).
Proof. repeat constructor. Qed.

Lemma confirmation_depth_witness :
  @CheckTxDepth.check_depth ledger5 10 "n1" tt
    = (Return (Some (CheckTxDepth.mkDepth 2 5 3)), tt,
       GetBlock None (Some reply_h5) :: trace5)
  /\ @CheckTxDepth.main ledger5 10 "n1" tt
    = (Return tt, tt,
       GetBlock None (Some reply_h5)
         :: trace5
         ++ [Print ("nonce=n1" ++ CheckTxDepth.newline
                    ++ "  mined_in_block_index=2" ++ CheckTxDepth.newline
                    ++ "  head_index=5" ++ CheckTxDepth.newline
                    ++ "  confirmations=3")])%list
  /\ 0 <= 3.
Proof.
  destruct (@confirmation_depth ledger5 10 "n1" tt tt reply_h5 "h5" B5
              (map Rec chain5) (map Rec [B0; B1]) (map Rec [B3; B4; B5]) B2
              trace5
              eq_refl eq_refl eq_refl eq_refl eq_refl eq_refl eq_refl)
    as (Hrun & Hmain & Hpos).
  split; [exact Hrun|]. split; [exact Hmain|].
  apply (Hpos chain5);
    [reflexivity | exists [B0; B1; B2; B3; B4]; reflexivity
     | exact chain5_sorted].
Defined.

(** C5 as stated fails.  The chain only grows: read from the start it is
    [B0 .. B5], read one request later it is [B0 .. B6].  The auditor reads
    the head [B5] first and the chain afterwards, finds the nonce in [B6]
    and reports [5 - 6 = -1] confirmations. *)
Lemma confirmation_depth_negative_when_chain_grows :
  fst (fst (@CheckTxDepth.get_chain_from_head ledger_growing 10 0%nat))
    = Return (map Rec chain5)
  /\ fst (fst (@CheckTxDepth.get_chain_from_head ledger_growing 10 1%nat))
    = Return (map Rec chain6)
  /\ fst (fst (@CheckTxDepth.check_depth ledger_growing 10 "n9" 0%nat))
    = Return (Some (CheckTxDepth.mkDepth 6 5 (-1)))
  /\ ~ 0 <= -1.
Proof.
  split; [reflexivity|]. split; [reflexivity|]. split; [reflexivity|]. lia.
Qed.

End ReadingRuns.

(* ===================================================================== *)
(** ** Properties of the mining orchestrator *)
(* ===================================================================== *)

Module Mining.
Import NetFacts Miner.

Section Orchestrator.
Context `{Server}.
Variable sha256_hexdigest : string -> string.

(** C1 (staleness abort).  Take one pass of [mine_empty_with_nice] whose
    pool snapshot reports the head digest [H0], the [prev_hash] of the
    template and the [base_head] of the search.  Every later pool read of
    the pass is a staleness check, either at a nonce boundary of the search
    or the final one.  If any of them reports a digest other than [H0], the
    pass submits no block and is abandoned: it goes on to the next pass,
    or ends with the exception of a later read. *)
Theorem staleness_abort (fuel : nat) (who : string) (w w' : World)
    (r : Outcome (Flow unit bool)) (snap : Event) (rest : list Event)
    (H0 : option string) :
  MineFast.mine_attempt sha256_hexdigest fuel who w = (r, w', snap :: rest) ->
  reported_head snap = Some H0 ->
  existsb (stale H0) rest = true ->
  forallb (fun e => negb (is_post e)) (snap :: rest) = true
  /\ (r = Return (Continue tt) \/ exists e, r = Raise e).
Proof.
  intros Hrun Hhead Hstale.
  apply mine_attempt_shape in Hrun.
  exact (shape_stale sha256_hexdigest who r snap rest H0 Hrun Hhead Hstale).
Qed.

(** C2 (no-transfer invariant).  Every block that [mine_empty_with_nice],
    and so [mine_nice_fast], submits carries [nice == who] and an empty
    [txs] list. *)
Theorem no_transfer_invariant (fuel : nat) (target : Z) (who : string) :
  (forall w r w' tr,
      MineFast.mine_empty_with_nice sha256_hexdigest fuel who w = (r, w', tr) ->
      forall block reply,
        In (PostBlock block reply) tr -> marked_empty who block)
  /\ (forall w r w' tr,
         MineFast.mine_nice_fast sha256_hexdigest fuel target who w
           = (r, w', tr) ->
         forall block reply,
           In (PostBlock block reply) tr -> marked_empty who block).
Proof.
  set (P := fun e => forall block reply,
                e = PostBlock block reply -> marked_empty who block).
  assert (Hmine : emits P
                    (MineFast.mine_empty_with_nice sha256_hexdigest fuel who)).
  { rewrite mine_empty_with_nice_unfold. apply mine_loop_passes.
    intros r tr Hshape. apply Forall_forall. intros e Hin block reply ->.
    exact (shape_posts sha256_hexdigest who r tr Hshape block reply Hin). }
  split.
  - intros w r w' tr Hrun block reply Hin.
    specialize (Hmine _ _ _ _ Hrun). rewrite Forall_forall in Hmine.
    exact (Hmine _ Hin block reply eq_refl).
  - intros w r w' tr Hrun block reply Hin.
    assert (Hall : Forall P tr).
    { eapply (mine_nice_fast_emits sha256_hexdigest P fuel target who);
        [ | | exact Hmine | exact Hrun]; intros; intros ? ? [=]. }
    rewrite Forall_forall in Hall.
    exact (Hall _ Hin block reply eq_refl).
Qed.

(** C3 (policy enforcement).  A pass whose pool snapshot holds a
    transaction with [src == who] or [dst == who] builds no template: it
    does nothing but sleep a tenth of a second and hand over to the next
    pass, which starts with a new snapshot; and a pass that fetches the
    parent block, searches or submits holds a snapshot in which no
    transaction has [who] as its source or as its destination. *)
Theorem policy_enforcement (fuel : nat) (who : string) (w : World) :
  (forall h txs,
      pool_view (snd (srv_txpool w)) = Return (h, txs) ->
      (exists tx,
          In tx txs /\ (tx_src tx = Some who \/ tx_dst tx = Some who)) ->
      MineFast.mine_attempt sha256_hexdigest fuel who w
        = (Return (Continue tt), srv_sleep 100 (fst (srv_txpool w)),
           [GetTxpool (snd (srv_txpool w)); Sleep 100])
      /\ forall n,
          while (S n)
            (fun _ => MineFast.mine_attempt sha256_hexdigest fuel who) tt w
          = (let '(r, w2, t2) :=
               while n
                 (fun _ => MineFast.mine_attempt sha256_hexdigest fuel who) tt
                     (srv_sleep 100 (fst (srv_txpool w))) in
             (r, w2, GetTxpool (snd (srv_txpool w)) :: Sleep 100 :: t2)))
  /\ (forall r w' tr,
         MineFast.mine_attempt sha256_hexdigest fuel who w = (r, w', tr) ->
         existsb (fun e => is_get_block e || is_post e) tr = true ->
         exists snap rest txs,
           tr = snap :: rest
           /\ reported_txs snap = Some txs
           /\ forall tx, In tx txs ->
                tx_src tx <> Some who /\ tx_dst tx <> Some who).
Proof.
  split.
  - intros h txs Hv Ht. apply (touches_who_references who txs) in Ht.
    assert (Hpass : MineFast.mine_attempt sha256_hexdigest fuel who w
                    = (Return (Continue tt), srv_sleep 100 (fst (srv_txpool w)),
                       [GetTxpool (snd (srv_txpool w)); Sleep 100])).
    { rewrite mine_attempt_unfold, bind_get_txpool, Hv, Ht. reflexivity. }
    split; [exact Hpass|]. intros n.
    rewrite while_S. unfold bind at 1. rewrite Hpass.
    destruct (while n
      (fun _ => MineFast.mine_attempt sha256_hexdigest fuel who) tt
                (srv_sleep 100 (fst (srv_txpool w)))) as [[r w2] t2].
    reflexivity.
  - intros r w' tr Hrun Hex. apply mine_attempt_shape in Hrun.
    destruct (shape_proceeds sha256_hexdigest who r tr Hrun Hex)
      as (snap & rest & txs & Etr & Htxs & Hclean).
    exists snap, rest, txs. split; [exact Etr|]. split; [exact Htxs|].
    intros tx Hin. apply (clean_snapshot who txs) in Hin; [|exact Hclean].
    unfold references in Hin. tauto.
Qed.

(** C9, as the code has it.  A submission answered with a status other
    than 200 is a rejection: the pass sleeps and hands over to the next one.
    A network fault, that is a request on which [requests] raises, is not
    caught anywhere in [mine_empty_with_nice]: whichever request of the run
    it hits (pool read, parent fetch or submission), the run ends there
    with that exception; and [mine_nice_fast] ends with it too, whether the
    fault hits a pool read, a submission, or the parent fetch, the request
    that follows a pool snapshot at once. *)
Theorem faults_end_the_run (fuel : nat) (target : Z) (who : string) :
  (forall w r w' tr block status,
      MineFast.mine_attempt sha256_hexdigest fuel who w = (r, w', tr) ->
      In (PostBlock block (Some status)) tr ->
      status <> 200 ->
      r = Return (Continue tt)
      /\ exists tr0,
          tr = (tr0 ++ [PostBlock block (Some status); Sleep 50])%list)
  /\ (forall w r w' tr,
         MineFast.mine_empty_with_nice sha256_hexdigest fuel who w
           = (r, w', tr) ->
         existsb faulted tr = true ->
         r = Raise RequestException)
  /\ (forall w r w' tr,
         MineFast.mine_nice_fast sha256_hexdigest fuel target who w
           = (r, w', tr) ->
         existsb pool_or_post_fault tr = true \/ parent_fault tr = true ->
         r = Raise RequestException).
Proof.
  split; [|split].
  - intros w r w' tr block status Hrun Hin Hne.
    apply mine_attempt_shape in Hrun.
    exact (shape_rejected sha256_hexdigest who r tr block status Hrun Hin Hne).
  - intros w r w' tr Hrun Hex. rewrite mine_empty_with_nice_unfold in Hrun.
    exact (mine_loop_fault sha256_hexdigest fuel who fuel w r w' tr Hrun Hex).
  - intros w r w' tr Hrun [Hex|Hex].
    + exact (mine_nice_fast_stops sha256_hexdigest fuel target who
               w r w' tr Hrun Hex).
    + exact (proj1 (mine_nice_fast_tidy sha256_hexdigest fuel target who
                      w r w' tr Hrun) Hex).
Qed.

(** C10.  When [mine_empty_with_nice] returns, it returns [True], and the
    last thing it did was a submission answered with status 200; so the
    [else] branch of [mine_nice_fast] is never taken: its line is never
    printed. *)
Theorem mine_returns_only_true (fuel : nat) (target : Z) (who : string) :
  (forall w v w' tr,
      MineFast.mine_empty_with_nice sha256_hexdigest fuel who w
        = (Return v, w', tr) ->
      v = true
      /\ exists tr0 block, tr = (tr0 ++ [PostBlock block (Some 200)])%list)
  /\ (forall w r w' tr,
         MineFast.mine_nice_fast sha256_hexdigest fuel target who w
           = (r, w', tr) ->
         ~ In (Print MineFast.line_rejected) tr).
Proof.
  split.
  - intros w v w' tr Hrun. rewrite mine_empty_with_nice_unfold in Hrun.
    exact (mine_loop_return sha256_hexdigest fuel who fuel w v w' tr Hrun).
  - intros w r w' tr Hrun Hin.
    set (P := fun e => e <> Print MineFast.line_rejected).
    assert (Hall : Forall P tr).
    { eapply (mine_nice_fast_emits sha256_hexdigest P fuel target who);
        [ | | | exact Hrun].
      - intros h reply. discriminate.
      - intros line Hne [= E]. contradiction.
      - rewrite mine_empty_with_nice_unfold. apply mine_loop_passes.
        intros r0 tr0 Hshape. apply Forall_forall. intros e He ->.
        exact (shape_no_print sha256_hexdigest who r0 tr0 Hshape _ He). }
    rewrite Forall_forall in Hall. exact (Hall _ Hin eq_refl).
Qed.

End Orchestrator.
End Mining.

(* ===================================================================== *)
(** ** The orchestrator on concrete ledgers *)
(* ===================================================================== *)

Module MiningRuns.
Import NetFacts Miner Ledgers Mining.

(** The chain [B0 .. B5] with head [h5]; pool reads and submissions are
    answered from the scripts of the world. *)
Definition ledger : Server := scripted "h5" store6.

Definition parent_h5 : Event :=
  GetBlock (Some "h5") (ok (block_body "h5" B5)).

(** The template on [B5] with nonce [n]. *)
Definition candidate (n : Z) : json :=
  set_item "nonce" (JInt n) (MineFast.new_block 5 (Some "h5") "hacker").

(** The head moves to [h6] while the search runs: the check at nonce 512
    sees it, although the head is back at [h5] for the final check. *)
Definition world_moving_at_512 : @World ledger :=
  ([pool "h5" []; pool "h6" []; pool "h5" []], [Some 200]).

(** The head moves to [h6] just as nonce 3 meets the target. *)
Definition world_moving_at_success : @World ledger :=
  ([pool "h5" []; pool "h6" []], [Some 200]).

Lemma staleness_abort_witness :
  @MineFast.mine_attempt ledger digest_never 600 "hacker" world_moving_at_512
    = (Return (Continue tt), ([], [Some 200]),
       [GetTxpool (pool "h5" []); parent_h5;
        GetTxpool (pool "h6" []); GetTxpool (pool "h5" [])])
  /\ @MineFast.mine_attempt ledger digest_at_3 600 "hacker"
       world_moving_at_success
     = (Return (Continue tt), ([], [Some 200]),
        [GetTxpool (pool "h5" []); parent_h5; GetTxpool (pool "h6" [])])
  /\ forallb (fun e => negb (is_post e))
       [GetTxpool (pool "h5" []); parent_h5;
        GetTxpool (pool "h6" []); GetTxpool (pool "h5" [])] = true
  /\ forallb (fun e => negb (is_post e))
       [GetTxpool (pool "h5" []); parent_h5; GetTxpool (pool "h6" [])] = true.
Proof.
  assert (E1 : @MineFast.mine_attempt ledger digest_never 600 "hacker"
                 world_moving_at_512
               = (Return (Continue tt), ([], [Some 200]),
                  [GetTxpool (pool "h5" []); parent_h5;
                   GetTxpool (pool "h6" []); GetTxpool (pool "h5" [])]))
    by (vm_compute; reflexivity).
  assert (E2 : @MineFast.mine_attempt ledger digest_at_3 600 "hacker"
                 world_moving_at_success
               = (Return (Continue tt), ([], [Some 200]),
                  [GetTxpool (pool "h5" []); parent_h5;
                   GetTxpool (pool "h6" [])]))
    by (vm_compute; reflexivity).
  split; [exact E1|]. split; [exact E2|]. split.
  - exact (proj1 (@staleness_abort ledger digest_never 600 "hacker"
                    world_moving_at_512 _ _ _ _ (Some "h5")
                    E1 eq_refl eq_refl)).
  - exact (proj1 (@staleness_abort ledger digest_at_3 600 "hacker"
                    world_moving_at_success _ _ _ _ (Some "h5")
                    E2 eq_refl eq_refl)).
Defined.

(** Two clean passes: the first submission is refused with status 500, the
    second is accepted. *)
Definition world_refused_once : @World ledger :=
  ([pool "h5" []; pool "h5" []; pool "h5" []; pool "h5" []],
   [Some 500; Some 200]).

Definition trace_refused_once : list Event :=
  [GetTxpool (pool "h5" []); parent_h5; GetTxpool (pool "h5" []);
   PostBlock (candidate 3) (Some 500); Sleep 50;
   GetTxpool (pool "h5" []); parent_h5; GetTxpool (pool "h5" []);
   PostBlock (candidate 3) (Some 200)].

Lemma run_refused_once :
  @MineFast.mine_empty_with_nice ledger digest_at_3 5 "hacker"
    world_refused_once
  = (Return true, ([], []), trace_refused_once).
Proof. vm_compute. reflexivity. Qed.

(** The accepting ledger from [B0 .. B5]: two blocks are mined and the
    target of two marked blocks is reached. *)
Definition chain_to_B5 : @World accepting := [B5; B4; B3; B2; B1; B0].

Definition run_to_target :
    Outcome unit * @World accepting * list Event :=
  Eval vm_compute in
    @MineFast.mine_nice_fast accepting digest_at_3 10 2 "hacker" chain_to_B5.

Lemma run_to_target_eq :
  @MineFast.mine_nice_fast accepting digest_at_3 10 2 "hacker" chain_to_B5
  = (Return tt, snd (fst run_to_target), snd run_to_target).
Proof. vm_compute. reflexivity. Qed.

Lemma no_transfer_invariant_witness :
  marked_empty "hacker" (candidate 3)
  /\ existsb is_post (snd run_to_target) = true
  /\ forall block reply,
      In (PostBlock block reply) (snd run_to_target) ->
      marked_empty "hacker" block.
Proof.
  split; [|split; [reflexivity|]].
  - apply (proj1 (@no_transfer_invariant ledger digest_at_3 5 0 "hacker")
             _ _ _ _ run_refused_once (candidate 3) (Some 500)).
    unfold trace_refused_once. simpl. auto.
  - exact (proj2 (@no_transfer_invariant accepting digest_at_3 10 2 "hacker")
             _ _ _ _ run_to_target_eq).
Defined.

(** A snapshot with a pending transfer from the target identity, and one
    with a pending transfer to it. *)
Definition world_tainted : @World ledger :=
  ([pool "h5" [tx "alice" "bob" "n7"; tx "hacker" "bob" "n8"]; pool "h5" []],
   [Some 200]).

Definition world_tainted_dst : @World ledger :=
  ([pool "h5" [tx "alice" "hacker" "n7"]; pool "h5" []], [Some 200]).

Lemma policy_enforcement_witness :
  @MineFast.mine_attempt ledger digest_at_3 5 "hacker" world_tainted
    = (Return (Continue tt), ([pool "h5" []], [Some 200]),
       [GetTxpool (pool "h5" [tx "alice" "bob" "n7"; tx "hacker" "bob" "n8"]);
        Sleep 100])
  /\ @MineFast.mine_attempt ledger digest_at_3 5 "hacker" world_tainted_dst
    = (Return (Continue tt), ([pool "h5" []], [Some 200]),
       [GetTxpool (pool "h5" [tx "alice" "hacker" "n7"]); Sleep 100])
  /\ exists snap rest txs,
      trace_refused_once = snap :: rest
      /\ reported_txs snap = Some txs
      /\ forall t, In t txs ->
           tx_src t <> Some "hacker" /\ tx_dst t <> Some "hacker".
Proof.
  split; [|split].
  - refine (proj1 (proj1 (@policy_enforcement ledger digest_at_3 5 "hacker"
                            world_tainted)
                     (Some "h5") _ eq_refl _)).
    exists (tx "hacker" "bob" "n8"). split; [simpl; auto | left; reflexivity].
  - refine (proj1 (proj1 (@policy_enforcement ledger digest_at_3 5 "hacker"
                            world_tainted_dst)
                     (Some "h5") _ eq_refl _)).
    exists (tx "alice" "hacker" "n7").
    split; [simpl; auto | right; reflexivity].
  - assert (E : @MineFast.mine_attempt ledger digest_at_3 5 "hacker"
                  ([pool "h5" []; pool "h5" []], [Some 200])
                = (Return (Break true), ([], []),
                   [GetTxpool (pool "h5" []); parent_h5;
                    GetTxpool (pool "h5" []);
                    PostBlock (candidate 3) (Some 200)]))
      by (vm_compute; reflexivity).
    destruct (proj2 (@policy_enforcement ledger digest_at_3 5 "hacker" _)
                _ _ _ E eq_refl)
      as (snap & rest & txs & Etr & Htxs & Hclean).
    injection Etr as <- <-.
    eexists _, _, txs. split; [reflexivity|]. split; assumption.
Defined.

(** Only the genesis block is there and the pool is empty; a fetch by
    digest, as the parent fetch is, times out. *)
Definition ledger_parent_down : Server := {|
  World := unit;
  srv_block := fun hash w =>
    (w, match hash with
        | None => ok (block_body "h0" B0)
        | Some _ => None
        end);
  srv_txpool := fun w => (w, pool "h0" []);
  srv_post := fun _ w => (w, Some 200);
  srv_sleep := fun _ w => w
|}.

Definition trace_parent_down : list Event :=
  [GetBlock None (ok (block_body "h0" B0));
   Print (MineFast.line_current "hacker" 0 1);
   GetTxpool (pool "h0" []); GetBlock (Some "h0") None].

(** The pool read times out; the submission times out. *)
Definition world_pool_timeout : @World ledger := ([], []).
Definition world_post_timeout : @World ledger :=
  ([pool "h5" []; pool "h5" []], []).

Lemma run_pool_timeout :
  @MineFast.mine_empty_with_nice ledger digest_at_3 5 "hacker"
    world_pool_timeout
  = (Raise RequestException, ([], []), [GetTxpool None]).
Proof. vm_compute. reflexivity. Qed.

Lemma run_post_timeout :
  @MineFast.mine_empty_with_nice ledger digest_at_3 5 "hacker"
    world_post_timeout
  = (Raise RequestException, ([], []),
     [GetTxpool (pool "h5" []); parent_h5; GetTxpool (pool "h5" []);
      PostBlock (candidate 3) None]).
Proof. vm_compute. reflexivity. Qed.

(** C9 as stated fails: on a pool read that times out, and on a submission
    that times out, [mine_empty_with_nice] ends with the exception, and
    [mine_nice_fast] with it; nothing is retried.  The same holds of a
    parent fetch that times out. *)
Lemma orchestrator_ends_on_network_fault :
  fst (fst (@MineFast.mine_nice_fast ledger_parent_down digest_at_3 5 1
              "hacker" tt))
    = Raise RequestException
  /\ fst (fst (@MineFast.mine_empty_with_nice ledger digest_at_3 5 "hacker"
              world_pool_timeout))
    = Raise RequestException
  /\ fst (fst (@MineFast.mine_empty_with_nice ledger digest_at_3 5 "hacker"
                 world_post_timeout))
    = Raise RequestException
  /\ fst (fst (@MineFast.mine_nice_fast ledger digest_at_3 10 1 "hacker"
                 world_pool_timeout))
    = Raise RequestException
  /\ fst (fst (@MineFast.mine_nice_fast ledger digest_at_3 10 1 "hacker"
                 world_post_timeout))
    = Raise RequestException.
Proof. repeat split; vm_compute; reflexivity. Qed.

Lemma faults_end_the_run_witness :
  (exists tr0,
      [GetTxpool (pool "h5" []); parent_h5; GetTxpool (pool "h5" []);
       PostBlock (candidate 3) (Some 500); Sleep 50]
      = (tr0 ++ [PostBlock (candidate 3) (Some 500); Sleep 50])%list)
  /\ Raise RequestException = @Raise bool RequestException
  /\ snd (@MineFast.mine_nice_fast ledger_parent_down digest_at_3 5 1
            "hacker" tt) = trace_parent_down
  /\ fst (fst (@MineFast.mine_nice_fast ledger_parent_down digest_at_3 5 1
                 "hacker" tt)) = Raise RequestException.
Proof.
  split; [|split; [|split; [vm_compute; reflexivity|]]].
  - assert (E : @MineFast.mine_attempt ledger digest_at_3 5 "hacker"
                  world_refused_once
                = (Return (Continue tt),
                   ([pool "h5" []; pool "h5" []], [Some 200]),
                   [GetTxpool (pool "h5" []); parent_h5;
                    GetTxpool (pool "h5" []);
                    PostBlock (candidate 3) (Some 500); Sleep 50]))
      by (vm_compute; reflexivity).
    refine (proj2 (proj1 (@faults_end_the_run ledger digest_at_3 5 0 "hacker")
                     _ _ _ _ (candidate 3) 500 E _ _)).
    + simpl. auto.
    + discriminate.
  - exact (proj1 (proj2 (@faults_end_the_run ledger digest_at_3 5 0 "hacker"))
             _ _ _ _ run_post_timeout eq_refl).
  - assert (E : @MineFast.mine_nice_fast ledger_parent_down digest_at_3 5 1
                  "hacker" tt
                = (fst (fst (@MineFast.mine_nice_fast ledger_parent_down
                               digest_at_3 5 1 "hacker" tt)),
                   tt, trace_parent_down))
      by (vm_compute; reflexivity).
    exact (proj2 (proj2 (@faults_end_the_run ledger_parent_down digest_at_3
                           5 1 "hacker"))
             _ _ _ _ E (or_intror eq_refl)).
Defined.

Lemma mine_returns_only_true_witness :
  (true = true
   /\ exists tr0 block,
       trace_refused_once = (tr0 ++ [PostBlock block (Some 200)])%list)
  /\ ~ In (Print MineFast.line_rejected) (snd run_to_target).
Proof.
  split.
  - exact (proj1 (@mine_returns_only_true ledger digest_at_3 5 0 "hacker")
             _ _ _ _ run_refused_once).
  - exact (proj2 (@mine_returns_only_true accepting digest_at_3 10 2 "hacker")
             _ _ _ _ run_to_target_eq).
Defined.

End MiningRuns.

(* ===================================================================== *)
(** ** More on the chain reader and the auditor *)
(* ===================================================================== *)

Module ReaderMore.
Import NetFacts ChainReader Auditor.

Section More.
Context `{Server}.

(** What [get_head] makes of the reply to [GET /block]. *)
Definition head_view (reply : option (Response BlockBody))
  : Outcome (option string * option Dict) :=
  match parsed reply with
  | Return j =>
      match bb_hash j, bb_block j with
      | Missing, _ => Raise KeyError
      | _, Missing => Raise KeyError
      | hash, block => Return (field_get hash, field_get block)
      end
  | Raise e => Raise e
  | OutOfFuel => OutOfFuel
  end.

Lemma get_head_view (w : World) :
  CheckTxDepth.get_head w
  = (head_view (snd (srv_block None w)), fst (srv_block None w),
     [GetBlock None (snd (srv_block None w))]).
Proof.
  unfold CheckTxDepth.get_head. unfold bind at 1.
  rewrite http_get_block_run. unfold head_view, parsed.
  destruct (checked (snd (srv_block None w))) as [r|e|]; try reflexivity.
  unfold bind at 1, json_of. destruct (body r) as [j|]; [|reflexivity].
  cbn [ret]. unfold bind, subscript.
  destruct (bb_hash j) as [| |hash]; [reflexivity | |];
    destruct (bb_block j) as [| |b]; reflexivity.
Qed.

Lemma head_view_return reply hash head :
  head_view reply = Return (hash, Some head) ->
  exists r jh,
    reply = Some r
    /\ bad_status (status_code r) = false
    /\ body r = Some (mkBlockBody jh (Value head))
    /\ jh <> Missing.
Proof.
  unfold head_view, parsed, checked. destruct reply as [r|]; [|discriminate].
  destruct (bad_status (status_code r)) eqn:Hb; [discriminate|].
  destruct (body r) as [[jh jb]|] eqn:Hj; [|discriminate].
  simpl. destruct jh as [| |h]; [discriminate | |];
    (destruct jb as [| |b]; [discriminate | discriminate |]);
    simpl; intros [= <- <-]; exists r; eexists;
    (split; [reflexivity|]); (split; [exact Hb|]);
    (split; [exact Hj | discriminate]).
Qed.

(** How a head read fails: [requests] raises, the status is an error
    status, the body is not JSON, or one of the keys [hash] and [block] is
    missing from it. *)
Definition head_read_fails (reply : option (Response BlockBody)) (e : Exn)
  : Prop :=
  match reply with
  | None => e = RequestException
  | Some r =>
      if bad_status (status_code r) then e = HTTPError
      else
        match body r with
        | None => e = JSONDecodeError
        | Some j =>
            (bb_hash j = Missing \/ bb_block j = Missing) /\ e = KeyError
        end
  end.

Lemma head_read_fails_view reply e :
  head_read_fails reply e -> head_view reply = Raise e.
Proof.
  unfold head_read_fails, head_view, parsed, checked.
  destruct reply as [r|]; [|now intros ->].
  destruct (bad_status (status_code r)); [now intros ->|].
  destruct (body r) as [[jh jb]|]; [|now intros ->].
  simpl. intros [[-> | ->] ->]; [reflexivity|]. now destruct jh.
Qed.

(** A head reply with a good status that carries both keys. *)
Lemma head_view_good reply r hash block :
  reply = Some r ->
  bad_status (status_code r) = false ->
  body r = Some (mkBlockBody hash block) ->
  hash <> Missing ->
  block <> Missing ->
  head_view reply = Return (field_get hash, field_get block).
Proof.
  intros -> Hb Hj Hh Hk. unfold head_view, parsed, checked.
  rewrite Hb, Hj. simpl.
  destruct hash; [contradiction | |]; now destruct block.
Qed.

Lemma checked_fuel {A} (reply : option (Response A)) :
  checked reply <> OutOfFuel.
Proof.
  unfold checked. destruct reply as [r|]; [|discriminate].
  destruct (bad_status (status_code r)); discriminate.
Qed.

(** One turn of the [while current_hash:] loop, in closed form. *)
Lemma walk_body_run (chain : list Dict) (cur : option string) (w : World) :
  walk_body (chain, cur) w
  = if truthy cur then
      let reply := snd (srv_block cur w) in
      let w1 := fst (srv_block cur w) in
      match checked reply with
      | Raise _ => (Return (Break chain), w1, [GetBlock cur reply])
      | OutOfFuel => (OutOfFuel, w1, [GetBlock cur reply])
      | Return r =>
          match body r with
          | None => (Raise JSONDecodeError, w1, [GetBlock cur reply])
          | Some j =>
              match bb_block j with
              | Value (Rec blk) =>
                  (Return (Continue ((chain ++ [Rec blk])%list,
                                     blk_prev_hash blk)),
                   w1, [GetBlock cur reply])
              | _ => (Return (Break chain), w1, [GetBlock cur reply])
              end
          end
      end
    else (Return (Break chain), w, []).
Proof.
  unfold walk_body. destruct (truthy cur); [|reflexivity].
  unfold bind at 1. unfold try_except. unfold bind at 1.
  rewrite http_get_block_run.
  destruct (checked (snd (srv_block cur w))) as [r|e|]; try reflexivity.
  cbn [ret app]. unfold bind, json_of.
  destruct (body r) as [j|]; [|reflexivity].
  cbn [ret]. destruct (bb_block j) as [| |[|b]]; reflexivity.
Qed.

(** Whatever the loop returns, the service handed out. *)
Lemma while_walk_inv (fuel : nat) :
  forall chain cur w out w' tr,
    while fuel walk_body (chain, cur) w = (Return out, w', tr) ->
    exists older e, out = (chain ++ map Rec older)%list /\ walk w cur older e.
Proof.
  induction fuel as [|fuel IH]; intros chain cur w out w' tr Hrun;
    [discriminate|].
  rewrite while_S in Hrun. unfold bind at 1 in Hrun.
  rewrite walk_body_run in Hrun.
  destruct (truthy cur) eqn:Ht.
  - cbv zeta in Hrun.
    destruct (snd (srv_block cur w)) as [r|] eqn:Hreply.
    + unfold checked in Hrun.
      destruct (bad_status (status_code r)) eqn:Hb.
      * injection Hrun as <- <- <-.
        exists [], AtFailedFetch. rewrite app_nil_r. split; [reflexivity|].
        apply walk_failed; [exact Ht|]. rewrite Hreply. simpl. auto.
      * destruct (body r) as [j|] eqn:Hj; [|discriminate].
        assert (Hfail : falsy (field_get (bb_block j)) = true ->
                        walk w cur [] AtFailedFetch).
        { intros Hk. apply walk_failed; [exact Ht|].
          rewrite Hreply. simpl. eauto. }
        destruct (bb_block j) as [| |[|blk]] eqn:Hk.
        -- injection Hrun as <- <- <-.
           exists [], AtFailedFetch. rewrite app_nil_r. auto.
        -- injection Hrun as <- <- <-.
           exists [], AtFailedFetch. rewrite app_nil_r. auto.
        -- injection Hrun as <- <- <-.
           exists [], AtFailedFetch. rewrite app_nil_r. auto.
        -- destruct (while fuel walk_body
                       ((chain ++ [Rec blk])%list, blk_prev_hash blk)
                       (fst (srv_block cur w))) as [[r2 w2] t2] eqn:Hrest.
           injection Hrun as -> <- <-.
           destruct (IH _ _ _ _ _ _ Hrest) as (older & e & -> & Hw).
           exists (blk :: older), e. rewrite <- app_assoc.
           split; [reflexivity|].
           eapply walk_step; eassumption.
    + simpl in Hrun. injection Hrun as <- <- <-.
      exists [], AtFailedFetch. rewrite app_nil_r. split; [reflexivity|].
      apply walk_failed; [exact Ht|]. now rewrite Hreply.
  - injection Hrun as <- <- <-.
    exists [], AtGenesis. rewrite app_nil_r. split; [reflexivity|].
    now apply walk_genesis.
Qed.

Lemma get_chain_from_head_run (fuel : nat) (w : World) hash head :
  head_view (snd (srv_block None w)) = Return (hash, Some head) ->
  CheckTxDepth.get_chain_from_head fuel w
  = (let '(r, w2, t2) :=
       while fuel walk_body ([head], get_prev_hash head)
             (fst (srv_block None w)) in
     (match r with
      | Return chain => Return (rev chain)
      | Raise e => Raise e
      | OutOfFuel => OutOfFuel
      end, w2, GetBlock None (snd (srv_block None w)) :: t2)).
Proof.
  intros Hv. rewrite get_chain_from_head_unfold. unfold bind at 1.
  rewrite get_head_view, Hv. unfold bind.
  destruct (while fuel walk_body ([head], get_prev_hash head)
              (fst (srv_block None w))) as [[[chain|e|] w2] t2];
    try reflexivity.
  cbn [ret app]. now rewrite app_nil_r.
Qed.

Lemma get_chain_from_head_raise (fuel : nat) (w : World) e :
  head_view (snd (srv_block None w)) = Raise e ->
  CheckTxDepth.get_chain_from_head fuel w
  = (Raise e, fst (srv_block None w),
     [GetBlock None (snd (srv_block None w))]).
Proof.
  intros Hv. rewrite get_chain_from_head_unfold. unfold bind.
  rewrite get_head_view, Hv. reflexivity.
Qed.

Lemma get_chain_from_head_null (fuel : nat) (w : World) hash :
  head_view (snd (srv_block None w)) = Return (hash, None) ->
  CheckTxDepth.get_chain_from_head fuel w
  = (Raise AttributeError, fst (srv_block None w),
     [GetBlock None (snd (srv_block None w))]).
Proof.
  intros Hv. rewrite get_chain_from_head_unfold. unfold bind.
  rewrite get_head_view, Hv. reflexivity.
Qed.

(** X1.  Whatever [get_chain_from_head] returns is what the service handed
    out: the head it read, preceded by the blocks reached one by one through
    [prev_hash], up to a block without [prev_hash] or a fetch that failed.
    In particular the result is never empty and ends with the head; and it
    is made of block records, unless the head came as [{}], which is then
    returned alone. *)
Theorem returned_chain_was_served (fuel : nat) (w w' : World)
    (chain : list Dict) (tr : list Event) :
  CheckTxDepth.get_chain_from_head fuel w = (Return chain, w', tr) ->
  (exists e, serves w chain e)
  /\ (exists hash head older,
        head_view (snd (srv_block None w)) = Return (hash, Some head)
        /\ chain = (map Rec (rev older) ++ [head])%list)
  /\ (chain = [Empty] \/ exists blocks, chain = map Rec blocks).
Proof.
  intros Hrun.
  destruct (head_view (snd (srv_block None w))) as [[hash [head|]]|e|] eqn:Hv.
  - rewrite (get_chain_from_head_run fuel w hash head Hv) in Hrun.
    destruct (while fuel walk_body ([head], get_prev_hash head)
                (fst (srv_block None w))) as [[[out|e|] w2] t2] eqn:Hloop;
      try discriminate.
    injection Hrun as <- <- <-.
    destruct (while_walk_inv _ _ _ _ _ _ _ Hloop) as (older & e & -> & Hw).
    destruct (head_view_return _ _ _ Hv) as (r & jh & Hr & Hb & Hj & Hh).
    assert (E : rev ([head] ++ map Rec older)
                = (map Rec (rev older) ++ [head])%list)
      by (rewrite rev_app_distr, map_rev; reflexivity).
    rewrite E. split; [|split].
    + exists e, r, jh, head, older. rewrite Hr.
      repeat (split; [reflexivity || assumption|]). exact Hw.
    + exists hash, head, older. split; reflexivity.
    + destruct head as [|b].
      * left. inversion Hw; subst; try discriminate. reflexivity.
      * right. exists (rev older ++ [b])%list. now rewrite map_app.
  - rewrite (get_chain_from_head_null fuel w hash Hv) in Hrun. discriminate.
  - rewrite (get_chain_from_head_raise fuel w e Hv) in Hrun. discriminate.
  - rewrite get_chain_from_head_unfold in Hrun. unfold bind in Hrun.
    rewrite get_head_view, Hv in Hrun. discriminate.
Qed.

(** X2.  A head read is not tolerated the way a backward fetch is.  When
    it fails, [get_chain_from_head] raises, and so do [count_nice] without a
    chain, [check_depth], [main] of the auditor (which prints nothing) and
    [mine_nice_fast] (which prints nothing and mines nothing).  When the
    reply carries null for the block, [get_head] hands it back and its first
    use raises: [AttributeError] in the chain reader, [TypeError] at
    [head["index"]] in the auditor.  When it carries [{}], the chain reader
    returns [[{}]]: the auditor raises [KeyError] at [head["index"]], while
    [count_nice] counts 0 and [mine_nice_fast] prints its first line and goes
    on. *)
Theorem head_failure_is_raised (sha256_hexdigest : string -> string)
    (fuel : nat) (nonce who : string) (target : Z) (w : World) :
  let reply := snd (srv_block None w) in
  let w1 := fst (srv_block None w) in
  let tr := [GetBlock None reply] in
  (forall e,
      head_read_fails reply e ->
      CheckTxDepth.get_head w = (Raise e, w1, tr)
      /\ CheckTxDepth.get_chain_from_head fuel w = (Raise e, w1, tr)
      /\ MineFast.get_chain_from_head fuel w = (Raise e, w1, tr)
      /\ MineFast.count_nice fuel None who w = (Raise e, w1, tr)
      /\ CheckTxDepth.check_depth fuel nonce w = (Raise e, w1, tr)
      /\ CheckTxDepth.main fuel nonce w = (Raise e, w1, tr)
      /\ MineFast.mine_nice_fast sha256_hexdigest fuel target who w
         = (Raise e, w1, tr))
  /\ (forall r hash,
         reply = Some r ->
         bad_status (status_code r) = false ->
         body r = Some (mkBlockBody hash Null) ->
         hash <> Missing ->
         CheckTxDepth.get_head w = (Return (field_get hash, None), w1, tr)
         /\ CheckTxDepth.get_chain_from_head fuel w
            = (Raise AttributeError, w1, tr)
         /\ MineFast.get_chain_from_head fuel w
            = (Raise AttributeError, w1, tr)
         /\ MineFast.count_nice fuel None who w
            = (Raise AttributeError, w1, tr)
         /\ CheckTxDepth.check_depth fuel nonce w = (Raise TypeError, w1, tr)
         /\ CheckTxDepth.main fuel nonce w = (Raise TypeError, w1, tr)
         /\ MineFast.mine_nice_fast sha256_hexdigest fuel target who w
            = (Raise AttributeError, w1, tr))
  /\ (forall r hash,
         reply = Some r ->
         bad_status (status_code r) = false ->
         body r = Some (mkBlockBody hash (Value Empty)) ->
         hash <> Missing ->
         (0 < fuel)%nat ->
         CheckTxDepth.get_head w
           = (Return (field_get hash, Some Empty), w1, tr)
         /\ CheckTxDepth.get_chain_from_head fuel w
            = (Return [Empty], w1, tr)
         /\ MineFast.get_chain_from_head fuel w = (Return [Empty], w1, tr)
         /\ MineFast.count_nice fuel None who w = (Return 0, w1, tr)
         /\ CheckTxDepth.check_depth fuel nonce w = (Raise KeyError, w1, tr)
         /\ CheckTxDepth.main fuel nonce w = (Raise KeyError, w1, tr)
         /\ exists out w' rest,
             MineFast.mine_nice_fast sha256_hexdigest fuel target who w
             = (out, w',
                GetBlock None reply
                  :: Print (MineFast.line_current who 0 target) :: rest)).
Proof.
  intros reply w1 tr. split; [|split].
  - intros e Hfail. apply head_read_fails_view in Hfail.
    pose proof (get_chain_from_head_raise fuel w e Hfail) as Hchain.
    fold w1 reply tr in Hchain.
    assert (Hdepth : CheckTxDepth.check_depth fuel nonce w
                     = (Raise e, w1, tr)).
    { unfold CheckTxDepth.check_depth, bind. rewrite get_head_view.
      fold reply. rewrite Hfail. reflexivity. }
    split; [rewrite get_head_view; fold reply; now rewrite Hfail|].
    split; [exact Hchain|]. split; [exact Hchain|]. split.
    { unfold MineFast.count_nice, bind.
      change (MineFast.get_chain_from_head fuel w)
        with (CheckTxDepth.get_chain_from_head fuel w).
      rewrite Hchain. reflexivity. }
    split; [exact Hdepth|]. split.
    + unfold CheckTxDepth.main, bind. rewrite Hdepth. reflexivity.
    + unfold MineFast.mine_nice_fast, bind.
      change (MineFast.get_chain_from_head fuel w)
        with (CheckTxDepth.get_chain_from_head fuel w).
      rewrite Hchain. reflexivity.
  - intros r hash Hr Hb Hj Hh.
    assert (Hv : head_view reply = Return (field_get hash, None)).
    { apply (head_view_good reply r hash Null Hr Hb Hj Hh). discriminate. }
    pose proof (get_chain_from_head_null fuel w _ Hv) as Hchain.
    fold w1 reply tr in Hchain.
    assert (Hdepth : CheckTxDepth.check_depth fuel nonce w
                     = (Raise TypeError, w1, tr)).
    { unfold CheckTxDepth.check_depth, bind. rewrite get_head_view.
      fold reply. rewrite Hv. reflexivity. }
    split; [rewrite get_head_view; fold reply; now rewrite Hv|].
    split; [exact Hchain|]. split; [exact Hchain|]. split.
    { unfold MineFast.count_nice, bind.
      change (MineFast.get_chain_from_head fuel w)
        with (CheckTxDepth.get_chain_from_head fuel w).
      rewrite Hchain. reflexivity. }
    split; [exact Hdepth|]. split.
    + unfold CheckTxDepth.main, bind. rewrite Hdepth. reflexivity.
    + unfold MineFast.mine_nice_fast, bind.
      change (MineFast.get_chain_from_head fuel w)
        with (CheckTxDepth.get_chain_from_head fuel w).
      rewrite Hchain. reflexivity.
  - intros r hash Hr Hb Hj Hh Hfuel.
    assert (Hv : head_view reply = Return (field_get hash, Some Empty)).
    { apply (head_view_good reply r hash (Value Empty) Hr Hb Hj Hh).
      discriminate. }
    assert (Hchain : CheckTxDepth.get_chain_from_head fuel w
                     = (Return [Empty], w1, tr)).
    { rewrite (get_chain_from_head_run fuel w _ Empty Hv).
      destruct fuel as [|k]; [lia|]. reflexivity. }
    assert (Hdepth : CheckTxDepth.check_depth fuel nonce w
                     = (Raise KeyError, w1, tr)).
    { unfold CheckTxDepth.check_depth, bind. rewrite get_head_view.
      fold reply. rewrite Hv. reflexivity. }
    split; [rewrite get_head_view; fold reply; now rewrite Hv|].
    split; [exact Hchain|]. split; [exact Hchain|]. split.
    { unfold MineFast.count_nice, bind.
      change (MineFast.get_chain_from_head fuel w)
        with (CheckTxDepth.get_chain_from_head fuel w).
      rewrite Hchain. reflexivity. }
    split; [exact Hdepth|]. split.
    + unfold CheckTxDepth.main, bind. rewrite Hdepth. reflexivity.
    + unfold MineFast.mine_nice_fast. unfold bind at 1.
      change (MineFast.get_chain_from_head fuel w)
        with (CheckTxDepth.get_chain_from_head fuel w).
      rewrite Hchain. unfold bind at 1.
      change (MineFast.count_nice fuel (Some [Empty]) who w1)
        with (@Return Z 0, w1, @nil Event).
      cbv iota beta. unfold bind at 1. cbn [print emit].
      match goal with
      | |- context [bind ?m ?k w1] =>
          destruct (bind m k w1) as [[out w'] rest]
      end.
      exists out, w', rest. reflexivity.
Qed.

(** [steps w cur older w' cur']: from world [w], following [cur], the
    service hands out the blocks [older] (newest first) and leaves the
    traversal in world [w'] about to follow [cur']. *)
Inductive steps
  : World -> option string -> list Block -> World -> option string -> Prop :=
| steps_done w cur :
    steps w cur [] w cur
| steps_next w cur r j blk older w' cur' :
    truthy cur = true ->
    snd (srv_block cur w) = Some r ->
    bad_status (status_code r) = false ->
    body r = Some j ->
    bb_block j = Value (Rec blk) ->
    steps (fst (srv_block cur w)) (blk_prev_hash blk) older w' cur' ->
    steps w cur (blk :: older) w' cur'.

Lemma while_steps w cur older w' cur' :
  steps w cur older w' cur' ->
  exists t1,
    forall fuel chain,
      while (List.length older + fuel) walk_body (chain, cur) w
      = (let '(r, w2, t2) :=
           while fuel walk_body ((chain ++ map Rec older)%list, cur') w' in
         (r, w2, (t1 ++ t2)%list)).
Proof.
  induction 1 as [w cur | w cur r j blk older w' cur' Ht Hr Hb Hj Hk Hs IH].
  - exists []. intros fuel chain. simpl. rewrite app_nil_r.
    destruct (while fuel walk_body (chain, cur) w) as [[r w2] t2].
    reflexivity.
  - destruct IH as [t1 IH].
    exists (GetBlock cur (Some r) :: t1). intros fuel chain.
    cbn [List.length Nat.add]. rewrite while_S. unfold bind at 1.
    rewrite walk_body_run, Ht. cbv zeta. rewrite Hr. unfold checked.
    rewrite Hb, Hj, Hk. rewrite IH. rewrite <- app_assoc.
    change ([Rec blk] ++ map Rec older)%list with (map Rec (blk :: older)).
    destruct (while fuel walk_body
                ((chain ++ map Rec (blk :: older))%list, cur') w')
      as [[r2 w2] t2].
    reflexivity.
Qed.

(** X3.  A reply to a backward fetch that has a good status but whose body
    is not JSON is not tolerated: [r.json()] sits outside the [try], and
    [get_chain_from_head] raises instead of returning the blocks fetched so
    far. *)
Theorem malformed_body_is_raised (fuel : nat) (w w2 : World)
    (hash : option string) (head : Dict) (older : list Block)
    (cur : option string) (r : Response BlockBody) :
  head_view (snd (srv_block None w)) = Return (hash, Some head) ->
  steps (fst (srv_block None w)) (get_prev_hash head) older w2 cur ->
  truthy cur = true ->
  snd (srv_block cur w2) = Some r ->
  bad_status (status_code r) = false ->
  body r = None ->
  (List.length older < fuel)%nat ->
  exists tr,
    CheckTxDepth.get_chain_from_head fuel w
    = (Raise JSONDecodeError, fst (srv_block cur w2), tr)
    /\ MineFast.get_chain_from_head fuel w
       = (Raise JSONDecodeError, fst (srv_block cur w2), tr).
Proof.
  intros Hv Hs Ht Hr Hb Hj Hfuel.
  destruct (while_steps _ _ _ _ _ Hs) as [t1 Hloop].
  replace fuel with (List.length older + S (fuel - S (List.length older)))%nat
    by lia.
  eexists.
  assert (E : CheckTxDepth.get_chain_from_head
                (List.length older + S (fuel - S (List.length older))) w
              = (Raise JSONDecodeError, fst (srv_block cur w2),
                 GetBlock None (snd (srv_block None w))
                   :: t1 ++ [GetBlock cur (Some r)])%list).
  { rewrite (get_chain_from_head_run _ w hash head Hv), Hloop.
    rewrite while_S. unfold bind at 1.
    rewrite walk_body_run, Ht. cbv zeta. rewrite Hr. unfold checked.
    rewrite Hb, Hj. reflexivity. }
  split; exact E.
Qed.

(** X4.  The reader keeps no record of the digests it has followed.  When
    the [prev_hash] links never leave a set of digests the service always
    answers with a block, as on a cycle, no amount of fuel makes
    [get_chain_from_head] return: it loops for ever. *)
Theorem cycle_never_returns (on_cycle : string -> Prop) (w : World)
    (hash : option string) (h0 : string) (head : Dict) :
  (forall h w, on_cycle h ->
     h <> ""
     /\ exists r j blk h',
         snd (srv_block (Some h) w) = Some r
         /\ bad_status (status_code r) = false
         /\ body r = Some j
         /\ bb_block j = Value (Rec blk)
         /\ blk_prev_hash blk = Some h'
         /\ on_cycle h') ->
  head_view (snd (srv_block None w)) = Return (hash, Some head) ->
  get_prev_hash head = Some h0 ->
  on_cycle h0 ->
  forall fuel, exists w' tr,
    CheckTxDepth.get_chain_from_head fuel w = (OutOfFuel, w', tr).
Proof.
  intros Hcycle Hv Hprev H0 fuel.
  assert (Hloop : forall fuel chain h w,
             on_cycle h ->
             exists w' tr,
               while fuel walk_body (chain, Some h) w = (OutOfFuel, w', tr)).
  { clear fuel. induction fuel as [|fuel IH]; intros chain h w0 Hh.
    - simpl. eauto.
    - destruct (Hcycle h w0 Hh)
        as (Hne & r & j & blk & h' & Hr & Hb & Hj & Hk & Hp & Hh').
      destruct (IH (chain ++ [Rec blk])%list h'
                  (fst (srv_block (Some h) w0)) Hh')
        as (w' & tr & Hrest).
      rewrite while_S. unfold bind at 1. rewrite walk_body_run.
      assert (Ht : truthy (Some h) = true)
        by (destruct h; [contradiction | reflexivity]).
      rewrite Ht. cbv zeta. rewrite Hr. unfold checked.
      rewrite Hb, Hj, Hk, Hp, Hrest. eauto. }
  rewrite (get_chain_from_head_run fuel w hash head Hv), Hprev.
  destruct (Hloop fuel [head] h0 (fst (srv_block None w)) H0)
    as (w' & tr & ->).
  eauto.
Qed.

Lemma emits_scan_chain P (nonce : string) (chain : list Dict) :
  emits P (CheckTxDepth.scan_chain nonce chain).
Proof.
  intros w r w' tr. rewrite scan_chain_run. intros [= <- <- <-]. constructor.
Qed.

(** X5.  The auditor only reads blocks.  Every request of [main] is a
    [GET /block]; it prints exactly one line, the last thing it does, when
    it returns, and nothing when it raises. *)
Theorem auditor_reads_only (fuel : nat) (nonce : string) (w w' : World)
    (r : Outcome unit) (tr : list Event) :
  CheckTxDepth.main fuel nonce w = (r, w', tr) ->
  exists reads,
    forallb Miner.is_get_block reads = true
    /\ ((r = Return tt
         /\ exists line,
             tr = (reads ++ [Print line])%list
             /\ (line = CheckTxDepth.line_not_found nonce
                 \/ exists d, line = CheckTxDepth.line_depth nonce d))
        \/ (r <> Return tt /\ tr = reads)).
Proof.
  intros Hrun.
  assert (Hreads : emits (fun e => Miner.is_get_block e = true)
                     (CheckTxDepth.check_depth fuel nonce)).
  { unfold CheckTxDepth.check_depth.
    apply emits_bind; [now apply Miner.emits_get_head|]. intros [hh hb].
    apply emits_bind; [apply emits_index|]. intros head_index.
    apply emits_bind; [now apply Miner.emits_get_chain_from_head|].
    intros chain.
    apply emits_bind; [apply emits_scan_chain|].
    intros [i|]; apply emits_ret. }
  unfold CheckTxDepth.main in Hrun. apply bind_inv in Hrun.
  destruct Hrun as [(found & w1 & t1 & t2 & H1 & H2 & ->)
                   | [(e & H1 & ->) | (H1 & ->)]].
  - exists t1.
    split; [apply forallb_forall, Forall_forall, (Hreads _ _ _ _ H1)|].
    left. destruct found as [d|]; injection H2 as <- <- <-;
      (split; [reflexivity|]); eexists; (split; [reflexivity|]); eauto.
  - exists tr.
    split; [apply forallb_forall, Forall_forall, (Hreads _ _ _ _ H1)|].
    right. split; [discriminate | reflexivity].
  - exists tr.
    split; [apply forallb_forall, Forall_forall, (Hreads _ _ _ _ H1)|].
    right. split; [discriminate | reflexivity].
Qed.

(** X6.  The auditor reports "not found" exactly when no block of the chain
    it reconstructed holds the nonce, and a depth it reports is never
    spurious: it is the index of the first block of that chain holding the
    nonce, next to the index of the head read beforehand. *)
Theorem not_found_exact (fuel : nat) (nonce : string) (w w2 : World)
    (hash : option string) (head : Block) (chain : list Dict)
    (t2 : list Event) :
  head_view (snd (srv_block None w)) = Return (hash, Some (Rec head)) ->
  CheckTxDepth.get_chain_from_head fuel (fst (srv_block None w))
    = (Return chain, w2, t2) ->
  let t1 := GetBlock None (snd (srv_block None w)) in
  (existsb (mentions nonce) chain = false ->
   CheckTxDepth.check_depth fuel nonce w = (Return None, w2, t1 :: t2)
   /\ CheckTxDepth.main fuel nonce w
      = (Return tt, w2,
         t1 :: t2 ++ [Print (CheckTxDepth.line_not_found nonce)])%list)
  /\ (forall d w' tr,
         CheckTxDepth.check_depth fuel nonce w = (Return (Some d), w', tr) ->
         exists pre blk post,
           chain = (pre ++ Rec blk :: post)%list
           /\ existsb (mentions nonce) pre = false
           /\ mentions nonce (Rec blk) = true
           /\ d = CheckTxDepth.mkDepth (blk_index blk) (blk_index head)
                    (blk_index head - blk_index blk)).
Proof.
  intros Hv Hchain t1.
  assert (Hrun : CheckTxDepth.check_depth fuel nonce w
                 = (match located nonce chain with
                    | None => Return None
                    | Some i =>
                        Return (Some (CheckTxDepth.mkDepth i (blk_index head)
                                        (blk_index head - i)))
                    end, w2, t1 :: t2)).
  { unfold CheckTxDepth.check_depth. unfold bind at 1.
    rewrite get_head_view, Hv. unfold bind at 1. cbn [index ret].
    unfold bind at 1. rewrite Hchain. unfold bind at 1.
    rewrite scan_chain_run.
    destruct (located nonce chain);
      cbn [ret app]; now rewrite !app_nil_r. }
  split.
  - intros Hnone. rewrite (located_none _ _ Hnone) in Hrun.
    split; [exact Hrun|].
    unfold CheckTxDepth.main, bind. rewrite Hrun. reflexivity.
  - intros d w' tr Hd. rewrite Hrun in Hd.
    destruct (located nonce chain) as [i|] eqn:Hscan;
      [|discriminate].
    injection Hd as <- _ _.
    destruct (located_some _ _ _ Hscan)
      as (pre & blk & post & -> & Hpre & Hblk & ->).
    exists pre, blk, post. auto.
Qed.

End More.
End ReaderMore.

(* ===================================================================== *)
(** ** More on the miner *)
(* ===================================================================== *)

Module MinerMore.
Import NetFacts Miner.


(** A submission the service accepted. *)
Definition accepted (e : Event) : bool :=
  match e with
  | PostBlock _ (Some status) => status =? 200
  | _ => false
  end.

Section Search.
Context `{Server}.
Variable sha256_hexdigest : string -> string.

(** The check of lines 100 and 109 on the digest of a block. *)
Definition meets_target (block : json) : bool :=
  startswith (MineFast.hash_block sha256_hexdigest block)
             MineFast.DIFFICULTY_PREFIX.

(** The search tries the nonces in ascending order: the block it returns
    carries a nonce [n], [h] is its digest, every nonce before [n] missed
    the target, and if [n] misses it too the search stopped at a multiple of
    [RECHECK_INTERVAL] on a stale pool read.  It has read the pool once for
    every multiple of [RECHECK_INTERVAL] the nonce reached. *)
Lemma pow_while_ascending (base : option string) (fuel : nat) :
  forall block nonce w b h w' tr,
    0 <= nonce ->
    while fuel (pow_body sha256_hexdigest base) (block, nonce) w
      = (Return (b, h), w', tr) ->
    exists n,
      nonce <= n
      /\ b = set_item "nonce" (JInt n) block
      /\ h = MineFast.hash_block sha256_hexdigest b
      /\ (forall m, nonce <= m < n ->
            meets_target (set_item "nonce" (JInt m) block) = false)
      /\ (meets_target b = false ->
          (n + 1) mod MineFast.RECHECK_INTERVAL = 0
          /\ exists tr0 final,
              tr = (tr0 ++ [GetTxpool final])%list
              /\ stale base (GetTxpool final) = true)
      /\ Z.of_nat (List.length tr)
         = (if meets_target b
            then n / MineFast.RECHECK_INTERVAL
            else (n + 1) / MineFast.RECHECK_INTERVAL)
           - nonce / MineFast.RECHECK_INTERVAL.
Proof.
  induction fuel as [|fuel IH]; intros block nonce w b h w' tr Hn Hrun;
    [discriminate|].
  rewrite while_S in Hrun. unfold bind at 1 in Hrun.
  unfold pow_body at 1 in Hrun.
  set (block1 := set_item "nonce" (JInt nonce) block) in *.
  fold (meets_target block1) in Hrun.
  pose proof (next_boundary nonce Hn) as Hstep.
  assert (Hn1 : 0 <= nonce + 1) by lia.
  destruct (meets_target block1) eqn:Hok.
  - simpl in Hrun. injection Hrun as <- <- <- <-.
    exists nonce. rewrite Hok.
    split; [lia|]. split; [reflexivity|]. split; [reflexivity|].
    split; [intros m Hm; lia|]. split; [congruence | simpl; lia].
  - assert (Hnext :
      forall w2 t2 t1,
        while fuel (pow_body sha256_hexdigest base) (block1, nonce + 1) w2
          = (Return (b, h), w', t2) ->
        tr = (t1 ++ t2)%list ->
        Z.of_nat (List.length t1)
        = (nonce + 1) / MineFast.RECHECK_INTERVAL
          - nonce / MineFast.RECHECK_INTERVAL ->
        exists n,
          nonce <= n
          /\ b = set_item "nonce" (JInt n) block
          /\ h = MineFast.hash_block sha256_hexdigest b
          /\ (forall m, nonce <= m < n ->
                meets_target (set_item "nonce" (JInt m) block) = false)
          /\ (meets_target b = false ->
              (n + 1) mod MineFast.RECHECK_INTERVAL = 0
              /\ exists tr0 final,
                  tr = (tr0 ++ [GetTxpool final])%list
                  /\ stale base (GetTxpool final) = true)
          /\ Z.of_nat (List.length tr)
             = (if meets_target b
                then n / MineFast.RECHECK_INTERVAL
                else (n + 1) / MineFast.RECHECK_INTERVAL)
               - nonce / MineFast.RECHECK_INTERVAL).
    { intros w2 t2 t1 Hrest -> Hlen1.
      destruct (IH _ _ _ _ _ _ _ Hn1 Hrest)
        as (n & Hle & Hb & Hh & Hmiss & Hst & Hlen).
      subst block1. rewrite set_item_twice in Hb.
      exists n. split; [lia|]. split; [exact Hb|]. split; [exact Hh|].
      split; [|split].
      - intros m Hm. destruct (Z.eq_dec m nonce) as [->|Hne]; [exact Hok|].
        specialize (Hmiss m ltac:(lia)).
        now rewrite set_item_twice in Hmiss.
      - intros Hmiss'. destruct (Hst Hmiss') as (Hmod & tr0 & final & -> & Hs).
        split; [exact Hmod|]. exists (t1 ++ tr0)%list, final.
        now rewrite app_assoc.
      - rewrite length_app, Nat2Z.inj_add. lia. }
    destruct ((nonce + 1) mod MineFast.RECHECK_INTERVAL =? 0) eqn:Hmod.
    + unfold bind at 1 in Hrun. rewrite get_txpool_run in Hrun.
      destruct (pool_view (snd (srv_txpool w))) as [[latest txs]|e|] eqn:Hv;
        [|discriminate|discriminate].
      destruct (negb (opt_str_eqb latest base)) eqn:Hstale.
      * simpl in Hrun. injection Hrun as <- <- <- <-.
        exists nonce. rewrite Hok. split; [lia|]. split; [reflexivity|].
        split; [reflexivity|]. split; [intros m Hm; lia|]. split.
        -- intros _. split; [now apply Z.eqb_eq|].
           exists [], (snd (srv_txpool w)). split; [reflexivity|].
           now rewrite (stale_view _ _ _ _ Hv).
        -- simpl. lia.
      * simpl in Hrun.
        destruct (while fuel (pow_body sha256_hexdigest base)
                    (block1, nonce + 1) (fst (srv_txpool w)))
          as [[r2 w2] t2] eqn:Hrest.
        injection Hrun as -> <- <-.
        apply (Hnext _ _ [GetTxpool (snd (srv_txpool w))] Hrest eq_refl).
        simpl. lia.
    + simpl in Hrun.
      destruct (while fuel (pow_body sha256_hexdigest base)
                  (block1, nonce + 1) w) as [[r2 w2] t2] eqn:Hrest.
      injection Hrun as -> <- <-.
      apply (Hnext _ _ [] Hrest eq_refl). simpl. lia.
Qed.


(** One pass, with the run of its search in view. *)
Lemma pass_anatomy (fuel : nat) (who : string) (w w' : World)
    (r : Outcome (Flow unit bool)) (tr : list Event) :
  MineFast.mine_attempt sha256_hexdigest fuel who w = (r, w', tr) ->
  let snap := snd (srv_txpool w) in
  let w1 := fst (srv_txpool w) in
  (exists e,
      pool_view snap = Raise e /\ r = Raise e /\ tr = [GetTxpool snap])
  \/ (exists h txs,
         pool_view snap = Return (h, txs)
         /\ MineFast.touches_who who txs = true
         /\ r = Return (Continue tt)
         /\ tr = [GetTxpool snap; Sleep 100])
  \/ (exists h txs e,
         pool_view snap = Return (h, txs)
         /\ MineFast.touches_who who txs = false
         /\ parent_view (snd (srv_block h w1)) = Raise e
         /\ r = Raise e
         /\ tr = [GetTxpool snap; GetBlock h (snd (srv_block h w1))])
  \/ (exists h txs parent rp w3 tp rest,
         pool_view snap = Return (h, txs)
         /\ MineFast.touches_who who txs = false
         /\ parent_view (snd (srv_block h w1)) = Return parent
         /\ while fuel (pow_body sha256_hexdigest h)
                  (MineFast.new_block (blk_index parent) h who, 0)
                  (fst (srv_block h w1)) = (rp, w3, tp)
         /\ finish h rp r rest
         /\ tr = (GetTxpool snap :: GetBlock h (snd (srv_block h w1))
                    :: tp ++ rest)%list).
Proof.
  intros Hrun snap w1. revert Hrun.
  rewrite mine_attempt_unfold, bind_get_txpool. fold snap w1.
  destruct (pool_view snap) as [[h txs]|e|] eqn:Hv.
  - destruct (MineFast.touches_who who txs) eqn:Ht.
    + intros [= <- <- <-]. right. left. exists h, txs. auto.
    + rewrite bind_parent.
      destruct (parent_view (snd (srv_block h w1))) as [parent|e|] eqn:Hp.
      * unfold bind. rewrite pow_loop_unfold.
        destruct (while fuel (pow_body sha256_hexdigest h)
                    (MineFast.new_block (blk_index parent) h who, 0)
                    (fst (srv_block h w1))) as [[rp w3] tp] eqn:Hs.
        destruct rp as [[b hs]|e|].
        -- destruct (finish_pass h (b, hs) w3) as [[r3 w4] t3] eqn:Hf.
           intros [= <- <- <-]. right. right. right.
           exists h, txs, parent, (Return (b, hs)), w3, tp, t3.
           repeat (split; [assumption || reflexivity|]).
           split; [|reflexivity].
           eapply finish_pass_shape; eassumption.
        -- intros [= <- <- <-]. right. right. right.
           exists h, txs, parent, (Raise e), w3, tp, [].
           repeat (split; [assumption || reflexivity|]).
           split; [constructor | now rewrite app_nil_r].
        -- intros [= <- <- <-]. right. right. right.
           exists h, txs, parent, OutOfFuel, w3, tp, [].
           repeat (split; [assumption || reflexivity|]).
           split; [constructor | now rewrite app_nil_r].
      * intros [= <- <- <-]. right. right. left. exists h, txs, e. auto.
      * now apply parent_view_fuel in Hp.
  - intros [= <- <- <-]. left. exists e. auto.
  - now apply pool_view_fuel in Hv.
Qed.

(** X7.  The search is ascending from nonce 0.  When [pow_loop] hands back
    a block, the block is the template with some nonce [n >= 0] written in
    it, [h] is the digest of that block, and every nonce below [n] missed the
    target.  If [n] misses it as well, the search stopped on a pool read
    reporting another head, at a nonce boundary: [n + 1] is a multiple of
    [RECHECK_INTERVAL].  The number of pool reads made is the number of
    multiples of [RECHECK_INTERVAL] the nonce went through. *)
Theorem search_is_ascending (base : option string) (fuel : nat)
    (block b : json) (h : string) (w w' : World) (tr : list Event) :
  MineFast.pow_loop sha256_hexdigest fuel base block w
    = (Return (b, h), w', tr) ->
  exists n,
    0 <= n
    /\ b = set_item "nonce" (JInt n) block
    /\ h = MineFast.hash_block sha256_hexdigest b
    /\ (forall m, 0 <= m < n ->
          meets_target (set_item "nonce" (JInt m) block) = false)
    /\ (meets_target b = false ->
        (n + 1) mod MineFast.RECHECK_INTERVAL = 0
        /\ exists tr0 final,
            tr = (tr0 ++ [GetTxpool final])%list
            /\ stale base (GetTxpool final) = true)
    /\ Z.of_nat (List.length tr)
       = (if meets_target b
          then n / MineFast.RECHECK_INTERVAL
          else (n + 1) / MineFast.RECHECK_INTERVAL).
Proof.
  intros Hrun. rewrite pow_loop_unfold in Hrun.
  destruct (pow_while_ascending base fuel block 0 w b h w' tr
              (Z.le_refl 0) Hrun)
    as (n & Hle & Hb & Hh & Hmiss & Hst & Hlen).
  exists n. change (0 / MineFast.RECHECK_INTERVAL) with 0 in Hlen.
  rewrite Z.sub_0_r in Hlen. auto 10.
Qed.

(** What the submitting tail of a pass looks like. *)
Lemma finish_post base rp r rest b reply :
  finish base rp r rest ->
  In (PostBlock b reply) rest ->
  exists hs final latest txs tail,
    rp = Return (b, hs)
    /\ pool_view final = Return (latest, txs)
    /\ discard base latest hs = false
    /\ rest = (GetTxpool final :: PostBlock b reply :: tail)%list
    /\ forallb (fun e => negb (is_post e)) tail = true
    /\ (accepted (PostBlock b reply) = true ->
        tail = [] /\ r = Return (Break true))
    /\ (accepted (PostBlock b reply) = false -> r <> Return (Break true)).
Proof.
  intros Hfin Hin.
  destruct Hfin as [e | | b0 h final e Hv | b0 h final latest txs Hv Hd
                   | b0 h final latest txs Hv Hd | b0 h final latest txs Hv Hd
                   | b0 h final latest txs status Hv Hd Hne];
    simpl in Hin;
    repeat match goal with
           | H : _ \/ _ |- _ => destruct H
           | H : False |- _ => contradiction
           | H : _ = PostBlock _ _ |- _ => inversion H; clear H; subst
           end.
  - exists h, final, latest, txs, [].
    do 5 (split; [reflexivity || assumption|]).
    split; [discriminate | discriminate].
  - exists h, final, latest, txs, [].
    do 5 (split; [reflexivity || assumption|]).
    split; [auto | discriminate].
  - exists h, final, latest, txs, [Sleep 50].
    do 5 (split; [reflexivity || assumption|]).
    split; [|discriminate].
    simpl. intros Hacc. apply Z.eqb_eq in Hacc. contradiction.
Qed.

Lemma not_post_not_in (l : list Event) b reply :
  forallb is_txpool l = true -> ~ In (PostBlock b reply) l.
Proof.
  intros Hall Hin. rewrite forallb_forall in Hall.
  specialize (Hall _ Hin). discriminate.
Qed.

(** A pass that submits: the events around the submission, the block and
    its nonce. *)
Lemma pass_post (fuel : nat) (who : string) (w w' : World)
    (r : Outcome (Flow unit bool)) (tr : list Event) b reply :
  MineFast.mine_attempt sha256_hexdigest fuel who w = (r, w', tr) ->
  In (PostBlock b reply) tr ->
  exists snap h preply parent tp final n tail,
    tr = (GetTxpool snap :: GetBlock h preply
            :: tp ++ GetTxpool final :: PostBlock b reply :: tail)%list
    /\ reported_head (GetTxpool snap) = Some h
    /\ reported_txs (GetTxpool snap) <> None
    /\ parent_view preply = Return parent
    /\ forallb is_txpool tp = true
    /\ reported_head (GetTxpool final) = Some h
    /\ forallb (fun e => negb (is_post e)) tail = true
    /\ 0 <= n
    /\ b = set_item "nonce" (JInt n)
             (MineFast.new_block (blk_index parent) h who)
    /\ meets_target b = true
    /\ (forall m, 0 <= m < n ->
          meets_target (set_item "nonce" (JInt m)
                          (MineFast.new_block (blk_index parent) h who))
          = false)
    /\ (accepted (PostBlock b reply) = true ->
        tail = [] /\ r = Return (Break true))
    /\ (accepted (PostBlock b reply) = false -> r <> Return (Break true)).
Proof.
  intros Hrun Hin.
  destruct (pass_anatomy fuel who w w' r tr Hrun)
    as [(e & _ & _ & ->)
       | [(h & txs & _ & _ & _ & ->)
         | [(h & txs & e & _ & _ & _ & _ & ->)
           | (h & txs & parent & rp & w3 & tp & rest
              & Hv & Ht & Hp & Hs & Hfin & ->)]]];
    simpl in Hin;
    repeat match goal with
           | H : _ \/ _ |- _ => destruct H
           | H : False |- _ => contradiction
           | H : _ = PostBlock _ _ |- _ => discriminate H
           end.
  destruct (pow_while_spec _ _ _ _ _ _ _ _ _ Hs) as (Htp & _).
  match goal with
  | Hin' : In _ (_ ++ _)%list |- _ =>
      apply in_app_or in Hin'; destruct Hin' as [Hin'|Hin'];
      [exfalso; exact (not_post_not_in _ _ _ Htp Hin')|];
      destruct (finish_post _ _ _ _ _ _ Hfin Hin')
        as (hs & final & latest & txs' & tail & -> & Hvf & Hd & -> & Htail
            & Hacc & Hrej)
  end.
  destruct (pow_while_ascending _ _ _ _ _ _ _ _ _ (Z.le_refl 0) Hs)
    as (n & Hle & Hb & Hh & Hmiss & _ & _).
  unfold discard in Hd. apply orb_false_elim in Hd.
  destruct Hd as [Hfresh Hok].
  apply negb_false_iff in Hfresh, Hok.
  assert (Hsame : latest = h).
  { destruct latest as [x|], h as [y|]; simpl in Hfresh; try discriminate;
      [apply String.eqb_eq in Hfresh; now subst | reflexivity]. }
  subst latest.
  exists (snd (srv_txpool w)), h, (snd (srv_block h (fst (srv_txpool w)))),
    parent, tp, final, n, tail.
  split; [reflexivity|].
  split; [simpl; now rewrite Hv|].
  split; [simpl; rewrite Hv; discriminate|].
  split; [exact Hp|]. split; [exact Htp|].
  split; [simpl; now rewrite Hvf|].
  split; [exact Htail|]. split; [exact Hle|]. split; [exact Hb|].
  split; [unfold meets_target; now rewrite <- Hh|].
  split; [exact Hmiss|]. split; assumption.
Qed.

(** *** Where an event sits in a trace *)

Lemma unique_split (P : Event -> bool) (A tail pre post : list Event)
    (x y : Event) :
  forallb (fun e => negb (P e)) A = true ->
  forallb (fun e => negb (P e)) tail = true ->
  P y = true ->
  (A ++ x :: tail)%list = (pre ++ y :: post)%list ->
  pre = A /\ y = x /\ post = tail.
Proof.
  intros HA Htail Hy. revert pre.
  induction A as [|a A IH]; intros [|p pre] E; simpl in E.
  - now injection E as -> ->.
  - exfalso. injection E as -> ->.
    rewrite forallb_forall in Htail.
    specialize (Htail y (in_elt y pre post)). rewrite Hy in Htail.
    discriminate.
  - exfalso. injection E as <- _. simpl in HA. rewrite Hy in HA.
    discriminate.
  - injection E as <- E. simpl in HA. apply andb_prop in HA.
    destruct HA as [_ HA]. destruct (IH HA pre E) as (-> & -> & ->). auto.
Qed.

Lemma split_after (P : Event -> bool) (t1 t2 pre post : list Event)
    (x : Event) :
  forallb (fun e => negb (P e)) t1 = true ->
  P x = true ->
  (t1 ++ t2)%list = (pre ++ x :: post)%list ->
  exists l, pre = (t1 ++ l)%list /\ t2 = (l ++ x :: post)%list.
Proof.
  intros H1 Hx. revert pre.
  induction t1 as [|a t1 IH]; intros pre E; simpl in E.
  - exists pre. auto.
  - simpl in H1. apply andb_prop in H1. destruct H1 as [Ha H1].
    destruct pre as [|p pre]; simpl in E.
    + injection E as -> _. rewrite Hx in Ha. discriminate.
    + injection E as <- E. destruct (IH H1 pre E) as (l & -> & ->).
      exists l. auto.
Qed.

(** The pool read just before a submission reports the [prev_hash] of the
    submitted block. *)
Definition after_fresh_read (pre : list Event) (b : json) : Prop :=
  exists pre0 final h,
    pre = (pre0 ++ [GetTxpool final])%list
    /\ reported_head (GetTxpool final) = Some h
    /\ get_item "prev_hash" b = Some (of_opt_str h).

Definition posts_after_fresh_reads (tr : list Event) : Prop :=
  forall pre b reply post,
    tr = (pre ++ PostBlock b reply :: post)%list -> after_fresh_read pre b.

Lemma posts_after_fresh_reads_app (t1 t2 : list Event) :
  posts_after_fresh_reads t1 -> posts_after_fresh_reads t2 ->
  posts_after_fresh_reads (t1 ++ t2).
Proof.
  intros H1 H2 pre b reply post E.
  apply app_eq_app in E. destruct E as (l & [[E1 E2] | [E1 E2]]).
  - destruct l as [|y l].
    + rewrite app_nil_r in E1. subst t1. simpl in E2.
      destruct (H2 [] b reply post (eq_sym E2)) as (pre0 & final & h & E & _).
      destruct pre0; discriminate.
    + simpl in E2. injection E2 as <- ->.
      exact (H1 pre b reply l E1).
  - destruct (H2 l b reply post E2) as (pre0 & final & h & -> & Hh & Hb).
    exists (t1 ++ pre0)%list, final, h. subst pre.
    rewrite app_assoc. auto.
Qed.

Lemma pass_posts_after_fresh_reads (fuel : nat) (who : string) (w w' : World)
    (r : Outcome (Flow unit bool)) (tr : list Event) :
  MineFast.mine_attempt sha256_hexdigest fuel who w = (r, w', tr) ->
  posts_after_fresh_reads tr.
Proof.
  intros Hrun pre b reply post E.
  assert (Hin : In (PostBlock b reply) tr) by (rewrite E; apply in_elt).
  destruct (pass_post fuel who w w' r tr b reply Hrun Hin)
    as (snap & h & preply & parent & tp & final & n & tail
        & Etr & _ & _ & _ & Htp & Hfinal & Htail & _ & Hb & _).
  rewrite E in Etr.
  change (GetTxpool snap :: GetBlock h preply
            :: tp ++ GetTxpool final :: PostBlock b reply :: tail)%list
    with ((GetTxpool snap :: GetBlock h preply :: tp)
            ++ GetTxpool final :: PostBlock b reply :: tail)%list in Etr.
  replace ((GetTxpool snap :: GetBlock h preply :: tp)
            ++ GetTxpool final :: PostBlock b reply :: tail)%list
    with (((GetTxpool snap :: GetBlock h preply :: tp) ++ [GetTxpool final])
            ++ PostBlock b reply :: tail)%list in Etr
    by (rewrite <- app_assoc; reflexivity).
  symmetry in Etr.
  apply (unique_split is_post) in Etr; [| |exact Htail|reflexivity].
  - destruct Etr as (-> & _ & _).
    exists (GetTxpool snap :: GetBlock h preply :: tp), final, h.
    split; [reflexivity|]. split; [exact Hfinal|]. subst b. reflexivity.
  - rewrite forallb_app. simpl. now rewrite (txpool_not_post _ Htp).
Qed.

(** X8.  Every submission comes straight after a pool read that reports, as
    the head of the chain, the very digest the submitted block carries as
    [prev_hash]: what [mine_empty_with_nice] submits is never stale with
    respect to its own latest read. *)
Theorem submission_follows_fresh_read (fuel : nat) (who : string)
    (w w' : World) (r : Outcome bool) (tr pre post : list Event)
    (b : json) (reply : option Z) :
  MineFast.mine_empty_with_nice sha256_hexdigest fuel who w = (r, w', tr) ->
  tr = (pre ++ PostBlock b reply :: post)%list ->
  exists pre0 final h,
    pre = (pre0 ++ [GetTxpool final])%list
    /\ reported_head (GetTxpool final) = Some h
    /\ get_item "prev_hash" b = Some (of_opt_str h).
Proof.
  rewrite mine_empty_with_nice_unfold. intros Hrun.
  assert (Hall : forall n w r w' tr,
             mine_loop sha256_hexdigest n fuel who w = (r, w', tr) ->
             posts_after_fresh_reads tr).
  { clear. induction n as [|n IH]; intros w r w' tr Hrun.
    - injection Hrun as <- <- <-. intros [|? ?] ? ? ? [=].
    - rewrite mine_loop_S in Hrun. apply bind_inv in Hrun.
      destruct Hrun as [(f & w1 & t1 & t2 & H1 & H2 & ->)
                       | [(e & H1 & _) | (H1 & _)]];
        try exact (pass_posts_after_fresh_reads _ _ _ _ _ _ H1).
      apply posts_after_fresh_reads_app;
        [exact (pass_posts_after_fresh_reads _ _ _ _ _ _ H1)|].
      destruct f as [[]|v]; [exact (IH _ _ _ _ H2)|].
      injection H2 as <- <- <-. intros [|? ?] ? ? ? [=]. }
  intros E. exact (Hall _ _ _ _ _ Hrun pre b reply post E).
Qed.

(** X9.  Every block [mine_empty_with_nice] submits has a valid proof of
    work, and the cheapest one: it is the template of lines 88-94 (index of
    the parent plus one, the snapshot's head as [prev_hash], no
    transactions, the marker) with the least nonce, counting from 0, whose
    digest starts with [DIFFICULTY_PREFIX]. *)
Theorem submitted_block_meets_target (fuel : nat) (who : string)
    (w w' : World) (r : Outcome bool) (tr : list Event)
    (b : json) (reply : option Z) :
  MineFast.mine_empty_with_nice sha256_hexdigest fuel who w = (r, w', tr) ->
  In (PostBlock b reply) tr ->
  meets_target b = true
  /\ exists parent_index h n,
      0 <= n
      /\ b = set_item "nonce" (JInt n)
               (MineFast.new_block parent_index h who)
      /\ forall m, 0 <= m < n ->
           meets_target (set_item "nonce" (JInt m)
                           (MineFast.new_block parent_index h who))
           = false.
Proof.
  rewrite mine_empty_with_nice_unfold. intros Hrun Hin.
  set (P := fun e => forall b reply,
                e = PostBlock b reply ->
                meets_target b = true
                /\ exists parent_index h n,
                    0 <= n
                    /\ b = set_item "nonce" (JInt n)
                             (MineFast.new_block parent_index h who)
                    /\ forall m, 0 <= m < n ->
                         meets_target
                           (set_item "nonce" (JInt m)
                              (MineFast.new_block parent_index h who))
                         = false).
  assert (Hall : Forall P tr).
  { revert Hrun. unfold mine_loop. apply emits_while.
    intros _ w0 r0 w0' tr0 Hpass. apply Forall_forall.
    intros e He b0 reply0 ->.
    destruct (pass_post fuel who w0 w0' r0 tr0 b0 reply0 Hpass He)
      as (snap & h & preply & parent & tp & final & n & tail
          & _ & _ & _ & _ & _ & _ & _ & Hn & Hb & Hok & Hmiss & _).
    split; [exact Hok|]. exists (blk_index parent), h, n. auto. }
  rewrite Forall_forall in Hall. exact (Hall _ Hin b reply eq_refl).
Qed.

(** X10.  An accepted submission is never lost and never followed by more
    mining: wherever a submission answered with status 200 occurs in a run
    of [mine_empty_with_nice], it is the last event and the run returns
    [True]. *)
Theorem accepted_submission_returns (fuel : nat) (who : string)
    (w w' : World) (r : Outcome bool) (tr pre post : list Event)
    (b : json) :
  MineFast.mine_empty_with_nice sha256_hexdigest fuel who w = (r, w', tr) ->
  tr = (pre ++ PostBlock b (Some 200) :: post)%list ->
  post = [] /\ r = Return true.
Proof.
  rewrite mine_empty_with_nice_unfold.
  assert (Hpass : forall w r w' tr,
             MineFast.mine_attempt sha256_hexdigest fuel who w = (r, w', tr) ->
             (forall pre b post,
                 tr = (pre ++ PostBlock b (Some 200) :: post)%list ->
                 post = [] /\ r = Return (Break true))
             /\ (r <> Return (Break true) ->
                 forallb (fun e => negb (accepted e)) tr = true)).
  { clear. intros w r w' tr Hrun. split.
    - intros pre b post E.
      assert (Hin : In (PostBlock b (Some 200)) tr)
        by (rewrite E; apply in_elt).
      destruct (pass_post fuel who w w' r tr b (Some 200) Hrun Hin)
        as (snap & h & preply & parent & tp & final & n & tail
            & Etr & _ & _ & _ & Htp & _ & _ & _ & _ & _ & _ & Hacc & _).
      destruct (Hacc eq_refl) as [-> ->]. split; [|reflexivity].
      rewrite E in Etr.
      replace (GetTxpool snap :: GetBlock h preply
                 :: tp ++ [GetTxpool final; PostBlock b (Some 200)])%list
        with (((GetTxpool snap :: GetBlock h preply :: tp)
                 ++ [GetTxpool final]) ++ PostBlock b (Some 200) :: [])%list
        in Etr by (rewrite <- app_assoc; reflexivity).
      symmetry in Etr.
      apply (unique_split is_post) in Etr;
        [tauto | | reflexivity | reflexivity].
      rewrite forallb_app. simpl. now rewrite (txpool_not_post _ Htp).
    - intros Hr. apply forallb_forall. intros e He.
      destruct e as [? ?|?|b [status|]|?|?]; try reflexivity.
      destruct (pass_post fuel who w w' r tr b (Some status) Hrun He)
        as (snap & h & preply & parent & tp & final & n & tail
            & _ & _ & _ & _ & _ & _ & _ & _ & _ & _ & _ & Hacc & _).
      destruct (accepted (PostBlock b (Some status))) eqn:Ha;
        [|reflexivity].
      destruct (Hacc eq_refl) as [_ ->]. contradiction. }
  assert (Hall : forall n w r w' tr pre b post,
             mine_loop sha256_hexdigest n fuel who w = (r, w', tr) ->
             tr = (pre ++ PostBlock b (Some 200) :: post)%list ->
             post = [] /\ r = Return true).
  { induction n as [|n IH]; intros w0 r0 w0' tr0 pre0 b0 post0 Hrun E.
    - injection Hrun as <- <- <-. destruct pre0; discriminate.
    - rewrite mine_loop_S in Hrun. apply bind_inv in Hrun.
      destruct Hrun as [(f & w1 & t1 & t2 & H1 & H2 & ->)
                       | [(e & H1 & _) | (H1 & _)]].
      + destruct (Hpass _ _ _ _ H1) as [Hlast Hnone].
        destruct f as [[]|v].
        * assert (Hno : forallb (fun e => negb (accepted e)) t1 = true)
            by (apply Hnone; discriminate).
          destruct (split_after accepted t1 t2 pre0 post0
                      (PostBlock b0 (Some 200)) Hno eq_refl E)
            as (l & _ & E2).
          exact (IH _ _ _ _ _ _ _ H2 E2).
        * injection H2 as <- <- <-. rewrite app_nil_r in E.
          destruct (Hlast _ _ _ E) as [-> [= <-]]. auto.
      + destruct (Hpass _ _ _ _ H1) as [Hlast _].
        destruct (Hlast _ _ _ E) as [_ [=]].
      + destruct (Hpass _ _ _ _ H1) as [Hlast _].
        destruct (Hlast _ _ _ E) as [_ [=]]. }
  intros Hrun E. exact (Hall _ _ _ _ _ _ _ _ Hrun E).
Qed.

(** *** Exceptions *)








(** *** A ledger nobody else writes to *)

Lemma opt_str_eqb_refl (h : option string) : opt_str_eqb h h = true.
Proof. destruct h; simpl; [apply String.eqb_refl | reflexivity]. Qed.

Section Quiet.
(** The worlds the ledger can be in while the miner works alone. *)
Variable Inv : World -> Prop.
Variable head_hash : option string.
Variable parent : Block.
Variable who : string.

Hypothesis quiet_pool :
  forall w, Inv w ->
    Inv (fst (srv_txpool w))
    /\ exists txs,
        pool_view (snd (srv_txpool w)) = Return (head_hash, txs)
        /\ MineFast.touches_who who txs = false.
Hypothesis quiet_parent :
  forall w, Inv w ->
    Inv (fst (srv_block head_hash w))
    /\ parent_view (snd (srv_block head_hash w)) = Return parent.

Let template : json :=
  MineFast.new_block (blk_index parent) head_hash who.

Lemma quiet_search (n : Z) :
  meets_target (set_item "nonce" (JInt n) template) = true ->
  (forall m, 0 <= m < n ->
     meets_target (set_item "nonce" (JInt m) template) = false) ->
  forall (k : nat) (nonce : Z) (block : json) (w : World) (fuel : nat),
    Inv w ->
    0 <= nonce ->
    n = nonce + Z.of_nat k ->
    (forall v, set_item "nonce" v block = set_item "nonce" v template) ->
    (k < fuel)%nat ->
    exists w3 tp,
      while fuel (pow_body sha256_hexdigest head_hash) (block, nonce) w
      = (Return (set_item "nonce" (JInt n) template,
                 MineFast.hash_block sha256_hexdigest
                   (set_item "nonce" (JInt n) template)), w3, tp)
      /\ Inv w3.
Proof.
  intros Hhit Hmiss.
  induction k as [|k IH]; intros nonce block w fuel Hw Hnonce Hn Hblock Hfuel;
    (destruct fuel as [|fuel]; [lia|]);
    rewrite while_S; unfold bind at 1; unfold pow_body at 1;
    rewrite Hblock;
    fold (meets_target (set_item "nonce" (JInt nonce) template)).
  - replace nonce with n by lia. rewrite Hhit. cbn [ret]. eauto.
  - rewrite (Hmiss nonce) by lia.
    assert (Hnext : forall v,
               set_item "nonce" v (set_item "nonce" (JInt nonce) template)
               = set_item "nonce" v template)
      by (intros v; apply set_item_twice).
    destruct ((nonce + 1) mod MineFast.RECHECK_INTERVAL =? 0).
    + unfold bind at 1. rewrite get_txpool_run.
      destruct (quiet_pool w Hw) as (Hw1 & txs & Hv & _). rewrite Hv.
      rewrite opt_str_eqb_refl. cbn [negb ret].
      destruct (IH (nonce + 1) _ (fst (srv_txpool w)) fuel Hw1
                  ltac:(lia) ltac:(lia) Hnext ltac:(lia))
        as (w3 & tp & -> & Hw3).
      eauto.
    + cbn [ret].
      destruct (IH (nonce + 1) _ w fuel Hw
                  ltac:(lia) ltac:(lia) Hnext ltac:(lia))
        as (w3 & tp & -> & Hw3).
      eauto.
Qed.

(** X12.  Left alone, the miner succeeds.  When the pool keeps reporting the
    same head and no transaction touching [who], the parent can be fetched,
    [n] is the least nonce whose digest meets the target and the service
    accepts the template with nonce [n], [mine_empty_with_nice] with fuel
    for [n + 1] evaluations returns [True], and what it submitted last is
    that block. *)
Theorem quiet_ledger_mines (n : Z) (fuel : nat) (w : World) :
  Inv w ->
  0 <= n ->
  meets_target (set_item "nonce" (JInt n) template) = true ->
  (forall m, 0 <= m < n ->
     meets_target (set_item "nonce" (JInt m) template) = false) ->
  (forall w, Inv w ->
     snd (srv_post (set_item "nonce" (JInt n) template) w) = Some 200) ->
  (Z.to_nat n < fuel)%nat ->
  exists w' tr0,
    MineFast.mine_empty_with_nice sha256_hexdigest fuel who w
    = (Return true, w',
       tr0 ++ [PostBlock (set_item "nonce" (JInt n) template) (Some 200)])%list.
Proof.
  intros Hw Hn Hhit Hmiss quiet_post Hfuel.
  destruct (quiet_pool w Hw) as (Hw1 & txs & Hv & Ht).
  destruct (quiet_parent _ Hw1) as (Hw2 & Hp).
  destruct (quiet_search n Hhit Hmiss (Z.to_nat n) 0 template _ fuel Hw2
              (Z.le_refl 0) ltac:(lia) (fun v => eq_refl) Hfuel)
    as (w3 & tp & Hs & Hw3).
  destruct (quiet_pool w3 Hw3) as (Hw4 & txs' & Hv' & _).
  rewrite mine_empty_with_nice_unfold.
  destruct fuel as [|k]; [lia|]. rewrite mine_loop_S.
  unfold bind at 1.
  rewrite mine_attempt_unfold, bind_get_txpool, Hv, Ht, bind_parent, Hp.
  unfold bind at 1. rewrite pow_loop_unfold. fold template. rewrite Hs.
  unfold finish_pass. rewrite bind_get_txpool, Hv'.
  rewrite opt_str_eqb_refl. unfold meets_target in Hhit. rewrite Hhit.
  cbn [negb orb]. unfold bind at 1, MineFast.http_post, requests_post.
  pose proof (quiet_post (fst (srv_txpool w3)) Hw4) as Hpost.
  destruct (srv_post (set_item "nonce" (JInt n) template)
              (fst (srv_txpool w3))) as [w5 reply].
  simpl in Hpost. subst reply. cbn [of_reply].
  change (200 =? 200) with true. cbn [ret app].
  exists w5,
    (GetTxpool (snd (srv_txpool w))
       :: GetBlock head_hash (snd (srv_block head_hash (fst (srv_txpool w))))
       :: tp ++ [GetTxpool (snd (srv_txpool w3))])%list.
  f_equal. rewrite !app_nil_r. simpl. rewrite <- app_assoc. reflexivity.
Qed.

End Quiet.

(** *** [mine_nice_fast] *)

(** [sum(1 for blk in chain if blk.get("nice") == who)] *)
Definition marked (who : string) (chain : list Dict) : Z :=
  Z.of_nat (List.length
              (filter (fun blk => opt_str_eqb (get_nice blk) (Some who))
                      chain)).

Lemma count_nice_run fuel chain who (w : World) :
  MineFast.count_nice fuel (Some chain) who w
  = (Return (marked who chain), w, []).
Proof. reflexivity. Qed.

(** X13.  When the chain already holds [target] blocks marked [who],
    [mine_nice_fast] mines nothing: it reads the chain once, prints the
    count and the closing line, and returns, without a pool read or a
    submission. *)
Theorem target_met_mines_nothing (fuel : nat) (target : Z) (who : string)
    (w w1 : World) (chain : list Dict) (t1 : list Event) :
  MineFast.get_chain_from_head fuel w = (Return chain, w1, t1) ->
  target <= marked who chain ->
  (0 < fuel)%nat ->
  MineFast.mine_nice_fast sha256_hexdigest fuel target who w
  = (Return tt, w1,
     t1 ++ [Print (MineFast.line_current who (marked who chain) target);
            Print (MineFast.line_reached who (marked who chain))])%list.
Proof.
  intros Hchain Hmet Hfuel. unfold MineFast.mine_nice_fast.
  unfold bind at 1. rewrite Hchain.
  unfold bind at 1. rewrite count_nice_run.
  destruct fuel as [|k]; [lia|]. rewrite while_S.
  assert (Hcmp : (marked who chain <? target) = false)
    by (apply Z.ltb_ge; exact Hmet).
  unfold bind. rewrite Hcmp. simpl. reflexivity.
Qed.

(** The body of the loop of [mine_nice_fast]. *)
Definition nice_body (fuel : nat) (target : Z) (who : string) (cur : Z)
  : M (Flow Z Z) :=
  if cur <? target then
    ok <- MineFast.mine_empty_with_nice sha256_hexdigest fuel who ;;
    if ok : bool then
      chain <- MineFast.get_chain_from_head fuel ;;
      cur <- MineFast.count_nice fuel (Some chain) who ;;
      print (MineFast.line_accepted who cur) ;;;
      ret (Continue cur)
    else
      print MineFast.line_rejected ;;;
      ret (Continue cur)
  else ret (Break cur).

Lemma mine_nice_fast_unfold fuel target who :
  MineFast.mine_nice_fast sha256_hexdigest fuel target who
  = (chain <- MineFast.get_chain_from_head fuel ;;
     cur <- MineFast.count_nice fuel (Some chain) who ;;
     print (MineFast.line_current who cur target) ;;;
     cur <- while fuel (nice_body fuel target who) cur ;;
     print (MineFast.line_reached who cur)).
Proof. reflexivity. Qed.

(** [rounds fuel target who chain w chain' w' tr]: the loop of
    [mine_nice_fast], entered in world [w] with the count of the chain
    [chain] read last.  As long as that count is below [target], a round
    follows: a run of [mine_empty_with_nice] that returns, a chain read in
    the world it leaves, and the line with the new count.  [chain'] is the
    chain read last when the loop is left, in world [w'], and [tr] is what
    the rounds did. *)
Inductive rounds (fuel : nat) (target : Z) (who : string)
  : list Dict -> World -> list Dict -> World -> list Event -> Prop :=
| rounds_done chain w :
    target <= marked who chain ->
    rounds fuel target who chain w chain w []
| rounds_step chain w w1 t1 chain1 w2 t2 chain' w' t3 :
    marked who chain < target ->
    MineFast.mine_empty_with_nice sha256_hexdigest fuel who w
      = (Return true, w1, t1) ->
    MineFast.get_chain_from_head fuel w1 = (Return chain1, w2, t2) ->
    rounds fuel target who chain1 w2 chain' w' t3 ->
    rounds fuel target who chain w chain' w'
      (t1 ++ t2 ++ Print (MineFast.line_accepted who (marked who chain1))
          :: t3)%list.

Lemma nice_loop_rounds (fuel : nat) (target : Z) (who : string) (n : nat) :
  forall chain w out w' tr,
    while n (nice_body fuel target who) (marked who chain) w
      = (Return out, w', tr) ->
    exists chain',
      rounds fuel target who chain w chain' w' tr
      /\ out = marked who chain'.
Proof.
  induction n as [|n IH]; intros chain w out w' tr Hrun; [discriminate|].
  rewrite while_S in Hrun. apply bind_inv in Hrun.
  destruct Hrun as [(f & w1 & t1 & t2 & H1 & H2 & ->)
                   | [(e & _ & [=]) | (_ & [=])]].
  unfold nice_body in H1.
  destruct (marked who chain <? target) eqn:Hcmp.
  - apply bind_inv in H1.
    destruct H1 as [(ok & wm & tm & tk & Hm & Hk & ->)
                   | [(e & _ & [=]) | (_ & [=])]].
    assert (Hok : ok = true).
    { pose proof Hm as Hm'. rewrite mine_empty_with_nice_unfold in Hm'.
      now apply mine_loop_return in Hm'. }
    subst ok.
    apply bind_inv in Hk.
    destruct Hk as [(chain1 & w3 & t5 & t6 & Hc & Hk & ->)
                   | [(e & _ & [=]) | (_ & [=])]].
    unfold bind at 1 in Hk. rewrite count_nice_run in Hk.
    cbn [bind print emit ret app] in Hk.
    injection Hk as <- <- <-.
    destruct (IH _ _ _ _ _ H2) as (chain' & Hrounds & Hout).
    exists chain'. split; [|exact Hout].
    replace ((tm ++ t5 ++
              [Print (MineFast.line_accepted who (marked who chain1))])
             ++ t2)%list
      with (tm ++ t5
               ++ Print (MineFast.line_accepted who (marked who chain1))
               :: t2)%list
      by (rewrite <- !app_assoc; reflexivity).
    eapply rounds_step; try eassumption. now apply Z.ltb_lt.
  - injection H1 as <- <- <-. injection H2 as <- <- <-.
    exists chain. split; [|reflexivity].
    rewrite app_nil_r. apply rounds_done. now apply Z.ltb_ge.
Qed.

(** The chain the loop holds when it is left is one this run has read: the
    chain it was entered with, or the chain read in its last round. *)
Lemma rounds_last_read (fuel : nat) (target : Z) (who : string)
    chain w chain' w' tr :
  rounds fuel target who chain w chain' w' tr ->
  (chain' = chain /\ w' = w /\ tr = [])
  \/ exists tr0 wa tc,
      MineFast.get_chain_from_head fuel wa = (Return chain', w', tc)
      /\ tr = (tr0 ++ tc
                 ++ [Print (MineFast.line_accepted who
                              (marked who chain'))])%list.
Proof.
  induction 1 as [chain w Hmet
                 | chain w w1 t1 chain1 w2 t2 chain' w' t3 Hlt Hm Hc Hr IH].
  - left. auto.
  - right. destruct IH as [(-> & -> & ->) | (tr0 & wa & tc & Hread & ->)].
    + exists t1, w1, t2. auto.
    + exists (t1 ++ t2
                ++ Print (MineFast.line_accepted who (marked who chain1))
                :: tr0)%list, wa, tc.
      split; [exact Hread|]. rewrite <- !app_assoc. reflexivity.
Qed.

(** X14.  [mine_nice_fast] returns only with its target met.  A run that
    returns is a chain read, the line with the count of that chain, the
    rounds of the loop, and the closing line; the count on the closing line
    is the number of blocks marked [who] in the chain this run read last, at
    least [target], and that read left the ledger in the world the run ends
    in. *)
Theorem returns_when_target_reached (fuel : nat) (target : Z) (who : string)
    (w w' : World) (tr : list Event) :
  MineFast.mine_nice_fast sha256_hexdigest fuel target who w
    = (Return tt, w', tr) ->
  exists chain0 w1 t1 chain t2,
    MineFast.get_chain_from_head fuel w = (Return chain0, w1, t1)
    /\ rounds fuel target who chain0 w1 chain w' t2
    /\ tr = (t1 ++ Print (MineFast.line_current who (marked who chain0)
                            target)
                :: t2
                ++ [Print (MineFast.line_reached who
                             (marked who chain))])%list
    /\ target <= marked who chain
    /\ exists wa tc,
        MineFast.get_chain_from_head fuel wa = (Return chain, w', tc)
        /\ exists tr0 line,
            tr = (tr0 ++ tc
                    ++ [Print line;
                        Print (MineFast.line_reached who
                                 (marked who chain))])%list.
Proof.
  rewrite mine_nice_fast_unfold. intros Hrun.
  apply bind_inv in Hrun.
  destruct Hrun as [(chain0 & w1 & t1 & t2 & Hc & Hrun & ->)
                   | [(e & _ & [=]) | (_ & [=])]].
  unfold bind at 1 in Hrun. rewrite count_nice_run in Hrun.
  unfold bind at 1 in Hrun. cbn [print emit] in Hrun.
  destruct (bind (while fuel (nice_body fuel target who) (marked who chain0))
              (fun cur => print (MineFast.line_reached who cur)) w1)
    as [[r3 w3] t3] eqn:Hloop.
  injection Hrun as -> <- <-.
  apply bind_inv in Hloop.
  destruct Hloop as [(out & w4 & t4 & t5 & Hw & Hp & ->)
                    | [(e & _ & [=]) | (_ & [=])]].
  injection Hp as <- <-.
  destruct (nice_loop_rounds fuel target who fuel _ _ _ _ _ Hw)
    as (chain & Hrounds & ->).
  assert (Hmet : target <= marked who chain).
  { clear -Hrounds. induction Hrounds; assumption. }
  exists chain0, w1, t1, chain, t4.
  split; [exact Hc|]. split; [exact Hrounds|]. split; [reflexivity|].
  split; [exact Hmet|].
  destruct (rounds_last_read _ _ _ _ _ _ _ _ Hrounds)
    as [(-> & -> & ->) | (tr0 & wa & tc & Hread & ->)].
  - exists w, t1. split; [exact Hc|].
    exists [], (MineFast.line_current who (marked who chain0) target).
    reflexivity.
  - exists wa, tc. split; [exact Hread|].
    exists (t1 ++ Print (MineFast.line_current who (marked who chain0) target)
               :: tr0)%list,
      (MineFast.line_accepted who (marked who chain)).
    cbn [app]. rewrite <- !app_assoc. reflexivity.
Qed.

End Search.
End MinerMore.

(* ===================================================================== *)
(** ** The further properties on concrete ledgers *)
(* ===================================================================== *)

Module MoreRuns.
Import NetFacts ChainReader Auditor Miner Ledgers.
Import ReaderMore MinerMore ReadingRuns MiningRuns.

(** A ledger nobody writes to, on which the digests listed in [garbled]
    are answered with status 200 and a body that is not JSON. *)
Definition frozen_garbling (head : string) (store : list (string * Block))
    (garbled : list string) : Server := {|
  World := unit;
  srv_block := fun hash w =>
    (w, match hash with
        | Some h =>
            if existsb (String.eqb h) garbled
            then Some (mkResponse 200 None)
            else serve_block head store [] hash
        | None => serve_block head store [] hash
        end);
  srv_txpool := fun w => (w, None);
  srv_post := fun _ w => (w, None);
  srv_sleep := fun _ w => w
|}.

(** [B2] comes back garbled. *)
Definition ledger5_garbling_B2 : Server := frozen_garbling "h5" store6 ["h2"].

(** The head digest is unknown to the service: status 404. *)
Definition ledger_unknown_head : Server := frozen "h9" store6 [].

(** Two blocks pointing at each other. *)
Definition ledger_cycle : Server :=
  frozen "h1" [("h0", blk 0 (Some "h1") []); ("h1", blk 1 (Some "h0") [])] [].

(** The head reply carries null, or the empty object, for the block. *)
Definition ledger_head (block : Field Dict) : Server := {|
  World := unit;
  srv_block := fun hash w => (w, ok (mkBlockBody (Value "h5") block));
  srv_txpool := fun w => (w, None);
  srv_post := fun _ w => (w, None);
  srv_sleep := fun _ w => w
|}.

Definition ledger_null_head : Server := ledger_head Null.
Definition ledger_empty_head : Server := ledger_head (Value Empty).

Lemma returned_chain_was_served_witness :
  (exists e, @serves ledger5_without_B2 tt (map Rec [B3; B4; B5]) e)
  /\ (exists hash head older,
        @head_view (snd (@srv_block ledger5_without_B2 None tt))
          = Return (hash, Some head)
        /\ map Rec [B3; B4; B5] = (map Rec (rev older) ++ [head])%list)
  /\ (map Rec [B3; B4; B5] = [Empty]
      \/ exists blocks, map Rec [B3; B4; B5] = map Rec blocks).
Proof.
  assert (E : @CheckTxDepth.get_chain_from_head ledger5_without_B2 10 tt
              = (Return (map Rec [B3; B4; B5]), tt,
                 snd (@CheckTxDepth.get_chain_from_head
                        ledger5_without_B2 10 tt)))
    by (vm_compute; reflexivity).
  exact (@returned_chain_was_served ledger5_without_B2 10 tt tt _ _ E).
Defined.

Lemma head_failure_is_raised_witness :
  (@CheckTxDepth.main ledger_unknown_head 10 "n1" tt
     = (Raise HTTPError, tt, [GetBlock None not_found])
   /\ @MineFast.mine_nice_fast ledger_unknown_head digest_at_3 10 2 "hacker"
        tt
      = (Raise HTTPError, tt, [GetBlock None not_found]))
  /\ (@CheckTxDepth.get_chain_from_head ledger_null_head 10 tt
       = (Raise AttributeError, tt,
          [GetBlock None (ok (mkBlockBody (Value "h5") Null))])
      /\ @CheckTxDepth.main ledger_null_head 10 "n1" tt
         = (Raise TypeError, tt,
            [GetBlock None (ok (mkBlockBody (Value "h5") Null))]))
  /\ (@CheckTxDepth.get_chain_from_head ledger_empty_head 10 tt
       = (Return [Empty], tt,
          [GetBlock None (ok (mkBlockBody (Value "h5") (Value Empty)))])
      /\ @CheckTxDepth.main ledger_empty_head 10 "n1" tt
         = (Raise KeyError, tt,
            [GetBlock None (ok (mkBlockBody (Value "h5") (Value Empty)))])
      /\ @MineFast.count_nice ledger_empty_head 10 None "hacker" tt
         = (Return 0, tt,
            [GetBlock None (ok (mkBlockBody (Value "h5") (Value Empty)))])).
Proof.
  split; [|split].
  - destruct (proj1 (@head_failure_is_raised ledger_unknown_head digest_at_3
                       10 "n1" "hacker" 2 tt) HTTPError eq_refl)
      as (_ & _ & _ & _ & _ & Hmain & Hmine).
    split; [exact Hmain | exact Hmine].
  - destruct (proj1 (proj2 (@head_failure_is_raised ledger_null_head
                              digest_at_3 10 "n1" "hacker" 2 tt))
                _ (Value "h5") eq_refl eq_refl eq_refl
                ltac:(discriminate))
      as (_ & Hchain & _ & _ & _ & Hmain & _).
    split; [exact Hchain | exact Hmain].
  - destruct (proj2 (proj2 (@head_failure_is_raised ledger_empty_head
                              digest_at_3 10 "n1" "hacker" 2 tt))
                _ (Value "h5") eq_refl eq_refl eq_refl
                ltac:(discriminate) ltac:(lia))
      as (_ & Hchain & _ & Hcount & _ & Hmain & _).
    split; [exact Hchain|]. split; [exact Hmain | exact Hcount].
Defined.

Lemma ledger5_garbling_steps :
  @steps ledger5_garbling_B2 tt (Some "h4") [B4; B3] tt (Some "h2").
Proof.
  do 2 (eapply steps_next; [reflexivity | reflexivity | reflexivity
                            | reflexivity | reflexivity | ]).
  apply steps_done.
Qed.

Lemma malformed_body_is_raised_witness :
  exists tr,
    @CheckTxDepth.get_chain_from_head ledger5_garbling_B2 10 tt
      = (Raise JSONDecodeError, tt, tr)
    /\ @MineFast.get_chain_from_head ledger5_garbling_B2 10 tt
       = (Raise JSONDecodeError, tt, tr).
Proof.
  exact (@malformed_body_is_raised ledger5_garbling_B2 10 tt tt (Some "h5")
           (Rec B5) [B4; B3] (Some "h2") (mkResponse 200 None)
           eq_refl ledger5_garbling_steps eq_refl eq_refl eq_refl eq_refl
           ltac:(simpl; lia)).
Defined.

Lemma ledger_cycle_closed (h : string) (w : @World ledger_cycle) :
  h = "h0" \/ h = "h1" ->
  h <> ""
  /\ exists r j blk h',
      snd (@srv_block ledger_cycle (Some h) w) = Some r
      /\ bad_status (status_code r) = false
      /\ body r = Some j
      /\ bb_block j = Value (Rec blk)
      /\ blk_prev_hash blk = Some h'
      /\ (h' = "h0" \/ h' = "h1").
Proof.
  intros [-> | ->]; (split; [discriminate|]);
    do 4 eexists; repeat (split; [reflexivity|]); auto.
Qed.

Lemma cycle_never_returns_witness :
  exists w' tr,
    @CheckTxDepth.get_chain_from_head ledger_cycle 40 tt = (OutOfFuel, w', tr).
Proof.
  exact (@cycle_never_returns ledger_cycle
           (fun h => h = "h0" \/ h = "h1") tt (Some "h1")
           "h0" (Rec (blk 1 (Some "h0") []))
           ledger_cycle_closed eq_refl eq_refl (or_introl eq_refl) 40%nat).
Defined.

Lemma auditor_reads_only_witness :
  exists reads,
    forallb is_get_block reads = true
    /\ ((Return tt = Return tt
         /\ exists line,
             snd (@CheckTxDepth.main ledger5 10 "n1" tt)
             = (reads ++ [Print line])%list
             /\ (line = CheckTxDepth.line_not_found "n1"
                 \/ exists d, line = CheckTxDepth.line_depth "n1" d))
        \/ (Return tt <> Return tt
            /\ snd (@CheckTxDepth.main ledger5 10 "n1" tt) = reads)).
Proof.
  assert (E : @CheckTxDepth.main ledger5 10 "n1" tt
              = (Return tt, tt, snd (@CheckTxDepth.main ledger5 10 "n1" tt)))
    by (vm_compute; reflexivity).
  exact (@auditor_reads_only ledger5 10 "n1" tt tt _ _ E).
Defined.

(** The transaction ["n1"] is mined in [B2], but the fetch of [B2] times
    out: the auditor says it is not found. *)
Lemma not_found_exact_witness :
  @CheckTxDepth.check_depth ledger5_without_B2 10 "n1" tt
    = (Return None, tt,
       GetBlock None (Some reply_h5)
         :: snd (@CheckTxDepth.get_chain_from_head ledger5_without_B2 10 tt))
  /\ mentions "n1" (Rec B2) = true.
Proof.
  assert (E : @CheckTxDepth.get_chain_from_head ledger5_without_B2 10 tt
              = (Return (map Rec [B3; B4; B5]), tt,
                 snd (@CheckTxDepth.get_chain_from_head
                        ledger5_without_B2 10 tt)))
    by (vm_compute; reflexivity).
  destruct (@not_found_exact ledger5_without_B2 10 "n1" tt tt (Some "h5") B5
              (map Rec [B3; B4; B5]) _ eq_refl E) as [Hnone _].
  split; [exact (proj1 (Hnone eq_refl)) | reflexivity].
Defined.

(** The searches of [MiningRuns.staleness_abort_witness]. *)
Lemma search_is_ascending_witness :
  (exists n,
      0 <= n
      /\ candidate 3 = set_item "nonce" (JInt n) (candidate 0)
      /\ meets_target digest_at_3 (candidate 3) = true)
  /\ (exists n,
         candidate 511 = set_item "nonce" (JInt n) (candidate 0)
         /\ meets_target digest_never (candidate 511) = false
         /\ (n + 1) mod MineFast.RECHECK_INTERVAL = 0).
Proof.
  assert (E1 : @MineFast.pow_loop ledger digest_at_3 600 (Some "h5")
                 (candidate 0) ([pool "h6" []], [])
               = (Return (candidate 3, "0000a3"), ([pool "h6" []], []), []))
    by (vm_compute; reflexivity).
  assert (E2 : @MineFast.pow_loop ledger digest_never 600 (Some "h5")
                 (candidate 0) ([pool "h6" []], [])
               = (Return (candidate 511, "000fa3"), ([], []),
                  [GetTxpool (pool "h6" [])]))
    by (vm_compute; reflexivity).
  split.
  - destruct (@search_is_ascending ledger digest_at_3 _ _ _ _ _ _ _ _ E1)
      as (n & Hn & Hb & _).
    exists n. split; [exact Hn|]. split; [exact Hb | reflexivity].
  - destruct (@search_is_ascending ledger digest_never _ _ _ _ _ _ _ _ E2)
      as (n & _ & Hb & _ & _ & Hst & _).
    exists n. split; [exact Hb|]. split; [reflexivity|].
    exact (proj1 (Hst eq_refl)).
Defined.

Lemma submission_follows_fresh_read_witness :
  exists pre0 final h,
    [GetTxpool (pool "h5" []); parent_h5; GetTxpool (pool "h5" [])]
    = (pre0 ++ [GetTxpool final])%list
    /\ reported_head (GetTxpool final) = Some h
    /\ get_item "prev_hash" (candidate 3) = Some (of_opt_str h).
Proof.
  exact (@submission_follows_fresh_read ledger digest_at_3 5 "hacker"
           world_refused_once _ _ _
           [GetTxpool (pool "h5" []); parent_h5; GetTxpool (pool "h5" [])]
           [Sleep 50; GetTxpool (pool "h5" []); parent_h5;
            GetTxpool (pool "h5" []); PostBlock (candidate 3) (Some 200)]
           (candidate 3) (Some 500) run_refused_once eq_refl).
Defined.

Lemma submitted_block_meets_target_witness :
  meets_target digest_at_3 (candidate 3) = true
  /\ exists parent_index h n,
      0 <= n
      /\ candidate 3 = set_item "nonce" (JInt n)
                         (MineFast.new_block parent_index h "hacker")
      /\ forall m, 0 <= m < n ->
           meets_target digest_at_3
             (set_item "nonce" (JInt m)
                (MineFast.new_block parent_index h "hacker"))
           = false.
Proof.
  apply (@submitted_block_meets_target ledger digest_at_3 5 "hacker"
           world_refused_once _ _ _ (candidate 3) (Some 500)
           run_refused_once).
  unfold trace_refused_once. simpl. auto.
Defined.

Lemma accepted_submission_returns_witness :
  @nil Event = [] /\ Return true = Return true.
Proof.
  exact (@accepted_submission_returns ledger digest_at_3 5 "hacker"
           world_refused_once _ _ _
           [GetTxpool (pool "h5" []); parent_h5; GetTxpool (pool "h5" []);
            PostBlock (candidate 3) (Some 500); Sleep 50;
            GetTxpool (pool "h5" []); parent_h5; GetTxpool (pool "h5" [])]
           [] (candidate 3) run_refused_once eq_refl).
Defined.



Lemma accepting_quiet_pool (w : @World accepting) :
  w = chain_to_B5 ->
  fst (@srv_txpool accepting w) = chain_to_B5
  /\ exists txs,
      pool_view (snd (@srv_txpool accepting w)) = Return (Some "h5", txs)
      /\ MineFast.touches_who "hacker" txs = false.
Proof. intros ->. split; [reflexivity|]. exists []. split; reflexivity. Qed.

Lemma accepting_quiet_parent (w : @World accepting) :
  w = chain_to_B5 ->
  fst (@srv_block accepting (Some "h5") w) = chain_to_B5
  /\ parent_view (snd (@srv_block accepting (Some "h5") w)) = Return B5.
Proof. intros ->. split; reflexivity. Qed.

Lemma digest_at_3_misses (m : Z) :
  0 <= m < 3 -> meets_target digest_at_3 (candidate m) = false.
Proof.
  intros Hm. assert (E : m = 0 \/ m = 1 \/ m = 2) by lia.
  destruct E as [-> | [-> | ->]]; reflexivity.
Qed.

Lemma accepting_accepts (w : @World accepting) :
  w = chain_to_B5 -> snd (@srv_post accepting (candidate 3) w) = Some 200.
Proof. intros ->. reflexivity. Qed.

Lemma quiet_ledger_mines_witness :
  exists w' tr0,
    @MineFast.mine_empty_with_nice accepting digest_at_3 5 "hacker" chain_to_B5
    = (Return true, w', tr0 ++ [PostBlock (candidate 3) (Some 200)])%list.
Proof.
  exact (@quiet_ledger_mines accepting digest_at_3
           (fun w => w = chain_to_B5) (Some "h5") B5 "hacker"
           accepting_quiet_pool accepting_quiet_parent
           3 5%nat chain_to_B5 eq_refl ltac:(lia) eq_refl
           digest_at_3_misses accepting_accepts ltac:(simpl; lia)).
Defined.

(** A chain that already holds two blocks marked ["hacker"]. *)
Definition chain_marked_twice : @World accepting :=
  [mkBlock 7 (Some "h6") 3 [] (Some "hacker");
   mkBlock 6 (Some "h5") 3 [] (Some "hacker"); B5; B4; B3; B2; B1; B0].

Lemma target_met_mines_nothing_witness :
  exists reads,
    forallb is_get_block reads = true
    /\ @MineFast.mine_nice_fast accepting digest_at_3 10 2 "hacker"
         chain_marked_twice
       = (Return tt, chain_marked_twice,
          reads ++ [Print (MineFast.line_current "hacker" 2 2);
                    Print (MineFast.line_reached "hacker" 2)])%list.
Proof.
  assert (E : @MineFast.get_chain_from_head accepting 10 chain_marked_twice
              = (Return (map Rec (rev chain_marked_twice)),
                 chain_marked_twice,
                 snd (@MineFast.get_chain_from_head accepting 10
                        chain_marked_twice)))
    by (vm_compute; reflexivity).
  eexists. split; [|
    exact (@target_met_mines_nothing accepting digest_at_3 10 2 "hacker"
             _ _ _ _ E ltac:(vm_compute; discriminate) ltac:(lia))].
  vm_compute. reflexivity.
Defined.

Lemma returns_when_target_reached_witness :
  exists chain0 w1 t1 chain t2,
    @MineFast.get_chain_from_head accepting 10 chain_to_B5
      = (Return chain0, w1, t1)
    /\ @rounds accepting digest_at_3 10 2 "hacker" chain0 w1 chain
         (snd (fst run_to_target)) t2
    /\ snd run_to_target
       = (t1 ++ Print (MineFast.line_current "hacker" (marked "hacker" chain0)
                         2)
             :: t2
             ++ [Print (MineFast.line_reached "hacker"
                          (marked "hacker" chain))])%list
    /\ 2 <= marked "hacker" chain
    /\ exists wa tc,
        @MineFast.get_chain_from_head accepting 10 wa
          = (Return chain, snd (fst run_to_target), tc)
        /\ exists tr0 line,
            snd run_to_target
            = (tr0 ++ tc
                 ++ [Print line;
                     Print (MineFast.line_reached "hacker"
                              (marked "hacker" chain))])%list.
Proof.
  exact (@returns_when_target_reached accepting digest_at_3 10 2 "hacker"
           _ _ _ run_to_target_eq).
Defined.

End MoreRuns.

(* ===================================================================== *)
(** ** More on what is hashed *)
(* ===================================================================== *)

Module HashingMore.
Import Hashing Ledgers.











End HashingMore.
